(** * The skill normalisation, aggregation and ranking core of the ATS

    A shallow embedding of [Shared/normalizer.py], [Shared/vector.py],
    [Shared/Schema/Dto.py], [Candidate/postprocessor.py],
    [Candidate/vectorizer.py], [Employer/schemas/LLMResponse.py],
    [Employer/PostProcessor.py] and [Employer/MatchingEngine.py], the
    properties the specification states about them, and further
    properties the sources themselves show.

    Conventions of the embedding.
    - Python [str] is [string]; the text is taken to be ASCII, so
      [str.lower] only moves [A-Z].
    - Python [int] is [Z]; Python [float] is idealised as [R] (no rounding
      of the arithmetic itself); [round(x, n)] is [py_round n x].
    - [None] is [option]'s [None]; a raised exception is [None] of the
      function's own [option] result where the source can raise.
    - The SQL tables are lists of rows, the queries are list filters.
    - The patterns of [re] the sources use are written out as matchers on
      ASCII text ([Text.pattern]).
    - External collaborators ([dateutil.parser.parse], the embedding model,
      the clock, the iteration order of a [set]) are [Variable]s of the
      section that uses them. *)

From Stdlib Require Import ZArith Reals Lra Lia List String Ascii Bool.
From stdpp Require Import gmap strings list fin_maps sorting.

Open Scope Z_scope.

(* ===================================================================== *)
(** ** Text: the [str] operations the sources use directly *)
(* ===================================================================== *)

Module Text.

Definition is_upper (c : ascii) : bool :=
  let n := Z.of_N (N_of_ascii c) in (65 <=? n) && (n <=? 90).

(** [c.lower()] on one ASCII character. *)
Definition lower_char (c : ascii) : ascii :=
  if is_upper c then ascii_of_N (N_of_ascii c + 32) else c.

(** [s.lower()] *)
Fixpoint lower (s : string) : string :=
  match s with
  | EmptyString => EmptyString
  | String c r => String (lower_char c) (lower r)
  end.

(** [needle in hay] *)
Fixpoint contains (needle hay : string) : bool :=
  match hay with
  | EmptyString => String.prefix needle EmptyString
  | String _ r => String.prefix needle hay || contains needle r
  end.

(** Python truthiness of a [str]. *)
Definition truthy (s : string) : bool :=
  match s with EmptyString => false | _ => true end.

(** [s.split(sep)] for a one-character separator. *)
Fixpoint split_on (sep : ascii) (s : string) : list string :=
  match s with
  | EmptyString => [EmptyString]
  | String c r =>
      if Ascii.eqb c sep then EmptyString :: split_on sep r
      else match split_on sep r with
           | [] => [String c EmptyString]
           | w :: ws => String c w :: ws
           end
  end.

(** [str.isspace] and [\s] on ASCII: tab to carriage return, the four
    separators 28..31, and the space. *)
Definition is_space (c : ascii) : bool :=
  let n := Z.of_N (N_of_ascii c) in
  ((9 <=? n) && (n <=? 13)) || ((28 <=? n) && (n <=? 32)).

Definition is_digit (c : ascii) : bool :=
  let n := Z.of_N (N_of_ascii c) in (48 <=? n) && (n <=? 57).

Definition is_lower (c : ascii) : bool :=
  let n := Z.of_N (N_of_ascii c) in (97 <=? n) && (n <=? 122).

(** [\w] on ASCII. *)
Definition is_word (c : ascii) : bool :=
  is_upper c || is_lower c || is_digit c || Ascii.eqb c "_".

Fixpoint lstrip (s : string) : string :=
  match s with
  | EmptyString => EmptyString
  | String c r => if is_space c then lstrip r else s
  end.

Fixpoint rstrip (s : string) : string :=
  match s with
  | EmptyString => EmptyString
  | String c r =>
      match rstrip r with
      | EmptyString => if is_space c then EmptyString else String c EmptyString
      | r' => String c r'
      end
  end.

(** [s.strip()] *)
Definition strip (s : string) : string := rstrip (lstrip s).

(** [re.sub(r"\s+", " ", s)]; [in_run] says that the previous character
    belonged to the run being collapsed. *)
Fixpoint collapse_ws_from (in_run : bool) (s : string) : string :=
  match s with
  | EmptyString => EmptyString
  | String c r =>
      if is_space c
      then (if in_run then collapse_ws_from true r
            else String " " (collapse_ws_from true r))
      else String c (collapse_ws_from false r)
  end.

Definition collapse_ws (s : string) : string := collapse_ws_from false s.

(** Replace every character outside the class [keep] by [by_c]:
    [re.sub(r"[^...]", by_c, s)]. *)
Fixpoint replace_outside (keep : ascii -> bool) (by_c : ascii) (s : string)
    : string :=
  match s with
  | EmptyString => EmptyString
  | String c r =>
      String (if keep c then c else by_c) (replace_outside keep by_c r)
  end.

(** *** Pattern substitution

    A pattern is given by the length of its match at the head of the rest
    of the text, knowing the character before it (for [\b]). All the
    patterns of the sources match at least one character. *)
Definition pattern := option ascii -> string -> option nat.

(** [re.sub(pattern, repl, s)] and [s.replace(old, new)]: leftmost
    matches, not overlapping; [skip] counts the characters of the current
    match still to be dropped. *)
Fixpoint sub_from (p : pattern) (repl : string) (prev : option ascii)
    (skip : nat) (s : string) : string :=
  match s with
  | EmptyString => EmptyString
  | String c r =>
      match skip with
      | S k => sub_from p repl (Some c) k r
      | O =>
          match p prev s with
          | Some (S k) => repl +:+ sub_from p repl (Some c) k r
          | _ => String c (sub_from p repl (Some c) O r)
          end
      end
  end.

Definition sub (p : pattern) (repl : string) (s : string) : string :=
  sub_from p repl None O s.

(** [re.findall(pattern, s)] *)
Fixpoint findall_from (p : pattern) (prev : option ascii) (skip : nat)
    (s : string) : list string :=
  match s with
  | EmptyString => []
  | String c r =>
      match skip with
      | S k => findall_from p (Some c) k r
      | O =>
          match p prev s with
          | Some (S k) =>
              String.substring 0 (S k) s :: findall_from p (Some c) k r
          | _ => findall_from p (Some c) O r
          end
      end
  end.

Definition findall (p : pattern) (s : string) : list string :=
  findall_from p None O s.

Definition word_opt (c : option ascii) : bool :=
  match c with Some c => is_word c | None => false end.

(** [\b] between [prev] and [next]. *)
Definition boundary (prev next : option ascii) : bool :=
  xorb (word_opt prev) (word_opt next).

Definition head (s : string) : option ascii :=
  match s with EmptyString => None | String c _ => Some c end.

(** Length of the longest prefix of [s] inside the class [cls]. *)
Fixpoint run_length (cls : ascii -> bool) (s : string) : nat :=
  match s with
  | EmptyString => O
  | String c r => if cls c then S (run_length cls r) else O
  end.

(** [[cls]+] *)
Definition p_run (cls : ascii -> bool) : pattern :=
  fun _ s => match run_length cls s with O => None | n => Some n end.

(** A plain substring, as [str.replace] looks for it. *)
Definition p_literal (w : string) : pattern :=
  fun _ s => if String.prefix w s then Some (String.length w) else None.

Fixpoint drop (n : nat) (s : string) : string :=
  match n, s with
  | O, _ => s
  | S k, EmptyString => EmptyString
  | S k, String _ r => drop k r
  end.

Fixpoint last_char (prev : option ascii) (s : string) : option ascii :=
  match s with
  | EmptyString => prev
  | String c r => last_char (Some c) r
  end.

(** [\bw\b] for a word [w]. *)
Definition p_word (w : string) : pattern :=
  fun prev s =>
    if String.prefix w s
       && boundary prev (head s)
       && boundary (last_char None w) (head (drop (String.length w) s))
    then Some (String.length w) else None.

(** [\bw\s*d\b]: the word [w], any whitespace, the digit [d]. *)
Definition p_versioned (w : string) (d : ascii) : pattern :=
  fun prev s =>
    if String.prefix w s && boundary prev (head s) then
      let rest := drop (String.length w) s in
      let k := run_length is_space rest in
      match drop k rest with
      | String c after =>
          if Ascii.eqb c d && boundary (Some d) (head after)
          then Some (String.length w + k + 1)%nat else None
      | EmptyString => None
      end
    else None.

(** The longest [n <= limit] with a [\b] after the first [n] characters
    of [s]; [prev] is the character before [s]. The result counts from
    the start of [s]; [O] when there is none. *)
Fixpoint last_boundary (limit : nat) (prev : option ascii) (s : string)
    : nat :=
  match limit, s with
  | S k, String c r =>
      match last_boundary k (Some c) r with
      | S n => S (S n)
      | O => if boundary (Some c) (head r) then 1%nat else O
      end
  | _, _ => O
  end.

(** [\b[cls]+\b]: greedy, then backtracking to the last position that
    is a word boundary. *)
Definition p_bounded_run (cls : ascii -> bool) : pattern :=
  fun prev s =>
    if boundary prev (head s) then
      match last_boundary (run_length cls s) prev s with
      | O => None
      | n => Some n
      end
    else None.

Definition digit_val (c : ascii) : option Z :=
  let n := Z.of_N (N_of_ascii c) in
  if (48 <=? n) && (n <=? 57) then Some (n - 48) else None.

(** The value of a run of decimal digits; [None] on any other character. *)
Fixpoint number (acc : Z) (s : string) : option Z :=
  match s with
  | EmptyString => Some acc
  | String c r =>
      match digit_val c with
      | Some d => number (acc * 10 + d) r
      | None => None
      end
  end.

End Text.

(* ===================================================================== *)
(** ** Dates: [datetime], [strptime], [relativedelta] *)
(* ===================================================================== *)

Module Dates.

(** A naive [datetime]: calendar date and the time of day in
    microseconds since midnight. *)
Record datetime := mk_datetime { year : Z; month : Z; day : Z; tod : Z }.

Definition isleap (y : Z) : bool :=
  (y mod 4 =? 0) && (negb (y mod 100 =? 0) || (y mod 400 =? 0)).

(** [calendar.monthrange(y, m)[1]] *)
Definition monthrange (y m : Z) : Z :=
  if m =? 2 then (if isleap y then 29 else 28)
  else if (m =? 4) || (m =? 6) || (m =? 9) || (m =? 11) then 30
  else 31.

Definition valid (dt : datetime) : Prop :=
  1 <= year dt <= 9999 /\ 1 <= month dt <= 12 /\
  1 <= day dt <= monthrange (year dt) (month dt) /\
  0 <= tod dt < 86400000000.

Definition validb (dt : datetime) : bool :=
  (1 <=? year dt) && (year dt <=? 9999) && (1 <=? month dt) && (month dt <=? 12)
  && (1 <=? day dt) && (day dt <=? monthrange (year dt) (month dt))
  && (0 <=? tod dt) && (tod dt <? 86400000000).

(** [a < b] on datetimes: lexicographic on year, month, day, time. *)
Definition dt_ltb (a b : datetime) : bool :=
  (year a <? year b) ||
  ((year a =? year b) &&
   ((month a <? month b) ||
    ((month a =? month b) &&
     ((day a <? day b) || ((day a =? day b) && (tod a <? tod b)))))).

Definition dt_leb (a b : datetime) : bool := negb (dt_ltb b a).

(** [datetime.strptime(s, "%Y-%m-%d")]: a four-digit year, a month and a
    day of one or two digits; [None] is the [ValueError]. *)
Definition strptime_ymd (s : string) : option datetime :=
  match Text.split_on "-" s with
  | [y; m; d] =>
      if (String.length y =? 4)%nat
         && (1 <=? String.length m)%nat && (String.length m <=? 2)%nat
         && (1 <=? String.length d)%nat && (String.length d <=? 2)%nat
      then
        match Text.number 0 y, Text.number 0 m, Text.number 0 d with
        | Some y', Some m', Some d' =>
            let dt := mk_datetime y' m' d' 0 in
            if validb dt then Some dt else None
        | _, _, _ => None
        end
      else None
  | _ => None
  end.

(** [dt + relativedelta(months=n)] as [relativedelta.__radd__] computes
    it: [_set_months] splits [n] into years and months that carry the sign
    of [n], the month is brought back into 1..12, and the day is clipped
    to the length of the target month. *)
Definition shift_months (dt : datetime) (n : Z) : datetime :=
  let years := Z.quot n 12 in
  let months := Z.rem n 12 in
  let y := year dt + years in
  let m := month dt + months in
  let '(y, m) := if 12 <? m then (y + 1, m - 12)
                 else if m <? 1 then (y - 1, m + 12)
                 else (y, m) in
  mk_datetime y m (Z.min (monthrange y m) (day dt)) (tod dt).

(** The adjustment loop of [relativedelta(dt1, dt2)]:
    [while compare(dt1, dtm): months += increment]. *)
Fixpoint adjust (fuel : nat) (dt1 dt2 : datetime) (months : Z) : Z :=
  match fuel with
  | O => months
  | S k =>
      let dtm := shift_months dt2 months in
      if dt_ltb dt1 dt2 then
        if dt_ltb dtm dt1 then adjust k dt1 dt2 (months + 1) else months
      else
        if dt_ltb dt1 dtm then adjust k dt1 dt2 (months - 1) else months
  end.

(** Whether the loop condition of [relativedelta(dt1, dt2)] still holds
    at [months]. *)
Definition overshoot (dt1 dt2 : datetime) (months : Z) : bool :=
  let dtm := shift_months dt2 months in
  if dt_ltb dt1 dt2 then dt_ltb dtm dt1 else dt_ltb dt1 dtm.

(** [delta = relativedelta(dt1, dt2); delta.years * 12 + delta.months].
    Two rounds of the loop are always enough ([adjust_settles]). *)
Definition relativedelta_months (dt1 dt2 : datetime) : Z :=
  adjust 2 dt1 dt2 ((year dt1 - year dt2) * 12 + (month dt1 - month dt2)).

(** The month difference the specification gives for a duration. *)
Definition months_formula (e s : datetime) : Z :=
  (year e - year s) * 12 + (month e - month s).

(** The day of [s] clipped to the length of the month of [e]. *)
Definition clipped_day (e s : datetime) : Z :=
  Z.min (monthrange (year e) (month e)) (day s).

(** [e] falls earlier (later) within its month than the day and time of
    [s]. *)
Definition earlier_in_month (e s : datetime) : bool :=
  (day e <? clipped_day e s)
  || ((day e =? clipped_day e s) && (tod e <? tod s)).

Definition later_in_month (e s : datetime) : bool :=
  (clipped_day e s <? day e)
  || ((day e =? clipped_day e s) && (tod s <? tod e)).

(** [min(a, b)] and [max(a, b)] of Python on datetimes. *)
Definition dt_min (a b : datetime) : datetime := if dt_ltb b a then b else a.
Definition dt_max (a b : datetime) : datetime := if dt_ltb a b then b else a.

Definition days_before_year (y : Z) : Z :=
  let p := y - 1 in p * 365 + p / 4 - p / 100 + p / 400.

Definition days_before_month (y m : Z) : Z :=
  nth (Z.to_nat (m - 1)) [0; 31; 59; 90; 120; 151; 181; 212; 243; 273; 304; 334] 0
  + (if (2 <? m) && isleap y then 1 else 0).

(** [d.toordinal()] *)
Definition toordinal (d : datetime) : Z :=
  days_before_year (year d) + days_before_month (year d) (month d) + day d.

End Dates.

(* ===================================================================== *)
(** ** Candidate/postprocessor.py: durations *)
(* ===================================================================== *)

Module Duration.
Import Dates.

Section WithParser.

(** [dateutil.parser.parse]; [None] when it raises. *)
Variable dparse : string -> option datetime.

(** [end_raw or "Present"] *)
Definition or_present (end_raw : option string) : string :=
  match end_raw with
  | Some s => if Text.truthy s then s else "Present"%string
  | None => "Present"%string
  end.

(** ["present" in e_raw.lower() or e_raw == "N/A"] *)
Definition is_present (e_raw : string) : bool :=
  Text.contains "present" (Text.lower e_raw) || String.eqb e_raw "N/A".

(** The body of the [try] block: [None] is any exception raised in it
    ([dparser.parse(None)] is a [TypeError]). *)
Definition try_duration (start_raw : option string) (e_raw : string)
    (today : datetime) : option Z :=
  s_raw ← start_raw;
  start_dt ← dparse s_raw;
  end_dt ← (if is_present e_raw then Some today else dparse e_raw);
  Some (relativedelta_months end_dt start_dt).

(** [calculate_duration(start_raw, end_raw, ref_date)]. The outer
    [None] is the [ValueError] of [strptime] on a bad [ref_date], which
    is raised before the [try]. *)
Definition calculate_duration (start_raw end_raw : option string)
    (ref_date : string) : option Z :=
  today ← strptime_ymd ref_date;
  Some (match try_duration start_raw (or_present end_raw) today with
        | Some duration => duration
        | None => 0
        end).

Definition default_ref_date : string := "2026-01-01".

End WithParser.

End Duration.

(* ===================================================================== *)
(** ** Floats *)
(* ===================================================================== *)

Module Float.

(** The integer nearest to [x], ties to the even one. *)
Definition round_half_even (x : R) : Z :=
  let f := Int_part x in
  let r := (x - IZR f)%R in
  if Rlt_dec r (1 / 2) then f
  else if Rlt_dec (1 / 2) r then f + 1
  else if Z.even f then f else f + 1.

(** [round(x, ndigits)] *)
Definition py_round (ndigits : nat) (x : R) : R :=
  (IZR (round_half_even (x * 10 ^ ndigits)) / 10 ^ ndigits)%R.

(** [math.log(x)]; [None] is the [ValueError] outside the domain. *)
Definition py_log (x : R) : option R :=
  if Rlt_dec 0 x then Some (ln x) else None.

(** [sum(l)] over floats. *)
Definition sum (l : list R) : R := foldl Rplus 0%R l.

End Float.

(* ===================================================================== *)
(** ** Shared/normalizer.py *)
(* ===================================================================== *)

Module Normalizer.
Import Text.

Definition p_char (cls : ascii -> bool) : pattern :=
  fun _ s => match s with
             | String c _ => if cls c then Some 1%nat else None
             | EmptyString => None
             end.

(** [[_\-\/]] *)
Definition is_separator (c : ascii) : bool :=
  Ascii.eqb c "_" || Ascii.eqb c "-" || Ascii.eqb c "/".

(** [normalize_text(text)] *)
Definition normalize_text (text : string) : string :=
  if negb (truthy text) then EmptyString
  else
    let text := strip (lower text) in
    let text :=
      replace_outside
        (fun c => is_word c || is_space c || Ascii.eqb c "."
                  || Ascii.eqb c "+" || Ascii.eqb c "#") " " text in
    collapse_ws text.

(** [normalize_skill_text2(text)] *)
Definition normalize_skill_text2 (text : string) : string :=
  if negb (truthy text) then EmptyString
  else
    let t := strip (lower text) in
    let t := sub (p_char (Ascii.eqb ".")) "" t in
    let t := sub (p_run is_separator) " " t in
    let t := sub (p_word "programming") "" t in
    let t := sub (p_word "language") "" t in
    let t := sub (p_word "framework") "" t in
    let t := sub (p_versioned "html" "5") "html" t in
    let t := sub (p_versioned "css" "3") "css" t in
    let t := sub (p_literal "c sharp") "c#" t in
    let t := sub (p_literal "csharp") "c#" t in
    strip (collapse_ws t).

(** [normalize_job_title(title)] *)
Definition normalize_job_title (title : string) : string :=
  if negb (truthy title) then EmptyString
  else
    let t := lower title in
    let t := sub (p_run is_separator) " " t in
    let t := sub (p_literal ".net") " dot net " t in
    let t := sub (p_literal "dotnet") " dot net " t in
    let t := sub (p_literal "asp.net") " asp net " t in
    let t := sub (p_char (fun c => negb (is_lower c || is_digit c || is_space c)))
               "" t in
    strip (collapse_ws t).

(** [[a-z0-9\+#\.]] *)
Definition is_token_char (c : ascii) : bool :=
  is_lower c || is_digit c || Ascii.eqb c "+" || Ascii.eqb c "#"
  || Ascii.eqb c ".".

(** [tokenize_text(text)] *)
Definition tokenize_text (text : string) : gset string :=
  list_to_set (findall (p_bounded_run is_token_char) (lower text)).

Definition COMPOSITE_SEPARATORS : list string :=
  ["/"; "\"; ","; " & "; " and "; "+"]%string.

(** [split_composite_skill(raw_skill)] *)
Definition split_composite_skill (raw_skill : string) : list string :=
  if negb (truthy raw_skill) then []
  else
    let text := strip (lower raw_skill) in
    let text := foldl (fun t sep => sub (p_literal sep) "|" t) text
                  COMPOSITE_SEPARATORS in
    let parts := map strip (split_on "|" text) in
    filter (fun p => negb (String.length p <? 2)%nat) parts.

Definition ROLE_TITLE_SKILL_MAP : list (string * list string) :=
  [ ("dot net developer", ["framework_dotnet"]);
    ("java developer", ["language_java"]);
    ("python developer", ["language_python"]);
    ("frontend developer", ["web_html"; "web_css"; "language_javascript"]);
    ("backend developer", []) ]%string.

(** The [DisambiguationRules] column as [passes_disambiguation] sees it
    after [json.loads]: absent or empty, not JSON, or an object whose two
    keys, when present, hold lists of strings. *)
Inductive rules_json :=
| RulesAbsent
| RulesMalformed
| RulesObject (block_if_contains allow_if_contains : option (list string)).

(** A [MasterSkills] row. [Aliases] and [Tokens] are the decoded JSON
    lists, [None] when the column is empty or does not decode (both make
    the loops [continue]). *)
Record master_skill := mk_master_skill {
  SkillID : Z;
  SkillName : string;
  SkillCode : string;
  SkillType : string;
  Category : string;
  ParentSkillId : option Z;
  Aliases : option (list string);
  Tokens : option (list string);
  DisambiguationRules : rules_json;
  SkillVector : list R;
}.

(** [f"{normalized} {context}".lower()] *)
Definition combined_text (normalized context : string) : string :=
  lower (normalized +:+ " " +:+ context).

(** [phrase.lower() in combined] *)
Definition occurs (combined phrase : string) : bool :=
  contains (lower phrase) combined.

(** [passes_disambiguation(skill, normalized, context)] *)
Definition passes_disambiguation (skill : master_skill)
    (normalized context : string) : bool :=
  match DisambiguationRules skill with
  | RulesAbsent => true
  | RulesMalformed => true
  | RulesObject block allow =>
      let combined := combined_text normalized context in
      if existsb (occurs combined) (default [] block) then false
      else
        match default [] allow with
        | [] => true
        | allow_list => existsb (occurs combined) allow_list
        end
  end.

(** An embedding; [cosine_similarity] as [Shared/vector.py] computes it
    (the vectors of one index have one dimension). *)
Definition embedding := list R.

Definition dot (a b : embedding) : R :=
  Float.sum (zip_with Rmult a b).

Definition cosine_similarity (a b : embedding) : R :=
  (dot a b / (sqrt (dot a a) * sqrt (dot b b)))%R.

(** An entry of the vector index: its decoded vector and the attribute
    [skill_ref] the matcher reads from the best entry, [None] when the
    entry has no such attribute (a plain row of [MasterSkills], as the
    callers in this repository pass). *)
Record vector_entry := mk_vector_entry {
  entry_embedding : embedding;
  skill_ref : option master_skill;
}.

(** The five-tuple [normalize_and_match_skill] returns. *)
Record match_result := mk_match_result {
  matched_id : option Z;
  matched_code : option string;
  matched_type : option string;
  confidence : R;
  method : string;
}.

Definition no_result (m : string) : match_result :=
  mk_match_result None None None 0%R m.

(** The end of every tier: disambiguation, then the tuple. *)
Definition accept (skill : master_skill) (normalized context : string)
    (conf : R) (m : string) : match_result :=
  if passes_disambiguation skill normalized context
  then mk_match_result (Some (SkillID skill)) (Some (SkillCode skill))
         (Some (SkillType skill)) conf m
  else no_result "disambiguation_blocked".

Definition canonical (raw : string) : string :=
  normalize_skill_text2 (normalize_text raw).

Definition exact_hit (normalized : string) (skill : master_skill) : bool :=
  String.eqb (canonical (SkillName skill)) normalized.

Definition alias_hit (normalized : string) (skill : master_skill) : bool :=
  match Aliases skill with
  | Some aliases =>
      existsb (fun alias => String.eqb (canonical alias) normalized) aliases
  | None => false
  end.

Definition rule_hit (normalized : string) (skill : master_skill) : bool :=
  match Tokens skill with
  | Some tokens =>
      let normalized_tokens := tokenize_text normalized in
      if existsb (fun tok => (String.length tok =? 1)%nat) tokens
         && (1 <? size normalized_tokens)%nat
      then false
      else forallb (fun tok => bool_decide (lower tok ∈ normalized_tokens))
             tokens
  | None => false
  end.

(** The scan of the vector tier: the first entry with the greatest
    cosine, when that cosine is positive. *)
Definition scan_step (query_vec : embedding)
    (best : option vector_entry * R) (entry : vector_entry)
    : option vector_entry * R :=
  let score := cosine_similarity query_vec (entry_embedding entry) in
  if Rgt_dec score (snd best) then (Some entry, score) else best.

Definition scan (query_vec : embedding) (vector_index : list vector_entry)
    : option vector_entry * R :=
  foldl (scan_step query_vec) (None, 0%R) vector_index.

(** The vector tier; [None] is the [AttributeError] of
    [best_skill.skill_ref]. *)
Definition vector_tier (normalized context : string)
    (vector_index : list vector_entry)
    (embed_fn : option (string -> embedding)) : option match_result :=
  match vector_index, embed_fn with
  | _ :: _, Some embed =>
      match scan (embed normalized) vector_index with
      | (Some best_skill, best_score) =>
          if Rge_dec best_score 0.92
          then
            skill ← skill_ref best_skill;
            Some (accept skill normalized context
                    (Float.py_round 3 best_score) "vector")
          else Some (no_result "no_match")
      | (None, _) => Some (no_result "no_match")
      end
  | _, _ => Some (no_result "no_match")
  end.

(** [normalize_and_match_skill(raw_name, master_skills, vector_index,
    embed_fn, context_text, allow_implicit)]; the last argument is not
    read by the source. *)
Definition normalize_and_match_skill (raw_name : string)
    (master_skills : list master_skill)
    (vector_index : list vector_entry)
    (embed_fn : option (string -> embedding))
    (context_text : string) (allow_implicit : bool) : option match_result :=
  let normalized := canonical raw_name in
  if negb (truthy normalized) then Some (no_result "empty")
  else
    let context := normalize_text context_text in
    match find (exact_hit normalized) master_skills with
    | Some skill => Some (accept skill normalized context 1 "exact")
    | None =>
    match find (alias_hit normalized) master_skills with
    | Some skill => Some (accept skill normalized context 0.95 "alias")
    | None =>
    match find (rule_hit normalized) master_skills with
    | Some skill => Some (accept skill normalized context 0.90 "rule")
    | None => vector_tier normalized context vector_index embed_fn
    end end end.

End Normalizer.

(* ===================================================================== *)
(** ** Shared/Schema/Dto.py *)
(* ===================================================================== *)

Module Dto.
Import Dates.

(** The dataclass fields of [SkillMetrics]: the state of one instance.
    [first_used] is a [datetime]; [last_used] holds the role's end date
    as the ["%Y-%m-%d"] text the profile carries, whose order as text is
    the order of the dates, and is kept here as the date. *)
Record SkillMetrics := mk_SkillMetrics {
  junior_months : Z;
  mid_months : Z;
  senior_months : Z;
  first_used : option datetime;
  last_used : option datetime;
  evidence_score : R;
  total_months : Z;
  confidence_scores : list R;
  match_confidence : R;
  evidence_sources : gset string;
  max_evidence_strength : Z;
  normalization_confidence : R;
  has_presence : bool;
}.

(** [SkillMetrics()] *)
Definition new_SkillMetrics : SkillMetrics :=
  mk_SkillMetrics 0 0 0 None None 0%R 0 [] 0%R ∅ 1 0%R false.

(** [confidence_sources = []] and [normalization_methods = []] carry no
    annotation, so [@dataclass] leaves them as attributes of the class:
    one list object each, for the life of the process. No instance ever
    gets an attribute of that name, so [acc["confidence_sources"]] is
    this list for every [acc]. *)
Record SkillMetrics_class := mk_SkillMetrics_class {
  confidence_sources : list string;
  normalization_methods : list string;
}.

(** The class as the module is imported. *)
Definition SkillMetrics_class_init : SkillMetrics_class :=
  mk_SkillMetrics_class [] [].

(** [acc["confidence_sources"]], that is [getattr(acc, "confidence_sources")]:
    the instance has no such attribute, so the lookup ends at the class. *)
Definition read_confidence_sources (cls : SkillMetrics_class)
    (acc : SkillMetrics) : list string :=
  confidence_sources cls.

End Dto.

(* ===================================================================== *)
(** ** Candidate/postprocessor.py: mentions and aggregation *)
(* ===================================================================== *)

Module Postprocessor.
Import Text Dates Normalizer Dto.

(** One item of [extracted_skills]; [skill_confidence] is [None] when the
    key is absent. *)
Record extracted_skill := mk_extracted_skill {
  raw_name : string;
  source : string;
  skill_confidence : option R;
}.

(** One mention as [get_job_skill_mentions] builds it. *)
Record mention := mk_mention {
  mention_raw_name : string;
  mention_source : string;
  mention_confidence : R;
  mention_context : string;
}.

(** [get_job_skill_mentions(job)], with [job["extracted_skills"]] and
    [job.get("responsibilities", "")]. *)
Definition get_job_skill_mentions (extracted_skills : list extracted_skill)
    (responsibilities : string) : list mention :=
  flat_map
    (fun s =>
       if String.eqb (source s) "implicit" then []
       else map (fun skl => mk_mention (strip skl) (source s)
                              (default 1%R (skill_confidence s))
                              responsibilities)
              (split_composite_skill (raw_name s)))
    extracted_skills.

Inductive level := junior | mid | senior.

(** [infer_level_from_title(title)] *)
Definition infer_level_from_title (title : string) : level :=
  let t := lower title in
  if existsb (fun x => contains x t) ["intern"; "trainee"]%string then junior
  else if existsb (fun x => contains x t) ["junior"; "associate"]%string
  then junior
  else if existsb (fun x => contains x t) ["senior"; "lead"; "principal"]%string
  then senior
  else mid.

(** A lookup in a literal [dict] of the source; [None] is the
    [KeyError]. *)
Definition SOURCE_EVIDENCE_WEIGHT (src : string) : option R :=
  if String.eqb src "skills_section" then Some 1%R
  else if String.eqb src "technology_list" then Some 0.9%R
  else if String.eqb src "responsibility" then Some 0.7%R
  else if String.eqb src "implicit" then Some 0%R
  else None.

Definition EVIDENCE_STRENGTH (src : string) : option Z :=
  if String.eqb src "responsibility" then Some 3
  else if String.eqb src "role_title" then Some 2
  else if String.eqb src "skills_section" then Some 1
  else None.

(** [max(EVIDENCE_STRENGTH[src] for src in sources)] *)
Definition max_strength (sources : gset string) : option Z :=
  strengths ← mapM EVIDENCE_STRENGTH (elements sources);
  match strengths with
  | [] => None
  | x :: xs => Some (foldl Z.max x xs)
  end.

(** [skill_map[code]] on a [defaultdict(SkillMetrics)], read only. *)
Definition lookup_acc (skill_map : gmap string SkillMetrics) (code : string)
    : SkillMetrics :=
  default new_SkillMetrics (skill_map !! code).

(** [acc[f"{level}_months"] += months] *)
Definition add_level_months (lv : level) (months : Z) (acc : SkillMetrics)
    : SkillMetrics :=
  match lv with
  | junior =>
      mk_SkillMetrics (junior_months acc + months) (mid_months acc)
        (senior_months acc) (first_used acc) (last_used acc)
        (evidence_score acc) (total_months acc) (confidence_scores acc)
        (match_confidence acc) (evidence_sources acc)
        (max_evidence_strength acc) (normalization_confidence acc)
        (has_presence acc)
  | mid =>
      mk_SkillMetrics (junior_months acc) (mid_months acc + months)
        (senior_months acc) (first_used acc) (last_used acc)
        (evidence_score acc) (total_months acc) (confidence_scores acc)
        (match_confidence acc) (evidence_sources acc)
        (max_evidence_strength acc) (normalization_confidence acc)
        (has_presence acc)
  | senior =>
      mk_SkillMetrics (junior_months acc) (mid_months acc)
        (senior_months acc + months) (first_used acc) (last_used acc)
        (evidence_score acc) (total_months acc) (confidence_scores acc)
        (match_confidence acc) (evidence_sources acc)
        (max_evidence_strength acc) (normalization_confidence acc)
        (has_presence acc)
  end.

(** The role-title credit on one accumulator. *)
Definition credit_title (acc : SkillMetrics) : SkillMetrics :=
  mk_SkillMetrics (junior_months acc) (mid_months acc) (senior_months acc)
    (first_used acc) (last_used acc) (evidence_score acc) (total_months acc)
    (confidence_scores acc) (match_confidence acc)
    ({[ "role_title"%string ]} ∪ evidence_sources acc)
    (max_evidence_strength acc) (normalization_confidence acc) true.

(** The loop over [ROLE_TITLE_SKILL_MAP]. *)
Definition credit_role_title (role_title : string)
    (skill_map : gmap string SkillMetrics) : gmap string SkillMetrics :=
  if truthy role_title then
    foldl (fun m kv =>
             if contains (fst kv) role_title
             then foldl (fun m code => <[code := credit_title (lookup_acc m code)]> m)
                    m (snd kv)
             else m)
      skill_map ROLE_TITLE_SKILL_MAP
  else skill_map.

(** The state the aggregation runs in: the accumulators of this
    candidate and the lists held by the class. *)
Abbreviation agg_state := (gmap string SkillMetrics * SkillMetrics_class)%type.

Section WithCollaborators.

(** [dateutil.parser.parse]; [None] when it raises. *)
Variable dparse : string -> option datetime.

Variable master_skills : list master_skill.
Variable vector_index : list vector_entry.
Variable embed_fn : option (string -> embedding).

(** The code a mention is attributed to: [None] when the matcher
    raises, [Some None] when the mention is dropped. *)
Definition mention_code (m : mention) : option (option string) :=
  r ← normalize_and_match_skill (mention_raw_name m) master_skills
         vector_index embed_fn (mention_context m) false;
  Some (match matched_code r with
        | Some code => if truthy code then Some code else None
        | None => None
        end).

(** One round of the loop over the mentions. [None] is an exception
    leaving [process_extracted_skills]. *)
Definition process_mention (lv : level) (months : Z)
    (start : option datetime) (end_ : datetime)
    (st : agg_state) (m : mention) : option agg_state :=
  r ← normalize_and_match_skill (mention_raw_name m) master_skills
         vector_index embed_fn (mention_context m) false;
  match matched_code r with
  | None => Some st
  | Some code =>
      if negb (truthy code) then Some st
      else
        let acc := add_level_months lv months (lookup_acc (fst st) code) in
        first ← match first_used acc with
                | None => Some start
                | Some f => s ← start; Some (Some (dt_min f s))
                end;
        let last := match last_used acc with
                    | None => end_
                    | Some l => dt_max l end_
                    end in
        evidence_weight ← SOURCE_EVIDENCE_WEIGHT (mention_source m);
        let sources := {[ mention_source m ]} ∪ evidence_sources acc in
        let presence := if String.eqb (mention_source m) "skills_section"
                        then true else has_presence acc in
        strength ← max_strength sources;
        let blended_confidence :=
          ((0.6 * mention_confidence m + 0.4 * confidence r)
           * evidence_weight)%R in
        let acc' :=
          mk_SkillMetrics (junior_months acc) (mid_months acc)
            (senior_months acc) first (Some last)
            (evidence_score acc + evidence_weight)%R (total_months acc)
            (confidence_scores acc ++ [blended_confidence])
            (match_confidence acc) sources strength
            (normalization_confidence acc) presence in
        Some (<[code := acc']> (fst st),
              mk_SkillMetrics_class
                (read_confidence_sources (snd st) acc ++ [method r])
                (normalization_methods (snd st)))
  end.

Fixpoint process_mentions (lv : level) (months : Z)
    (start : option datetime) (end_ : datetime)
    (st : agg_state) (mentions : list mention) : option agg_state :=
  match mentions with
  | [] => Some st
  | m :: rest =>
      st' ← process_mention lv months start end_ st m;
      process_mentions lv months start end_ st' rest
  end.

(** [if start and not isinstance(start, datetime): start =
    dparser.parse(start)] *)
Definition parse_start (start_raw : option string)
    : option (option datetime) :=
  match start_raw with
  | Some s => if truthy s then d ← dparse s; Some (Some d) else Some None
  | None => Some None
  end.

(** [process_extracted_skills(skill_mentions, master_skills,
    vector_index, embed_fn, skill_map, level, months, start, end,
    role_title)] *)
Definition process_extracted_skills (skill_mentions : list mention)
    (st : agg_state) (lv : level) (months : Z)
    (start_raw : option string) (end_ : datetime) (role_title : string)
    : option agg_state :=
  let skill_map := credit_role_title role_title (fst st) in
  start ← parse_start start_raw;
  process_mentions lv months start end_ (skill_map, snd st) skill_mentions.

End WithCollaborators.

End Postprocessor.

(* ===================================================================== *)
(** ** The [CandidateSkills] table *)
(* ===================================================================== *)

Module Store.
Import Dates.

(** A row of [CandidateSkills]. [LastUsedDate] and [FirstUsedDate] are
    nullable; [EvidenceSources] is the joined text of the set, kept as
    the set. *)
Record candidate_skill_row := mk_candidate_skill_row {
  CandidateID : Z;
  MasterSkillID : Z;
  ExperienceMonths : Z;
  LastUsedDate : option datetime;
  MatchConfidence : R;
  TotalMonths : Z;
  JuniorMonths : Z;
  MidMonths : Z;
  SeniorMonths : Z;
  FirstUsedDate : option datetime;
  EvidenceSources : gset string;
  EvidenceScore : R;
  NormalizationConfidence : R;
  NormalizationMethod : string;
  MaxEvidenceStrength : Z;
}.

End Store.

(* ===================================================================== *)
(** ** Candidate/postprocessor.py: the profile;
       Candidate/vectorizer.py: the sync *)
(* ===================================================================== *)

Module Vectorizer.
Import Text Dates Duration Normalizer Dto Postprocessor Store.

(** One raw role as [build_professional_profile] reads it. *)
Record raw_role := mk_raw_role {
  job_title : string;
  start_date_raw : option string;
  end_date_raw : option string;
  responsibilities : string;
  extracted_skills : list extracted_skill;
}.

(** The entry appended to [profile["candidate_roles"]]. [end_dt] is the
    value whose [strftime("%Y-%m-%d")] is stored under [end_date_raw].
    The technology lists of the entry are not read by the aggregation
    and are left out. *)
Record candidate_role := mk_candidate_role {
  title : string;
  verified_duration : Z;
  role_start_raw : option string;
  end_dt : datetime;
  role_mentions : list mention;
}.

Definition NORMALIZATION_PRIORITY (m : string) : Z :=
  if String.eqb m "exact" then 4
  else if String.eqb m "alias" then 3
  else if String.eqb m "rule" then 2
  else if String.eqb m "vector" then 1
  else 0.

(** [max(methods, key=..., default="unknown")]: the first method of the
    greatest priority. *)
Definition resolve_normalization_method (methods : list string) : string :=
  match methods with
  | [] => "unknown"%string
  | m :: rest =>
      foldl (fun best x =>
               if NORMALIZATION_PRIORITY best <? NORMALIZATION_PRIORITY x
               then x else best) m rest
  end.

(** [max(l, default=0.0)] *)
Definition max_default (l : list R) : R :=
  match l with
  | [] => 0%R
  | x :: xs => foldl (fun best y => if Rgt_dec y best then y else best) x xs
  end.

(** The loop that closes the sync: totals and mean confidence. *)
Definition finalize (acc : SkillMetrics) : SkillMetrics :=
  mk_SkillMetrics (junior_months acc) (mid_months acc) (senior_months acc)
    (first_used acc) (last_used acc) (evidence_score acc)
    (junior_months acc + mid_months acc + senior_months acc)
    (confidence_scores acc)
    (match confidence_scores acc with
     | [] => 0%R
     | l => (Float.sum l / INR (length l))%R
     end)
    (evidence_sources acc) (max_evidence_strength acc)
    (normalization_confidence acc) (has_presence acc).

(** [store_candidate_skill(candidate_id, skill_code, metrics, cursor)]:
    the row written, [None] when the code is not in [MasterSkills]. The
    method is resolved from [metrics.confidence_sources], the list of the
    class. *)
Definition store_candidate_skill (master_skills : list master_skill)
    (cls : SkillMetrics_class) (candidate_id : Z) (skill_code : string)
    (metrics : SkillMetrics) : option candidate_skill_row :=
  ms ← find (fun ms => String.eqb (SkillCode ms) skill_code) master_skills;
  Some (mk_candidate_skill_row candidate_id (SkillID ms)
          (total_months metrics) (last_used metrics)
          (match_confidence metrics) (total_months metrics)
          (junior_months metrics) (mid_months metrics)
          (senior_months metrics) (first_used metrics)
          (evidence_sources metrics) (evidence_score metrics)
          (max_default (confidence_scores metrics))
          (resolve_normalization_method (read_confidence_sources cls metrics))
          (max_evidence_strength metrics)).

Section WithCollaborators.

Variable dparse : string -> option datetime.

(** [Shared.embedder.get_embedding] *)
Variable get_embedding : string -> embedding.

(** One round of the loop of [build_professional_profile]:
    [calculate_duration] is called without [ref_date], and the end date
    is parsed a second time, outside any [try]. *)
Definition build_role (ref_date : string) (role : raw_role)
    : option candidate_role :=
  today ← strptime_ymd ref_date;
  duration ← calculate_duration dparse (start_date_raw role)
               (end_date_raw role) default_ref_date;
  e ← (if is_present (or_present (end_date_raw role)) then Some today
       else dparse (or_present (end_date_raw role)));
  Some (mk_candidate_role (job_title role) duration (start_date_raw role) e
          (get_job_skill_mentions (extracted_skills role)
             (responsibilities role))).

(** [build_professional_profile(raw_experience, ref_date)]: the list
    under ["candidate_roles"]. *)
Fixpoint build_professional_profile (raw_experience : list raw_role)
    (ref_date : string) : option (list candidate_role) :=
  match raw_experience with
  | [] => _ ← strptime_ymd ref_date; Some []
  | role :: rest =>
      r ← build_role ref_date role;
      rs ← build_professional_profile rest ref_date;
      Some (r :: rs)
  end.

(** The rows of the vector query: the vector of each master skill, and
    no [skill_ref]. *)
Definition vector_rows (master_skills : list master_skill)
    : list vector_entry :=
  map (fun ms => mk_vector_entry (SkillVector ms) None) master_skills.

(** [get_job_skill_mentions(role)] on an entry of the profile: its
    ["extracted_skills"] are the mentions built before, and it has no
    ["responsibilities"]. *)
Definition role_skill_mentions (role : candidate_role) : list mention :=
  get_job_skill_mentions
    (map (fun m => mk_extracted_skill (mention_raw_name m)
                     (mention_source m) (Some (mention_confidence m)))
       (role_mentions role))
    "".

(** The loop over the roles in [sync_profile_to_master]. *)
Fixpoint sync_roles (master_skills : list master_skill)
    (roles : list candidate_role) (st : agg_state) : option agg_state :=
  match roles with
  | [] => Some st
  | role :: rest =>
      let role_title := normalize_job_title (title role) in
      st' ← process_extracted_skills dparse master_skills
              (vector_rows master_skills) (Some get_embedding)
              (role_skill_mentions role) st
              (infer_level_from_title role_title)
              (verified_duration role) (role_start_raw role) (end_dt role)
              role_title;
      sync_roles master_skills rest st'
  end.

(** [sync_profile_to_master(profile, raw_experience, conn)]: the
    accumulators after the closing loop, the class as it is left, and
    the rows stored (a table has no order: they come in the order of the
    keys of the map). [cls] is the class as the call finds it. *)
Definition sync_profile_to_master (master_skills : list master_skill)
    (candidate_id : Z) (roles : list candidate_role)
    (cls : SkillMetrics_class)
    : option (gmap string SkillMetrics * SkillMetrics_class
              * list candidate_skill_row) :=
  match sync_roles master_skills roles (∅, cls) with
| Some st =>
    let skill_map : gmap string SkillMetrics := finalize <$> fst st in
    Some (skill_map, snd st,
          omap (fun kv => store_candidate_skill master_skills (snd st)
                            candidate_id (fst kv) (snd kv))
            (map_to_list skill_map))
| None => None
end.

End WithCollaborators.

End Vectorizer.

(* ===================================================================== *)
(** ** Employer/schemas/LLMResponse.py *)
(* ===================================================================== *)

Module Schema.

Inductive SeniorityLevel := Junior | Mid | Senior | Lead.
Inductive SkillSource := explicit | inferred.
Inductive RequirementLevel := hard | soft.
Inductive SkillTypeHint :=
  programming | framework | cloud | database | tool | platform | methodology
| other.
Inductive ExpectedEvidence := resume_skill | experience_role | project | implicit.

(** The [.value] of the enumerations that reach a query or a [dict]. *)
Definition seniority_value (l : SeniorityLevel) : string :=
  match l with
  | Junior => "Junior" | Mid => "Mid" | Senior => "Senior" | Lead => "Lead"
  end.

Definition hint_value (h : SkillTypeHint) : string :=
  match h with
  | programming => "programming" | framework => "framework"
  | cloud => "cloud" | database => "database" | tool => "tool"
  | platform => "platform" | methodology => "methodology" | other => "other"
  end.

Definition level_eqb (a b : RequirementLevel) : bool :=
  match a, b with
  | hard, hard | soft, soft => true
  | _, _ => false
  end.

Module SkillRequirement.
Record t := mk {
  raw_skill : string;
  source : SkillSource;
  requirement_level : RequirementLevel;
  skill_type_hint : SkillTypeHint;
  min_months : option Z;
  skill_group_id : option string;
  expected_evidence : ExpectedEvidence;
}.
End SkillRequirement.

Module CategoryRequirement.
Record t := mk {
  group_id : string;
  category : string;
  min_required : Z;
  example_skills : list string;
  requirement_level : RequirementLevel;
  source : SkillSource;
}.
End CategoryRequirement.

(** [Requirement = Union[SkillRequirement, CategoryRequirement]] *)
Inductive Requirement :=
| SkillReq (r : SkillRequirement.t)
| CategoryReq (r : CategoryRequirement.t).

(** [req.requirement_level] on either kind. *)
Definition requirement_level (req : Requirement) : RequirementLevel :=
  match req with
  | SkillReq r => SkillRequirement.requirement_level r
  | CategoryReq r => CategoryRequirement.requirement_level r
  end.

Record JobMetadata := mk_JobMetadata {
  primary_domain : string;
  seniority_level : SeniorityLevel;
}.

Record JobSkillProfile := mk_JobSkillProfile {
  role_context : string;
  job_metadata : JobMetadata;
  requirements : list Requirement;
}.

End Schema.

(* ===================================================================== *)
(** ** Employer/PostProcessor.py *)
(* ===================================================================== *)

Module JDPostProcessor.
Import Schema.

(** The body of the loop on a [SkillRequirement]. *)
Definition clean_skill (skill : SkillRequirement.t) : SkillRequirement.t :=
  let min_months :=
    match SkillRequirement.min_months skill with
    | None => Some 0
    | m => m
    end in
  let '(min_months, expected_evidence) :=
    match SkillRequirement.skill_type_hint skill with
    | methodology => (Some 0, implicit)
    | _ => (min_months, SkillRequirement.expected_evidence skill)
    end in
  let '(requirement_level, expected_evidence) :=
    match SkillRequirement.skill_type_hint skill,
          SkillRequirement.requirement_level skill with
    | tool, hard => (soft, project)
    | _, l => (l, expected_evidence)
    end in
  SkillRequirement.mk (SkillRequirement.raw_skill skill)
    (SkillRequirement.source skill) requirement_level
    (SkillRequirement.skill_type_hint skill) min_months
    (SkillRequirement.skill_group_id skill) expected_evidence.

(** The body of the loop on a [CategoryRequirement]. *)
Definition clean_category (req : CategoryRequirement.t) : CategoryRequirement.t :=
  CategoryRequirement.mk (CategoryRequirement.group_id req)
    (CategoryRequirement.category req)
    (if CategoryRequirement.min_required req <? 1 then 1
     else CategoryRequirement.min_required req)
    (CategoryRequirement.example_skills req)
    (CategoryRequirement.requirement_level req)
    (CategoryRequirement.source req).

Definition clean_requirement (req : Requirement) : Requirement :=
  match req with
  | CategoryReq r => CategoryReq (clean_category r)
  | SkillReq r => SkillReq (clean_skill r)
  end.

(** The loop: [cleaned_requirements.append] once per requirement. *)
Fixpoint clean_requirements (reqs : list Requirement) : list Requirement :=
  match reqs with
  | [] => []
  | req :: rest => clean_requirement req :: clean_requirements rest
  end.

(** [post_process_jd_profile(jd)]; it works on a [deepcopy]. *)
Definition post_process_jd_profile (jd : JobSkillProfile) : JobSkillProfile :=
  mk_JobSkillProfile (role_context jd) (job_metadata jd)
    (clean_requirements (requirements jd)).

End JDPostProcessor.

(* ===================================================================== *)
(** ** Employer/MatchingEngine.py *)
(* ===================================================================== *)

Module Engine.
Import Text Dates Normalizer Store Schema.

(** A row of [RoleSkillTypeWeights]. *)
Record role_weight_row := mk_role_weight_row {
  PrimaryDomain : string;
  SeniorityLevelName : string;
  WeightSkillType : string;
  WeightMultiplier : R;
}.

(** The tables behind [self.cursor]. *)
Record database := mk_database {
  MasterSkills : list master_skill;
  SkillImplications : list (string * string);
  CandidateSkills : list candidate_skill_row;
  RoleSkillTypeWeights : list role_weight_row;
  Candidates : list (Z * string);
}.

(** [SENIORITY_THRESHOLDS[seniority]]: total, mid and senior months. *)
Definition SENIORITY_THRESHOLDS (l : SeniorityLevel) : Z * Z * Z :=
  match l with
  | Junior => (6, 0, 0)
  | Mid => (18, 12, 0)
  | Senior => (36, 24, 12)
  | Lead => (60, 36, 24)
  end.

Definition min_mid_months (l : SeniorityLevel) : Z := snd (fst (SENIORITY_THRESHOLDS l)).
Definition min_senior_months (l : SeniorityLevel) : Z := snd (SENIORITY_THRESHOLDS l).

Definition RECENCY_MONTHS_LIMIT : Z := 36.

(** [_get_required_evidence_strength(requirement_level)] *)
Definition _get_required_evidence_strength (l : RequirementLevel) : Z :=
  match l with hard => 2 | soft => 1 end.

(** A row of the join of [CandidateSkills] and [MasterSkills] that
    [_score_candidate] loads. *)
Record skill_row := mk_skill_row {
  row_cs : candidate_skill_row;
  row_ms : master_skill;
}.

(** One object of the [breakdown] list. *)
Record breakdown_item := mk_breakdown_item {
  b_weight : R;
  b_skill : string;
  b_type : string;
  b_matched : bool;
  b_months : Z;
  b_last_used_date : option datetime;
  b_score : R;
  b_recency_score : R;
  b_competency_score : R;
  b_match_type : string;
  b_reason : string;
}.

(** One object of ["skill_breakdown"]. *)
Record skill_breakdown_item := mk_skill_breakdown_item {
  skill_name : string;
  match_type : string;
  item_type : string;
  last_used_date : option datetime;
  weight : R;
  experience_months : Z;
  recency_score : R;
  competency_score : R;
  contribution_to_total : R;
}.

(** One object of ["results"]. *)
Record ranked_result := mk_ranked_result {
  name : string;
  candidate_id : Z;
  score : R;
  matches : list string;
  confidence_label : string;
  skill_breakdown : list skill_breakdown_item;
  total_jd_skills : Z;
  matched_skill_count : Z;
  unmatched_skill_count : Z;
}.

(** [l.sort(key=lambda x: x["score"], reverse=True)]: the sort is stable,
    so the result is the one of inserting from the right, each element
    before the first one whose score is not greater. *)
Fixpoint insert_by_score (x : ranked_result) (l : list ranked_result)
    : list ranked_result :=
  match l with
  | [] => [x]
  | y :: ys =>
      if Rlt_dec (score x) (score y) then y :: insert_by_score x ys
      else x :: y :: ys
  end.

Fixpoint sort_by_score (l : list ranked_result) : list ranked_result :=
  match l with
  | [] => []
  | x :: xs => insert_by_score x (sort_by_score xs)
  end.

(** [l[:limit]] *)
Definition slice_to {A} (limit : Z) (l : list A) : list A :=
  if 0 <=? limit then firstn (Z.to_nat limit) l
  else firstn (length l - Z.to_nat (- limit)) l.

Section WithConnection.

(** The tables, the embedding model behind [get_embedding_cached], the
    value of [date.today()], and the order in which a [set] of candidate
    ids is iterated. *)
Variable db : database.
Variable get_embedding : string -> embedding.
Variable today : datetime.
Variable set_iter : gset Z -> list Z.

Definition master_skill_list : list master_skill := MasterSkills db.

(** The second query of [__init__]: rows with a vector and no
    [skill_ref]. *)
Definition vector_index : list vector_entry :=
  map (fun ms => mk_vector_entry (SkillVector ms) None) (MasterSkills db).

(** The matcher as both the gate and the scorer call it. *)
Definition match_requirement (jd : JobSkillProfile) (r : SkillRequirement.t)
    : option match_result :=
  normalize_and_match_skill (SkillRequirement.raw_skill r) master_skill_list
    vector_index (Some get_embedding) (role_context jd) false.

(** The recursive member of the [SkillTree] query: the skills whose parent
    is in the last level. *)
Definition children (level : list Z) : list Z :=
  flat_map
    (fun parent =>
       map SkillID
         (filter (fun ms => bool_decide (ParentSkillId ms = Some parent))
            (MasterSkills db)))
    level.

(** The levels of the recursive query; [None] when the recursion limit of
    the server is exhausted. *)
Fixpoint skill_tree (fuel : nat) (level : list Z) : option (list Z) :=
  match level with
  | [] => Some []
  | _ =>
      match fuel with
      | O => None
      | S k => rest ← skill_tree k (children level); Some (level ++ rest)
      end
  end.

(** [_resolve_skill_tree(root_skill_code)] *)
Definition _resolve_skill_tree (root_skill_code : string) : option (gset Z) :=
  ids ← skill_tree 101
         (map SkillID
            (filter (fun ms => String.eqb (SkillCode ms) root_skill_code)
               (MasterSkills db)));
  Some (list_to_set ids).

(** [_resolve_implied_skills(skill_code)] *)
Definition _resolve_implied_skills (skill_code : string) : gset Z :=
  list_to_set
    (flat_map
       (fun si =>
          if String.eqb (fst si) skill_code
          then map SkillID
                 (filter (fun ms => String.eqb (SkillCode ms) (snd si))
                    (MasterSkills db))
          else [])
       (SkillImplications db)).

(** [cs.LastUsedDate >= recency_cutoff], with
    [recency_cutoff = date.today() - timedelta(days=RECENCY_MONTHS_LIMIT * 30)];
    a [NULL] date fails the comparison. *)
Definition recent (cs : candidate_skill_row) : bool :=
  match LastUsedDate cs with
  | Some d => toordinal today - RECENCY_MONTHS_LIMIT * 30 <=? toordinal d
  | None => false
  end.

(** The seniority and recency conditions both queries share. *)
Definition seniority_ok (l : SeniorityLevel) (cs : candidate_skill_row) : bool :=
  (min_mid_months l <=? MidMonths cs)
  && (min_senior_months l <=? SeniorMonths cs)
  && recent cs.

(** The query of CASE 1; a [NULL] [min_months] makes its comparison
    unknown. *)
Definition skill_query (acceptable_skill_ids : gset Z) (min_months : option Z)
    (required_strength : Z) (l : SeniorityLevel) : gset Z :=
  list_to_set
    (map CandidateID
       (filter
          (fun cs =>
             bool_decide (MasterSkillID cs ∈ acceptable_skill_ids)
             && (match min_months with
                 | Some m => m <=? TotalMonths cs
                 | None => false
                 end
                 || (required_strength <=? MaxEvidenceStrength cs))
             && seniority_ok l cs)
          (CandidateSkills db))).

(** The rows of CASE 2 before the grouping. *)
Definition category_rows (category : string) (required_strength : Z)
    (l : SeniorityLevel) : list candidate_skill_row :=
  filter
    (fun cs =>
       existsb (fun ms => (SkillID ms =? MasterSkillID cs)
                          && String.eqb (Category ms) category)
         (MasterSkills db)
       && ((0 <? TotalMonths cs) || (required_strength <=? MaxEvidenceStrength cs))
       && seniority_ok l cs)
    (CandidateSkills db).

(** [COUNT(DISTINCT cs.MasterSkillID)] of one candidate. *)
Definition distinct_skills (rows : list candidate_skill_row) (c : Z) : Z :=
  Z.of_nat
    (size (list_to_set
             (map MasterSkillID (filter (fun cs => CandidateID cs =? c) rows))
           : gset Z)).

(** The query of CASE 2. *)
Definition category_query (category : string) (min_required : Z)
    (required_strength : Z) (l : SeniorityLevel) : gset Z :=
  let rows := category_rows category required_strength l in
  list_to_set
    (filter (fun c => min_required <=? distinct_skills rows c)
       (map CandidateID rows)).

(** The candidates of one hard requirement: [None] is an exception,
    [Some None] the [continue] of an unresolved skill. *)
Definition requirement_candidates (jd : JobSkillProfile) (req : Requirement)
    : option (option (gset Z)) :=
  let l := seniority_level (job_metadata jd) in
  let required_strength :=
    _get_required_evidence_strength (requirement_level req) in
  match req with
  | SkillReq r =>
      m ← match_requirement jd r;
      match matched_id m, matched_code m with
      | Some skill_id, Some skill_code =>
          if skill_id =? 0 then Some None
          else
            tree ← _resolve_skill_tree skill_code;
            let acceptable_skill_ids := tree ∪ _resolve_implied_skills skill_code in
            Some (Some (skill_query acceptable_skill_ids
                          (SkillRequirement.min_months r) required_strength l))
      | _, _ => Some None
      end
  | CategoryReq r =>
      Some (Some (category_query (CategoryRequirement.category r)
                    (CategoryRequirement.min_required r) required_strength l))
  end.

(** The loop of [get_eligible_candidates] from a given place;
    [eligible_candidates] is [None] until the first resolved requirement. *)
Fixpoint gate_loop (jd : JobSkillProfile) (reqs : list Requirement)
    (eligible_candidates : option (gset Z)) : option (gset Z) :=
  match reqs with
  | [] => Some (default ∅ eligible_candidates)
  | req :: rest =>
      found ← requirement_candidates jd req;
      match found with
      | None => gate_loop jd rest eligible_candidates
      | Some candidate_ids =>
          let eligible :=
            match eligible_candidates with
            | None => candidate_ids
            | Some e => e ∩ candidate_ids
            end in
          if decide (eligible = ∅) then Some ∅
          else gate_loop jd rest (Some eligible)
      end
  end.

Definition is_hard (req : Requirement) : bool :=
  level_eqb (requirement_level req) hard.

(** [get_eligible_candidates(jd_data)] *)
Definition get_eligible_candidates (jd : JobSkillProfile) : option (gset Z) :=
  let hard_requirements := filter is_hard (requirements jd) in
  match hard_requirements with
  | [] => Some ∅
  | _ => gate_loop jd hard_requirements None
  end.

(** The [dict] built from the weight query: the last row of a skill type
    wins. *)
Definition skill_type_weights (jd : JobSkillProfile) : gmap string R :=
  foldl (fun (m : gmap string R) row => <[WeightSkillType row := WeightMultiplier row]> m)
    ∅
    (filter
       (fun row =>
          String.eqb (PrimaryDomain row) (primary_domain (job_metadata jd))
          && (String.eqb (SeniorityLevelName row)
                (seniority_value (seniority_level (job_metadata jd)))
              || String.eqb (SeniorityLevelName row) "any"))
       (RoleSkillTypeWeights db)).

Definition jd_weight (req : Requirement) : R :=
  match requirement_level req with hard => 1%R | soft => 0.4%R end.

(** [skill_type_weights.get(hint, 1.0)], with ["framework"] for a
    [CategoryRequirement]. *)
Definition skill_weight (jd : JobSkillProfile) (req : Requirement) : R :=
  let key := match req with
             | SkillReq r => hint_value (SkillRequirement.skill_type_hint r)
             | CategoryReq _ => "framework"%string
             end in
  default 1%R (skill_type_weights jd !! key).

Definition composite_weight (jd : JobSkillProfile) (req : Requirement) : R :=
  (jd_weight req * skill_weight jd req)%R.

(** [calculate_max_possible_score(jd_profile)] *)
Definition calculate_max_possible_score (jd : JobSkillProfile) : R :=
  Float.py_round 4
    (foldl (fun max_score req => (max_score + composite_weight jd req)%R) 0%R
       (requirements jd)).

(** The recency step of the score. *)
Definition recency_factor (months_since : R) : R :=
  if Rle_dec months_since 12 then 1%R
  else if Rle_dec months_since 36 then 0.8%R
  else if Rle_dec months_since 60 then 0.6%R
  else 0.3%R.

(** [(date.today() - last_used).days / 30] *)
Definition months_since (last_used : datetime) : R :=
  (IZR (toordinal today - toordinal last_used) / 30)%R.

Definition evidence_factor (cs : candidate_skill_row) : R :=
  Rmin (IZR (MaxEvidenceStrength cs) / 3) 1.

Definition norm_penalty (cs : candidate_skill_row) : R :=
  if String.eqb (NormalizationMethod cs) "vector" then 0.85%R else 1%R.

(** [self.current_date = datetime(2018, 1, 9)] *)
Definition current_date : datetime := mk_datetime 2018 1 9 0.

(** [calculate_competency_score(months, last_used, weight)]: the
    competency and the final score. *)
Definition calculate_competency_score (months : Z) (last_used : datetime)
    (w : R) : R * R :=
  let depth := Rmin 1 (IZR months / 36) in
  let gap_months := (year current_date - year last_used) * 12
                    + (month current_date - month last_used) in
  let recency := if gap_months <? 12 then 1%R
                 else if gap_months <? 48 then 0.6%R else 0.25%R in
  let competency := (depth * recency)%R in
  (competency, (competency * w)%R).

(** The rows [_score_candidate] loads for one candidate. *)
Definition candidate_rows (candidate : Z) : list skill_row :=
  flat_map
    (fun cs =>
       if CandidateID cs =? candidate
       then map (mk_skill_row cs)
              (filter (fun ms => SkillID ms =? MasterSkillID cs) (MasterSkills db))
       else [])
    (CandidateSkills db).

(** [by_skill]: the last row of a code wins. *)
Definition by_skill (rows : list skill_row) : gmap string skill_row :=
  foldl (fun (m : gmap string skill_row) r => <[SkillCode (row_ms r) := r]> m) ∅ rows.

(** [by_category.get(category, [])] *)
Definition by_category (rows : list skill_row) (category : string)
    : list skill_row :=
  filter (fun r => String.eqb (Category (row_ms r)) category) rows.

(** [max(matches, key=lambda r: (r["TotalMonths"], r["MaxEvidenceStrength"]))]:
    the first row with the greatest pair. *)
Definition pair_ltb (a b : candidate_skill_row) : bool :=
  (TotalMonths a <? TotalMonths b)
  || ((TotalMonths a =? TotalMonths b)
      && (MaxEvidenceStrength a <? MaxEvidenceStrength b)).

Definition best_row (first : skill_row) (rest : list skill_row) : skill_row :=
  foldl (fun best r => if pair_ltb (row_cs best) (row_cs r) then r else best)
    first rest.

Definition unmatched (jd : JobSkillProfile) (req : Requirement)
    (label kind reason : string) : breakdown_item :=
  mk_breakdown_item (composite_weight jd req) label kind false 0 None 0%R 0%R
    0%R "Unmatched" reason.

(** The contribution of a requirement met by the row [cs]: [None] when
    [math.log] or the date subtraction raises. [ratio] is the argument of
    the logarithm less one. *)
Definition contribution (jd : JobSkillProfile) (req : Requirement)
    (cs : candidate_skill_row) (ratio : R) : option (R * R * R) :=
  x ← Float.py_log (1 + ratio);
  last_used ← LastUsedDate cs;
  let exp_factor := Rmin 1 x in
  let recency := recency_factor (months_since last_used) in
  let evidence := evidence_factor cs in
  Some ((jd_weight req * skill_weight jd req * exp_factor * recency * evidence
         * norm_penalty cs)%R, recency, evidence).

(** One round of the loop over the requirements: the score added and the
    breakdown object appended. *)
Definition score_requirement (jd : JobSkillProfile) (rows : list skill_row)
    (req : Requirement) : option (R * breakdown_item) :=
  match req with
  | SkillReq r =>
      m ← match_requirement jd r;
      match matched_code m ≫= (fun code => by_skill rows !! code) with
      | None =>
          Some (0%R, unmatched jd req (SkillRequirement.raw_skill r) "Skill"
                       "Skill not present on candidate profile")
      | Some row =>
          let cs := row_cs row in
          min_months ← SkillRequirement.min_months r;
          '(final, recency, evidence) ←
            contribution jd req cs
              (IZR (TotalMonths cs) / IZR (Z.max min_months 1));
          last_used ← LastUsedDate cs;
          let c_score := calculate_competency_score (TotalMonths cs) last_used
                           (composite_weight jd req) in
          Some (final,
                mk_breakdown_item (composite_weight jd req)
                  (SkillRequirement.raw_skill r) "Skill" true (TotalMonths cs)
                  (Some last_used) (Float.py_round 2 (snd c_score))
                  (Float.py_round 1 (recency * 100))
                  (Float.py_round 1 (fst c_score))
                  (if Rge_dec evidence 1 then "Verified" else "Inferred")
                  ("Matched via " +:+ default "" (matched_code m)))
      end
  | CategoryReq r =>
      match by_category rows (CategoryRequirement.category r) with
      | [] =>
          Some (0%R, unmatched jd req (CategoryRequirement.category r)
                       "Category" "No skills in required category")
      | first :: rest =>
          let best := best_row first rest in
          let cs := row_cs best in
          '(final, recency, evidence) ←
            contribution jd req cs (IZR (TotalMonths cs));
          last_used ← LastUsedDate cs;
          let c_score := calculate_competency_score (TotalMonths cs) last_used
                           (composite_weight jd req) in
          Some (final,
                mk_breakdown_item (composite_weight jd req)
                  (CategoryRequirement.category r) "Category" true
                  (TotalMonths cs) (Some last_used) (snd c_score)
                  (Float.py_round 1 (recency * 100))
                  (Float.py_round 0
                     (if Rlt_dec (fst c_score) 1 then fst c_score * 100 else 100))
                  (if Rge_dec evidence 1 then "Verified" else "Inferred")
                  ("Matched via " +:+ SkillCode (row_ms best) +:+ " ("
                   +:+ CategoryRequirement.category r +:+ ")"))
      end
  end.

(** The loop over [jd_profile.requirements]: [total_score] and
    [breakdown]. *)
Fixpoint score_requirements (jd : JobSkillProfile) (rows : list skill_row)
    (reqs : list Requirement) (total_score : R) (breakdown : list breakdown_item)
    : option (R * list breakdown_item) :=
  match reqs with
  | [] => Some (total_score, breakdown)
  | req :: rest =>
      '(final, item) ← score_requirement jd rows req;
      score_requirements jd rows rest (total_score + final)%R (breakdown ++ [item])
  end.

(** [_score_candidate(candidate_id, jd_profile, max_score)] *)
Definition _score_candidate (candidate : Z) (jd : JobSkillProfile)
    (max_score : R) : option (R * list breakdown_item) :=
  '(total_score, breakdown) ←
    score_requirements jd (candidate_rows candidate) (requirements jd) 0%R [];
  let normalized :=
    ((if Req_dec_T max_score 0 then 0 else total_score / max_score) * 100)%R in
  Some (Float.py_round 4 normalized, breakdown).

(** The object appended to [ranked_results] for one candidate; [None]
    also when the candidate has no row in [Candidates]. *)
Definition rank_one (jd : JobSkillProfile) (max_score : R) (candidate : Z)
    : option ranked_result :=
  '(score, breakdown) ← _score_candidate candidate jd max_score;
  full_name ← snd <$> find (fun row => fst row =? candidate) (Candidates db);
  Some (mk_ranked_result full_name candidate (Float.py_round 4 score)
          (map (fun item =>
                  b_skill item +:+ " "
                  +:+ (if contains "explicitly" (b_reason item)
                       then "(verified)" else "(inferred)"))
             breakdown)
          "Strong Match"
          (map (fun itm =>
                  mk_skill_breakdown_item (b_skill itm) (b_match_type itm)
                    (b_type itm) (b_last_used_date itm) (b_weight itm)
                    (b_months itm) (b_recency_score itm)
                    (if Rlt_dec 1 (b_competency_score itm) then 100
                     else b_competency_score itm * 100)%R
                    (if Req_dec_T max_score 0 then 0
                     else b_score itm * 100 / max_score)%R)
             breakdown)
          (Z.of_nat (length (requirements jd)))
          (Z.of_nat (length breakdown)) 0).

(** [rank_candidates(jd_text, limit)] from the parsed and post-processed
    profile on: the list under ["results"]. *)
Definition rank_candidates (jd : JobSkillProfile) (limit : Z)
    : option (list ranked_result) :=
  eligible_candidate_ids ← get_eligible_candidates jd;
  if decide (eligible_candidate_ids = ∅) then Some []
  else
    let max_score := calculate_max_possible_score jd in
    ranked_results ← mapM (rank_one jd max_score) (set_iter eligible_candidate_ids);
    Some (slice_to limit (sort_by_score ranked_results)).

End WithConnection.

End Engine.

(* ===================================================================== *)
(** ** Shared/normalizer.py: the first normaliser *)
(* ===================================================================== *)

Module SkillText.
Import Text.

(** [REWRITE_RULES], in the order of the [dict]. *)
Definition REWRITE_RULES : list (string * string) :=
  [ (".net", "dotnet");
    ("asp.net", "asp dotnet");
    ("node.js", "node js");
    ("nodejs", "node js");
    ("knockout.js", "knockout js");
    ("react.js", "react js");
    ("vue.js", "vue js");
    ("next.js", "next js");
    ("nuxt.js", "nuxt js");
    ("c sharp", "c#");
    ("c plus plus", "c++");
    ("javascript", "javascript");
    ("jscript", "javascript") ]%string.

(** The loop over the rules: [text = text.replace(src, target)]. *)
Definition rewrite (text : string) : string :=
  foldl (fun t rule => sub (p_literal (fst rule)) (snd rule) t) text
    REWRITE_RULES.

(** [CAMEL_CASE_PATTERN.sub(' ', text)], the pattern being
    [(?<!^)(?=[A-Z])]: a space before every capital that is not the first
    character. *)
Fixpoint split_camel_from (at_start : bool) (s : string) : string :=
  match s with
  | EmptyString => EmptyString
  | String c r =>
      if negb at_start && is_upper c
      then String " " (String c (split_camel_from false r))
      else String c (split_camel_from false r)
  end.

Definition split_camel (s : string) : string := split_camel_from true s.

(** [[\w\s\+#]], the class [PUNCTUATION_PATTERN] keeps. *)
Definition is_kept (c : ascii) : bool :=
  is_word c || is_space c || Ascii.eqb c "+" || Ascii.eqb c "#".

(** [normalize_skill_text(text)] *)
Definition normalize_skill_text (text : string) : string :=
  if negb (truthy text) then EmptyString
  else
    let text := strip text in
    let text := lower text in
    let text := rewrite text in
    let text := split_camel text in
    let text := replace_outside is_kept " " text in
    strip (collapse_ws text).

(** [is_single_char_token(tok)] *)
Definition is_single_char_token (tok : string) : bool :=
  (String.length tok =? 1)%nat.

(** [tokenize_skill(text)] *)
Definition tokenize_skill (text : string) : list string :=
  split_on " " (normalize_skill_text text).

End SkillText.

(* ===================================================================== *)
(** ** Shared/vector.py: the search *)
(* ===================================================================== *)

Module Vector.
Import Normalizer.

(** [vector_search(query_text, vector_index, embed_fn)]: the loop is the
    one of the vector tier of the matcher. *)
Definition vector_search (query_text : string)
    (vector_index : list vector_entry) (embed_fn : string -> embedding)
    : option vector_entry * R :=
  let query_embedding := embed_fn query_text in
  foldl (fun (best : option vector_entry * R) entry =>
           let score := cosine_similarity query_embedding (entry_embedding entry) in
           if Rgt_dec score (snd best) then (Some entry, score) else best)
    (None, 0%R) vector_index.

End Vector.

(* ===================================================================== *)
(** ** Candidate/postprocessor.py: [flatten_leaf_values] *)
(* ===================================================================== *)

Module Leaves.

#[local] Set Warnings "-register-all".

(** The values [flatten_leaf_values] can meet in decoded JSON. *)
Inductive py_value :=
| PyNone
| PyBool (b : bool)
| PyInt (n : Z)
| PyFloat (x : R)
| PyStr (s : string)
| PyList (items : list py_value)
| PyDict (entries : list (string * py_value)).

(** The characters of a [str], each as the [str] the iteration yields. *)
Fixpoint characters (s : string) : list py_value :=
  match s with
  | EmptyString => []
  | String c r => PyStr (String c EmptyString) :: characters r
  end.

(** [flatten_leaf_values(data)] within [depth] nested calls; [None] is
    the [RecursionError] of a call that would go deeper. A [str] is an
    [Iterable], and so is each of its characters. *)
Fixpoint flatten_leaf_values (depth : nat) (data : py_value)
    : option (list py_value) :=
  match depth with
  | O => None
  | S d =>
      match data with
      | PyDict entries =>
          found ← mapM (fun kv => flatten_leaf_values d (snd kv)) entries;
          Some (concat found)
      | PyList items =>
          found ← mapM (flatten_leaf_values d) items; Some (concat found)
      | PyStr s =>
          found ← mapM (flatten_leaf_values d) (characters s);
          Some (concat found)
      | _ => Some [data]
      end
  end.

End Leaves.

(* ===================================================================== *)
(** ** Employer/schemas/LLMResponse.py: the validators *)
(* ===================================================================== *)

Module Validators.
Import Text Schema.

(** [SkillRequirement.default_min_months(v)] *)
Definition default_min_months (v : option Z) : Z := default 0 v.

(** [SkillRequirement.normalize_raw_skill(v)] *)
Definition normalize_raw_skill (v : string) : string := strip v.

(** [SkillRequirement.empty_string_to_none(v)] *)
Definition empty_string_to_none (v : option string) : option string :=
  match v with
  | Some EmptyString => None
  | _ => v
  end.

(** [CategoryRequirement.normalize_examples(v)]; [None] is a missing or
    null value. *)
Definition normalize_examples (v : option (list string)) : list string :=
  match v with
  | None | Some [] => []
  | Some l => map strip (filter (fun s => truthy (strip s)) l)
  end.

(** [JobSkillProfile.ensure_at_least_one_hard_requirement(v)]; [None] is
    the [ValueError]. *)
Definition ensure_at_least_one_hard_requirement (v : list Requirement)
    : option (list Requirement) :=
  if existsb (fun r => level_eqb (requirement_level r) hard) v then Some v
  else None.

End Validators.

(* ===================================================================== *)
(** ** Employer/MatchingEngine.py: the helpers beside the scorer *)
(* ===================================================================== *)

Module EngineHelpers.

(** [experience_factor(total_months, min_months)]; [None] is the
    [ValueError] of [math.log]. *)
Definition experience_factor (total_months min_months : Z) : option R :=
  x ← Float.py_log (1 + IZR total_months / IZR (Z.max min_months 1));
  Some (Rmin 1 x).

(** [confidence(score)] *)
Definition confidence (score : R) : string :=
  if Rge_dec score 80 then "Strong Match"
  else if Rge_dec score 60 then "Good Match"
  else if Rge_dec score 40 then "Partial Match"
  else "Weak Match".

End EngineHelpers.

(* ===================================================================== *)
(** ** A small taxonomy and store, for the runs quoted below *)
(* ===================================================================== *)

Module Fixture.
Import Dates Normalizer Store Schema Engine.

Definition java : master_skill :=
  mk_master_skill 1 "Java" "language_java" "programming" "Programming Language"
    None None None (RulesObject (Some ["javascript"%string]) None) [].

Definition python : master_skill :=
  mk_master_skill 2 "Python" "language_python" "programming"
    "Programming Language" None None None RulesAbsent [].

Definition javascript : master_skill :=
  mk_master_skill 3 "JavaScript" "language_javascript" "programming"
    "Programming Language" None (Some ["JS"%string]) None RulesAbsent [].

Definition react : master_skill :=
  mk_master_skill 4 "React" "framework_react" "framework" "Frontend Framework"
    None (Some ["ReactJS"%string]) (Some ["react"%string]) RulesAbsent [].

Definition masters : list master_skill := [java; python; javascript; react].

(** A [CandidateSkills] row of Python experience, all of it at one level,
    seen in a responsibility and matched exactly. *)
Definition python_row (candidate junior_m mid_m : Z) (last : datetime)
    : candidate_skill_row :=
  mk_candidate_skill_row candidate 2 (junior_m + mid_m) (Some last) 0.7
    (junior_m + mid_m) junior_m mid_m 0 None {[ "responsibility"%string ]} 0.7
    0.7 "exact" 3.

Definition the_day : datetime := mk_datetime 2024 6 1 0.

(** Two candidates with 24 and 36 months of Python. *)
Definition db_two : database :=
  mk_database masters []
    [ python_row 1 0 24 (mk_datetime 2024 5 1 0);
      python_row 2 0 36 (mk_datetime 2024 5 1 0) ]
    [] [ (1, "Asha"%string); (2, "Bo"%string) ].


Definition requires (raw : string) (level : RequirementLevel)
    (hint : SkillTypeHint) (months : Z) : Requirement :=
  SkillReq (SkillRequirement.mk raw explicit level hint (Some months) None
              resume_skill).

(** A junior role that asks for 12 months of Python. *)
Definition jd_python : JobSkillProfile :=
  mk_JobSkillProfile "Junior backend developer"
    (mk_JobMetadata "Backend" Junior)
    [ requires "Python" hard programming 12 ].

(** The same with a hard requirement nothing in the taxonomy answers to,
    and a soft one. *)
Definition jd_python_cobol : JobSkillProfile :=
  mk_JobSkillProfile "Junior backend developer"
    (mk_JobMetadata "Backend" Junior)
    [ requires "Cobol" hard programming 12;
      requires "Python" hard programming 12;
      requires "React" soft framework 0 ].

(** The embedding model of the runs: every text goes to the empty
    vector. *)
Definition no_embedding (text : string) : embedding := [].

(** A [set] of small candidate ids is iterated in ascending order. *)
Definition ascending (s : gset Z) : list Z := merge_sort Z.le (elements s).

End Fixture.

(* ===================================================================== *)
(** ** Profiles for the runs of the ingestion *)
(* ===================================================================== *)

Module ResumeFixture.
Import Dates Normalizer Dto Postprocessor Vectorizer.

(** Two years as a senior Java developer, Java in the skills section. *)
Definition raw_java_role : raw_role :=
  mk_raw_role "Senior Java Developer" (Some "2022-01-01"%string)
    (Some "2024-01-01"%string) ""
    [ mk_extracted_skill "Java" "skills_section" (Some 1%R) ].

Definition java_role : candidate_role :=
  mk_candidate_role "Senior Java Developer" 24 (Some "2022-01-01"%string)
    (mk_datetime 2024 1 1 0)
    [ mk_mention "java" "skills_section" 1 "" ].

(** A role whose end date lies before its start date. *)
Definition raw_backwards_role : raw_role :=
  mk_raw_role "Backend Engineer" (Some "2024-05-01"%string)
    (Some "2020-01-01"%string) ""
    [ mk_extracted_skill "Python" "skills_section" (Some 1%R) ].

Definition backwards_role : candidate_role :=
  mk_candidate_role "Backend Engineer" (-52) (Some "2024-05-01"%string)
    (mk_datetime 2020 1 1 0)
    [ mk_mention "python" "skills_section" 1 "" ].

(** A role with Python named outright and JavaScript by its alias. *)
Definition two_skills_role : candidate_role :=
  mk_candidate_role "Web Engineer" 24 (Some "2022-01-01"%string)
    (mk_datetime 2024 1 1 0)
    [ mk_mention "python" "skills_section" 1 "";
      mk_mention "js" "responsibility" 1 "" ].

(** The role of a second candidate: React by its alias only. *)
Definition react_role : candidate_role :=
  mk_candidate_role "Web Engineer" 12 (Some "2023-01-01"%string)
    (mk_datetime 2024 1 1 0)
    [ mk_mention "reactjs" "responsibility" 1 "" ].

End ResumeFixture.

(* ===================================================================== *)
(** * Properties *)
(* ===================================================================== *)

(* ===================================================================== *)
(** ** Durations ([calculate_duration]) *)
(* ===================================================================== *)

Module DurationFacts.
Import Dates Duration.

Lemma monthrange_bounds y m : 28 <= monthrange y m <= 31.
Proof. unfold monthrange. repeat case_match; lia. Qed.



Lemma dt_ltb_spec a b :
  dt_ltb a b = true <->
  (year a < year b \/
   (year a = year b /\
    (month a < month b \/
     (month a = month b /\
      (day a < day b \/ (day a = day b /\ tod a < tod b)))))).
Proof.
  unfold dt_ltb.
  rewrite !orb_true_iff, !andb_true_iff, !orb_true_iff, !andb_true_iff,
    !orb_true_iff, !andb_true_iff.
  lia.
Qed.

Lemma dt_ltb_false a b :
  dt_ltb a b = false <->
  ~ (year a < year b \/
     (year a = year b /\
      (month a < month b \/
       (month a = month b /\
        (day a < day b \/ (day a = day b /\ tod a < tod b)))))).
Proof. rewrite <- dt_ltb_spec. destruct (dt_ltb a b); intuition congruence. Qed.

(** Where [shift_months] lands: the month index moves by [n]. *)
Lemma shift_months_index dt n :
  1 <= month dt <= 12 ->
  let r := shift_months dt n in
  year r * 12 + month r = year dt * 12 + month dt + n /\ 1 <= month r <= 12.
Proof.
  intros Hm. unfold shift_months. cbv zeta.
  destruct (Z.ltb_spec 12 (month dt + Z.rem n 12));
    [| destruct (Z.ltb_spec (month dt + Z.rem n 12) 1)];
    cbn [year month]; Z.to_euclidean_division_equations; lia.
Qed.

Lemma shift_months_ym dt n y m :
  1 <= month dt <= 12 -> 1 <= m <= 12 ->
  y * 12 + m = year dt * 12 + month dt + n ->
  shift_months dt n = mk_datetime y m (Z.min (monthrange y m) (day dt)) (tod dt).
Proof.
  intros Hm Hm' E. pose proof (shift_months_index dt n Hm) as [E' B].
  assert (year (shift_months dt n) = y /\ month (shift_months dt n) = m)
    as [Ey Em] by lia.
  revert Ey Em. unfold shift_months. cbv zeta.
  repeat case_match; cbn [year month]; intros; subst; reflexivity.
Qed.

Lemma shift_to_end e s :
  valid e -> valid s ->
  shift_months s (months_formula e s) =
  mk_datetime (year e) (month e) (clipped_day e s) (tod s).
Proof.
  intros (_ & He & _) (_ & Hs & _). unfold months_formula, clipped_day.
  apply shift_months_ym; lia.
Qed.

Lemma shift_before_end e s :
  valid e -> valid s ->
  dt_ltb e (shift_months s (months_formula e s - 1)) = false.
Proof.
  intros (_ & He & _) (_ & Hs & _).
  pose proof (shift_months_index s (months_formula e s - 1) Hs) as [E B].
  apply dt_ltb_false. unfold months_formula in *. lia.
Qed.

Lemma shift_after_end e s :
  valid e -> valid s ->
  dt_ltb (shift_months s (months_formula e s + 1)) e = false.
Proof.
  intros (_ & He & _) (_ & Hs & _).
  pose proof (shift_months_index s (months_formula e s + 1) Hs) as [E B].
  apply dt_ltb_false. unfold months_formula in *. lia.
Qed.

Lemma dt_ltb_same_month_l e s :
  dt_ltb e (mk_datetime (year e) (month e) (clipped_day e s) (tod s))
  = earlier_in_month e s.
Proof.
  unfold dt_ltb, earlier_in_month. cbn [year month day tod].
  rewrite !Z.ltb_irrefl, !Z.eqb_refl. reflexivity.
Qed.

Lemma dt_ltb_same_month_r e s :
  dt_ltb (mk_datetime (year e) (month e) (clipped_day e s) (tod s)) e
  = later_in_month e s.
Proof.
  unfold dt_ltb, later_in_month. cbn [year month day tod].
  rewrite !Z.ltb_irrefl, !Z.eqb_refl. cbn. f_equal. f_equal. apply Z.eqb_sym.
Qed.

(** What [relativedelta] counts: the month difference, corrected by one
    when the end has not reached the day and time of the start. *)
Lemma relativedelta_months_char e s :
  valid e -> valid s ->
  relativedelta_months e s =
    if dt_ltb e s
    then months_formula e s + (if later_in_month e s then 1 else 0)
    else months_formula e s - (if earlier_in_month e s then 1 else 0).
Proof.
  intros He Hs. unfold relativedelta_months.
  change ((year e - year s) * 12 + (month e - month s))
    with (months_formula e s).
  cbn [adjust]. rewrite (shift_to_end e s He Hs).
  rewrite dt_ltb_same_month_l, dt_ltb_same_month_r.
  rewrite (shift_before_end e s He Hs), (shift_after_end e s He Hs).
  destruct (dt_ltb e s), (later_in_month e s), (earlier_in_month e s); lia.
Qed.

(** The loop of [relativedelta] has stopped at the value returned: the two
    rounds of [adjust] lose nothing. *)
Lemma adjust_settles e s :
  valid e -> valid s ->
  overshoot e s (relativedelta_months e s) = false.
Proof.
  intros He Hs. rewrite (relativedelta_months_char e s He Hs). unfold overshoot.
  destruct (dt_ltb e s) eqn:L.
  - destruct (later_in_month e s) eqn:A.
    + apply (shift_after_end e s He Hs).
    + rewrite Z.add_0_r, (shift_to_end e s He Hs), dt_ltb_same_month_r. exact A.
  - destruct (earlier_in_month e s) eqn:A.
    + apply (shift_before_end e s He Hs).
    + rewrite Z.sub_0_r, (shift_to_end e s He Hs), dt_ltb_same_month_l. exact A.
Qed.


(** The end date [calculate_duration] works with. *)
Definition resolved_end (dparse : string -> option datetime)
    (end_raw : option string) (today : datetime) : option datetime :=
  if is_present (or_present end_raw) then Some today
  else dparse (or_present end_raw).

(** The texts that stand for the reference date. *)
Lemma present_forms :
  is_present (or_present (Some "Present"%string)) = true /\
  is_present (or_present (Some "N/A"%string)) = true /\
  is_present (or_present (Some ""%string)) = true /\
  is_present (or_present None) = true.
Proof. repeat split; reflexivity. Qed.

Section WithParser.

Variable dparse : string -> option datetime.
Hypothesis dparse_valid : forall s d, dparse s = Some d -> valid d.

(** [calculate_duration] once the reference date has parsed. *)
Lemma calculate_duration_unfold
    (start_raw end_raw : option string) (ref_date : string) (today : datetime) :
  strptime_ymd ref_date = Some today ->
  calculate_duration dparse start_raw end_raw ref_date =
    Some (match start_raw ≫= dparse, resolved_end dparse end_raw today with
          | Some s, Some e => relativedelta_months e s
          | _, _ => 0
          end).
Proof.
  intros Href. unfold calculate_duration, try_duration, resolved_end.
  rewrite Href. cbn.
  destruct start_raw as [r|]; cbn; [| reflexivity].
  destruct (dparse r); cbn; [| reflexivity].
  destruct (if is_present (or_present end_raw) then Some today
            else dparse (or_present end_raw)); reflexivity.
Qed.


End WithParser.



End DurationFacts.

(* ===================================================================== *)
(** ** The JD post-processor *)
(* ===================================================================== *)

Module JDPostProcessorFacts.
Import Schema JDPostProcessor.

(** What the post-processor may change on a [SkillRequirement]. *)
Definition skill_normalized (r r' : SkillRequirement.t) : Prop :=
  let hint := SkillRequirement.skill_type_hint r in
  let level := SkillRequirement.requirement_level r in
  SkillRequirement.raw_skill r' = SkillRequirement.raw_skill r
  /\ SkillRequirement.source r' = SkillRequirement.source r
  /\ SkillRequirement.skill_type_hint r' = hint
  /\ SkillRequirement.skill_group_id r' = SkillRequirement.skill_group_id r
  /\ SkillRequirement.min_months r' =
       match hint with
       | methodology => Some 0
       | _ => Some (default 0 (SkillRequirement.min_months r))
       end
  /\ SkillRequirement.requirement_level r' =
       match hint, level with
       | tool, hard => soft
       | _, _ => level
       end
  /\ SkillRequirement.expected_evidence r' =
       match hint, level with
       | methodology, _ => implicit
       | tool, hard => project
       | _, _ => SkillRequirement.expected_evidence r
       end.

(** What it may change on a [CategoryRequirement]. *)
Definition category_normalized (c c' : CategoryRequirement.t) : Prop :=
  CategoryRequirement.group_id c' = CategoryRequirement.group_id c
  /\ CategoryRequirement.category c' = CategoryRequirement.category c
  /\ CategoryRequirement.example_skills c' = CategoryRequirement.example_skills c
  /\ CategoryRequirement.requirement_level c' = CategoryRequirement.requirement_level c
  /\ CategoryRequirement.source c' = CategoryRequirement.source c
  /\ CategoryRequirement.min_required c' = Z.max 1 (CategoryRequirement.min_required c).

Definition requirement_normalized (req req' : Requirement) : Prop :=
  match req, req' with
  | SkillReq r, SkillReq r' => skill_normalized r r'
  | CategoryReq c, CategoryReq c' => category_normalized c c'
  | _, _ => False
  end.

Lemma clean_requirements_map reqs :
  clean_requirements reqs = map clean_requirement reqs.
Proof. induction reqs as [|req rest IH]; cbn; [reflexivity | by rewrite IH]. Qed.

Lemma clean_skill_normalized r : skill_normalized r (clean_skill r).
Proof.
  destruct r as [raw src lv hint mm gid ev].
  unfold skill_normalized, clean_skill. cbn.
  destruct hint, lv, mm; cbn; repeat split; reflexivity.
Qed.

Lemma clean_category_normalized c : category_normalized c (clean_category c).
Proof.
  unfold category_normalized, clean_category. cbn. repeat split.
  destruct (Z.ltb_spec (CategoryRequirement.min_required c) 1); lia.
Qed.

Lemma clean_requirement_normalized req :
  requirement_normalized req (clean_requirement req).
Proof.
  destruct req; cbn; [apply clean_skill_normalized | apply clean_category_normalized].
Qed.

(** C8: the post-processor keeps the role context and the metadata, and
    returns as many requirements as it was given, in the same order: the
    requirement at each position is the one given at that position, of the
    same kind, with only these fields normalised: [min_months] of [None]
    becomes 0; a methodology gets [min_months = 0] and
    [expected_evidence = implicit]; a hard tool becomes soft with
    [expected_evidence = project]; [min_required] is raised to 1. *)
Theorem post_process_normalizes_only (jd : JobSkillProfile) :
  let out := post_process_jd_profile jd in
  role_context out = role_context jd
  /\ job_metadata out = job_metadata jd
  /\ length (requirements out) = length (requirements jd)
  /\ (forall (i : nat) (req : Requirement),
        requirements jd !! i = Some req ->
        exists req', requirements out !! i = Some req'
                     /\ requirement_normalized req req').
Proof.
  cbn. rewrite clean_requirements_map. repeat split.
  - apply length_map.
  - intros i req Hi. exists (clean_requirement req). split.
    + rewrite list_lookup_fmap, Hi. reflexivity.
    + apply clean_requirement_normalized.
Qed.

End JDPostProcessorFacts.

(* ===================================================================== *)
(** ** Text: what the canonicalisation of a context keeps *)
(* ===================================================================== *)

Module TextFacts.
Import Text.
#[local] Arguments String.append : simpl nomatch.

Lemma prefix_app w s : String.prefix w (w +:+ s) = true.
Proof.
  induction w as [|c w IH]; cbn; [by destruct s |].
  destruct (ascii_dec c c); [exact IH | congruence].
Qed.

Lemma prefix_split w s : String.prefix w s = true -> exists b, s = w +:+ b.
Proof.
  revert s. induction w as [|c w IH]; intros s H.
  - exists s. reflexivity.
  - destruct s as [|d s]; cbn in H; [discriminate |].
    destruct (ascii_dec c d) as [->|]; [| discriminate].
    destruct (IH s H) as [b ->]. exists b. reflexivity.
Qed.

Lemma contains_prefix w s : String.prefix w s = true -> contains w s = true.
Proof. destruct s; cbn; intros ->; reflexivity. Qed.

Lemma contains_app a w b : contains w (a +:+ w +:+ b) = true.
Proof.
  induction a as [|c a IH].
  - cbn. apply contains_prefix, prefix_app.
  - cbn. rewrite IH. apply orb_true_r.
Qed.

Lemma contains_split w s :
  contains w s = true -> exists a b, s = a +:+ w +:+ b.
Proof.
  induction s as [|c s IH]; cbn [contains]; intros H.
  - destruct w; [| discriminate]. exists EmptyString, EmptyString. reflexivity.
  - apply orb_true_iff in H as [H | H].
    + destruct (prefix_split _ _ H) as [b E]. exists EmptyString, b. exact E.
    + destruct (IH H) as (a & b & ->). exists (String c a), b. reflexivity.
Qed.



Fixpoint all_chars (p : ascii -> bool) (s : string) : bool :=
  match s with
  | EmptyString => true
  | String c r => p c && all_chars p r
  end.





Lemma rstrip_cons_nonspace c r :
  is_space c = false -> rstrip (String c r) = String c (rstrip r).
Proof. intros H. cbn. rewrite H. destruct (rstrip r); reflexivity. Qed.










End TextFacts.

(* ===================================================================== *)
(** ** The skill matcher and the disambiguator *)
(* ===================================================================== *)

Module NormalizerFacts.
Import Text Normalizer TextFacts.
#[local] Arguments String.append : simpl nomatch.


Lemma truthy_contains w s : truthy w = true -> contains w s = true -> truthy s = true.
Proof. destruct s; [| reflexivity]. destruct w; [discriminate | cbn; discriminate]. Qed.


Lemma append_assoc (a b c : string) : (a +:+ b) +:+ c = a +:+ b +:+ c.
Proof. induction a as [|x a IH]; cbn; [reflexivity | by rewrite IH]. Qed.





(** The tuple of a match on [skill]. *)
Definition hit (skill : master_skill) (conf : R) (m : string) : match_result :=
  mk_match_result (Some (SkillID skill)) (Some (SkillCode skill))
    (Some (SkillType skill)) conf m.

Definition blocked : match_result := no_result "disambiguation_blocked".


Lemma accept_block skill n c conf m :
  passes_disambiguation skill n c = false -> accept skill n c conf m = blocked.
Proof. unfold accept. intros ->. reflexivity. Qed.

Section Matcher.

Variables (raw_name : string) (master_skills : list master_skill)
  (vector_index : list vector_entry) (embed_fn : option (string -> embedding))
  (context_text : string) (allow_implicit : bool).

Let n := canonical raw_name.
Let c := normalize_text context_text.
Let result := normalize_and_match_skill raw_name master_skills vector_index
                embed_fn context_text allow_implicit.

Lemma matcher_empty : truthy n = false -> result = Some (no_result "empty").
Proof. unfold result, normalize_and_match_skill. fold n. intros ->. reflexivity. Qed.




Lemma matcher_vector :
  truthy n = true ->
  find (exact_hit n) master_skills = None ->
  find (alias_hit n) master_skills = None ->
  find (rule_hit n) master_skills = None ->
  result = vector_tier n c vector_index embed_fn.
Proof.
  unfold result, normalize_and_match_skill. fold n c. intros -> -> -> ->.
  reflexivity.
Qed.

End Matcher.

Lemma scan_snoc q l x : scan q (l ++ [x]) = scan_step q (scan q l) x.
Proof. unfold scan. rewrite foldl_app. reflexivity. Qed.

(** The scan returns the greatest cosine of the index when it is positive,
    with an entry that has it. *)
Lemma scan_spec q index :
  match scan q index with
  | (None, score) =>
      score = 0%R
      /\ forall e, In e index -> (cosine_similarity q (entry_embedding e) <= 0)%R
  | (Some entry, score) =>
      In entry index
      /\ score = cosine_similarity q (entry_embedding entry)
      /\ (0 < score)%R
      /\ forall e, In e index -> (cosine_similarity q (entry_embedding e) <= score)%R
  end.
Proof.
  induction index as [|x l IH] using rev_ind.
  - cbn. split; [reflexivity | intros e []].
  - rewrite scan_snoc. destruct (scan q l) as [[entry|] score]; unfold scan_step; cbn [snd].
    + destruct IH as (Hin & Hs & Hpos & Hmax).
      destruct (Rgt_dec (cosine_similarity q (entry_embedding x)) score) as [Hgt|Hle].
      * repeat split; [apply in_or_app; right; left; reflexivity | lra |].
        intros e He. apply in_app_or in He as [He | [<- | []]]; [| lra].
        specialize (Hmax e He). lra.
      * repeat split; [apply in_or_app; left; exact Hin | exact Hs | exact Hpos |].
        intros e He. apply in_app_or in He as [He | [<- | []]]; [auto | lra].
    + destruct IH as (Hs & Hmax). subst score.
      destruct (Rgt_dec (cosine_similarity q (entry_embedding x)) 0) as [Hgt|Hle].
      * repeat split; [apply in_or_app; right; left; reflexivity | lra |].
        intros e He. apply in_app_or in He as [He | [<- | []]]; [| lra].
        specialize (Hmax e He). lra.
      * split; [reflexivity |].
        intros e He. apply in_app_or in He as [He | [<- | []]]; [auto | lra].
Qed.


(** Below 0.92 the vector tier accepts nothing. *)
Lemma vector_tier_rejects n c index embed_fn :
  (forall embed e, embed_fn = Some embed -> In e index ->
     (cosine_similarity (embed n) (entry_embedding e) < 0.92)%R) ->
  vector_tier n c index embed_fn = Some (no_result "no_match").
Proof.
  unfold vector_tier. intros H.
  destruct index as [|x l]; [reflexivity |].
  destruct embed_fn as [embed|]; [| reflexivity].
  pose proof (scan_spec (embed n) (x :: l)) as S.
  destruct (scan (embed n) (x :: l)) as [[entry|] score]; [| reflexivity].
  destruct S as (Hin & Hs & Hpos & Hmax).
  destruct (Rge_dec score 0.92) as [Hge|]; [| reflexivity].
  specialize (H embed entry eq_refl Hin). lra.
Qed.










(** A blocked hit is reported as such by every tier. *)
Lemma blocked_method skill n c conf m :
  passes_disambiguation skill n c = false ->
  method (accept skill n c conf m) = "disambiguation_blocked"%string.
Proof. intros H. rewrite (accept_block _ _ _ _ _ H). reflexivity. Qed.



End NormalizerFacts.

(* ===================================================================== *)
(** ** The eligibility gate *)
(* ===================================================================== *)

Module GateFacts.
Import Text Dates Normalizer Store Schema Engine NormalizerFacts.

(** The profile with another list of requirements. *)
Definition with_requirements (jd : JobSkillProfile) (reqs : list Requirement)
    : JobSkillProfile :=
  mk_JobSkillProfile (role_context jd) (job_metadata jd) reqs.

(** The profile without its soft requirements. *)
Definition without_soft (jd : JobSkillProfile) : JobSkillProfile :=
  with_requirements jd
    (filter (fun req => negb (level_eqb (requirement_level req) soft))
       (requirements jd)).

(** The running intersection of the loop. *)
Definition intersection (sets : list (gset Z)) : gset Z :=
  match sets with
  | [] => ∅
  | s :: rest => foldl (∩) s rest
  end.

Section Gate.

Variable db : database.
Variable get_embedding : string -> embedding.
Variable today : datetime.

(** The requirement is evaluated without an exception. *)
Definition evaluates (jd : JobSkillProfile) (req : Requirement) : Prop :=
  is_Some (requirement_candidates db get_embedding today jd req).

(** The candidate sets of the requirements that are not skipped, in
    order. *)
Definition candidate_sets (jd : JobSkillProfile) (reqs : list Requirement)
    : list (gset Z) :=
  omap (fun req => mjoin (requirement_candidates db get_embedding today jd req)) reqs.

#[local] Arguments candidate_sets : simpl never.

Lemma requirement_candidates_reqs jd reqs req :
  requirement_candidates db get_embedding today (with_requirements jd reqs) req
  = requirement_candidates db get_embedding today jd req.
Proof. destruct req; reflexivity. Qed.

Lemma gate_loop_reqs jd reqs' reqs e :
  gate_loop db get_embedding today (with_requirements jd reqs') reqs e
  = gate_loop db get_embedding today jd reqs e.
Proof.
  revert e. induction reqs as [|req rest IH]; intros e; cbn; [reflexivity |].
  rewrite requirement_candidates_reqs.
  destruct (requirement_candidates db get_embedding today jd req) as [[ids|]|];
    cbn; [| apply IH | reflexivity].
  case_decide; [reflexivity | apply IH].
Qed.

Lemma foldl_inter_empty (sets : list (gset Z)) : foldl (∩) ∅ sets = ∅.
Proof.
  induction sets as [|s rest IH]; cbn; [reflexivity |].
  by rewrite (left_absorb_L ∅ (∩) s).
Qed.

Lemma candidate_sets_cons jd req rest :
  candidate_sets jd (req :: rest) =
  match mjoin (requirement_candidates db get_embedding today jd req) with
  | Some ids => ids :: candidate_sets jd rest
  | None => candidate_sets jd rest
  end.
Proof. reflexivity. Qed.

Lemma gate_loop_cons jd req rest e :
  gate_loop db get_embedding today jd (req :: rest) e =
  match requirement_candidates db get_embedding today jd req with
  | None => None
  | Some None => gate_loop db get_embedding today jd rest e
  | Some (Some ids) =>
      let eligible := match e with None => ids | Some e => e ∩ ids end in
      if decide (eligible = ∅) then Some ∅
      else gate_loop db get_embedding today jd rest (Some eligible)
  end.
Proof.
  cbn. destruct (requirement_candidates db get_embedding today jd req) as [[ids|]|];
    reflexivity.
Qed.

(** The loop from a running intersection [e]. *)
Lemma gate_loop_some jd reqs e :
  Forall (evaluates jd) reqs ->
  gate_loop db get_embedding today jd reqs (Some e)
  = Some (foldl (∩) e (candidate_sets jd reqs)).
Proof.
  revert e. induction reqs as [|req rest IH]; intros e Hall; [reflexivity |].
  apply Forall_cons in Hall as [[found Hreq] Hall].
  rewrite gate_loop_cons, candidate_sets_cons, Hreq.
  destruct found as [ids|]; cbn; [| apply (IH e Hall)].
  case_decide as Hempty; [| apply (IH _ Hall)].
  rewrite Hempty. by rewrite foldl_inter_empty.
Qed.

Lemma gate_loop_none jd reqs :
  Forall (evaluates jd) reqs ->
  gate_loop db get_embedding today jd reqs None
  = Some (intersection (candidate_sets jd reqs)).
Proof.
  induction reqs as [|req rest IH]; intros Hall; [reflexivity |].
  apply Forall_cons in Hall as [[found Hreq] Hall].
  rewrite gate_loop_cons, candidate_sets_cons, Hreq.
  destruct found as [ids|]; cbn; [| apply (IH Hall)].
  case_decide as Hempty; [| apply (gate_loop_some _ _ _ Hall)].
  rewrite Hempty. by rewrite foldl_inter_empty.
Qed.

Lemma candidate_sets_app jd pre rest :
  candidate_sets jd (pre ++ rest) = candidate_sets jd pre ++ candidate_sets jd rest.
Proof. unfold candidate_sets. apply omap_app. Qed.

(** The loop leaves as soon as the running intersection is empty: what
    follows is not evaluated. *)
Lemma gate_loop_early jd pre rest e :
  Forall (evaluates jd) pre ->
  candidate_sets jd pre <> [] ->
  foldl (∩) e (candidate_sets jd pre) = ∅ ->
  gate_loop db get_embedding today jd (pre ++ rest) (Some e) = Some ∅.
Proof.
  revert e. induction pre as [|req pre IH]; intros e Hall Hne Hint.
  - contradiction.
  - apply Forall_cons in Hall as [[found Hreq] Hall].
    rewrite candidate_sets_cons, Hreq in Hne, Hint.
    rewrite <- app_comm_cons, gate_loop_cons, Hreq.
    destruct found as [ids|]; cbn in Hne, Hint |- *; [| by apply IH].
    case_decide as Hempty; [reflexivity |].
    destruct (candidate_sets jd pre) as [|s ss] eqn:Hsets.
    + cbn in Hint. contradiction.
    + apply IH; [exact Hall | discriminate | exact Hint].
Qed.

Lemma gate_loop_early_none jd pre rest :
  Forall (evaluates jd) pre ->
  candidate_sets jd pre <> [] ->
  intersection (candidate_sets jd pre) = ∅ ->
  gate_loop db get_embedding today jd (pre ++ rest) None = Some ∅.
Proof.
  induction pre as [|req pre IH]; intros Hall Hne Hint.
  - contradiction.
  - apply Forall_cons in Hall as [[found Hreq] Hall].
    rewrite candidate_sets_cons, Hreq in Hne, Hint.
    rewrite <- app_comm_cons, gate_loop_cons, Hreq.
    destruct found as [ids|]; cbn in Hne, Hint |- *; [| by apply IH].
    case_decide as Hempty; [reflexivity |].
    destruct (candidate_sets jd pre) as [|s ss] eqn:Hsets.
    + cbn in Hint. contradiction.
    + apply gate_loop_early; [exact Hall | congruence | rewrite Hsets; exact Hint].
Qed.

(** A skipped requirement does not move the loop. *)
Lemma gate_loop_skip jd pre req post e :
  requirement_candidates db get_embedding today jd req = Some None ->
  gate_loop db get_embedding today jd (pre ++ req :: post) e = gate_loop db get_embedding today jd (pre ++ post) e.
Proof.
  intros Hskip. revert e. induction pre as [|x pre IH]; intros e; cbn.
  - rewrite Hskip. reflexivity.
  - destruct (requirement_candidates db get_embedding today jd x) as [[ids|]|]; cbn; [| apply IH | reflexivity].
    case_decide; [reflexivity | apply IH].
Qed.

Lemma unresolved_is_skipped jd r m :
  match_requirement db get_embedding jd r = Some m -> matched_id m = None ->
  requirement_candidates db get_embedding today jd (SkillReq r) = Some None.
Proof. intros Hm Hid. cbn. rewrite Hm. cbn. rewrite Hid. reflexivity. Qed.

(** The gate is the loop over the hard requirements, also when there are
    none. *)
Lemma get_eligible_loop jd :
  get_eligible_candidates db get_embedding today jd
  = gate_loop db get_embedding today jd (filter is_hard (requirements jd)) None.
Proof.
  unfold get_eligible_candidates.
  destruct (filter is_hard (requirements jd)); reflexivity.
Qed.

Lemma get_eligible_reqs jd reqs :
  get_eligible_candidates db get_embedding today (with_requirements jd reqs) = gate_loop db get_embedding today jd (filter is_hard reqs) None.
Proof. rewrite get_eligible_loop. cbn. apply gate_loop_reqs. Qed.


Lemma filter_hard_without_soft (reqs : list Requirement) :
  filter is_hard
    (filter (fun req => negb (level_eqb (requirement_level req) soft)) reqs)
  = filter is_hard reqs.
Proof.
  rewrite list_filter_filter. apply list_filter_iff. intros req.
  unfold is_hard. destruct (requirement_level req); cbn; tauto.
Qed.

(** C5: the gate returns the same set (or raises the same way) on a
    profile and on the profile without its soft requirements. *)
Theorem soft_requirements_never_filter (jd : JobSkillProfile) :
  get_eligible_candidates db get_embedding today (without_soft jd)
  = get_eligible_candidates db get_embedding today jd.
Proof.
  unfold without_soft.
  rewrite get_eligible_reqs, get_eligible_loop, filter_hard_without_soft.
  reflexivity.
Qed.

(** C4: when every hard requirement is evaluated, the gate returns the
    intersection of the candidate sets of the hard requirements that
    resolve (the empty set when there is none); it returns the empty set
    as soon as the running intersection is empty, without evaluating the
    requirements that follow; and a hard [SkillRequirement] whose raw skill
    resolves to no master skill is skipped: the gate returns what it
    returns on the profile without that requirement. *)
Theorem eligibility_gate_intersection (jd : JobSkillProfile) :
  let hard_requirements := filter is_hard (requirements jd) in
  (Forall (evaluates jd) hard_requirements ->
   get_eligible_candidates db get_embedding today jd
   = Some (intersection (candidate_sets jd hard_requirements)))
  /\ (forall pre rest,
        hard_requirements = pre ++ rest ->
        Forall (evaluates jd) pre ->
        candidate_sets jd pre <> [] ->
        intersection (candidate_sets jd pre) = ∅ ->
        get_eligible_candidates db get_embedding today jd = Some ∅)
  /\ (forall pre r post m,
        requirements jd = pre ++ SkillReq r :: post ->
        SkillRequirement.requirement_level r = hard ->
        match_requirement db get_embedding jd r = Some m ->
        matched_id m = None ->
        get_eligible_candidates db get_embedding today jd
        = get_eligible_candidates db get_embedding today
            (with_requirements jd (pre ++ post))).
Proof.
  intros hard_requirements. repeat apply conj.
  - intros Hall. rewrite get_eligible_loop. by apply gate_loop_none.
  - intros pre rest Hsplit Hall Hne Hint. rewrite get_eligible_loop.
    fold hard_requirements. rewrite Hsplit. by apply gate_loop_early_none.
  - intros pre r post m Hreqs Hlevel Hm Hid.
    rewrite get_eligible_reqs, get_eligible_loop, Hreqs.
    rewrite !filter_app, filter_cons_True
      by (unfold is_hard; cbn; rewrite Hlevel; exact I).
    apply gate_loop_skip. eapply unresolved_is_skipped; eauto.
Qed.

End Gate.

Lemma cosine_nil b : cosine_similarity [] b = 0%R.
Proof. unfold cosine_similarity, dot. cbn. unfold Rdiv. apply Rmult_0_l. Qed.

(** With the embedding model of the runs no vector is ever close. *)
Lemma vector_tier_no_embedding n c index :
  vector_tier n c index (Some Fixture.no_embedding) = Some (no_result "no_match").
Proof.
  apply vector_tier_rejects. intros embed e [= <-] _.
  unfold Fixture.no_embedding. rewrite cosine_nil. lra.
Qed.

(** "Cobol" resolves to nothing in the small taxonomy. *)
Lemma cobol_unresolved db_rows jd r :
  MasterSkills db_rows = Fixture.masters ->
  SkillRequirement.raw_skill r = "Cobol"%string ->
  match_requirement db_rows Fixture.no_embedding jd r
  = Some (no_result "no_match").
Proof.
  intros Hm Hr. unfold match_requirement, master_skill_list, vector_index.
  rewrite Hm, Hr.
  rewrite (matcher_vector "Cobol" Fixture.masters _ _ _ _ eq_refl eq_refl
             eq_refl eq_refl).
  apply vector_tier_no_embedding.
Qed.

(** The gate on a profile whose first hard requirement resolves to
    nothing: it is skipped, and the two candidates with Python stay. *)
Lemma eligibility_gate_intersection_witness :
  get_eligible_candidates Fixture.db_two Fixture.no_embedding Fixture.the_day
    Fixture.jd_python_cobol
  = Some {[ 1; 2 ]}.
Proof.
  destruct (eligibility_gate_intersection Fixture.db_two Fixture.no_embedding
              Fixture.the_day Fixture.jd_python_cobol) as (_ & _ & Hskip).
  pose (cobol := SkillRequirement.mk "Cobol" explicit hard programming (Some 12)
                   None resume_skill).
  rewrite (Hskip [] cobol (tail (requirements Fixture.jd_python_cobol))
             (no_result "no_match") eq_refl eq_refl
             (cobol_unresolved Fixture.db_two Fixture.jd_python_cobol cobol
                eq_refl eq_refl)
             eq_refl).
  destruct (eligibility_gate_intersection Fixture.db_two Fixture.no_embedding
              Fixture.the_day
              (with_requirements Fixture.jd_python_cobol
                 (tail (requirements Fixture.jd_python_cobol))))
    as (Hall & _ & _).
  change (get_eligible_candidates Fixture.db_two Fixture.no_embedding
            Fixture.the_day
            (with_requirements Fixture.jd_python_cobol
               (tail (requirements Fixture.jd_python_cobol)))
          = Some {[ 1; 2 ]}).
  rewrite Hall.
  - vm_compute. reflexivity.
  - repeat constructor. vm_compute. eexists. reflexivity.
Defined.

End GateFacts.

(* ===================================================================== *)
(** ** The aggregation of mentions *)
(* ===================================================================== *)

Module AggregationFacts.
Import Text Dates Duration Normalizer Dto Postprocessor Store Vectorizer.
Import DurationFacts.

Lemma dt_leb_trans a b c : dt_leb a b = true -> dt_leb b c = true -> dt_leb a c = true.
Proof.
  unfold dt_leb. rewrite !negb_true_iff, !dt_ltb_false. lia.
Qed.

Lemma dt_min_le_r a b : dt_leb (dt_min a b) b = true.
Proof.
  unfold dt_min, dt_leb. destruct (dt_ltb b a) eqn:E.
  - apply negb_true_iff, dt_ltb_false. lia.
  - rewrite E. reflexivity.
Qed.

Lemma dt_max_ge_r a b : dt_leb b (dt_max a b) = true.
Proof.
  unfold dt_max, dt_leb. destruct (dt_ltb a b) eqn:E.
  - apply negb_true_iff, dt_ltb_false. lia.
  - apply negb_true_iff, dt_ltb_false. apply dt_ltb_false in E. lia.
Qed.

Lemma dt_leb_refl a : dt_leb a a = true.
Proof. unfold dt_leb. apply negb_true_iff, dt_ltb_false. lia. Qed.

(** The dates of an accumulator are in order. *)
Definition dates_ordered (acc : SkillMetrics) : Prop :=
  forall f l, first_used acc = Some f -> last_used acc = Some l ->
              dt_leb f l = true.

(** The mentions of a list that the matcher attributes to [code]. *)
Definition accepted_for (master_skills : list master_skill)
    (vector_index : list vector_entry) (embed_fn : option (string -> embedding))
    (code : string) (mentions : list mention) : list mention :=
  filter (fun m => mention_code master_skills vector_index embed_fn m
                   = Some (Some code)) mentions.

Section Aggregation.

Variable dparse : string -> option datetime.
Variable master_skills : list master_skill.
Variable vector_index : list vector_entry.
Variable embed_fn : option (string -> embedding).

#[local] Abbreviation accepted := (accepted_for master_skills vector_index embed_fn).
#[local] Abbreviation code_of := (mention_code master_skills vector_index embed_fn).

(** What one round of the loop does, by the code the mention goes to. *)
Lemma process_mention_cases lv months start end_ st m st' :
  process_mention master_skills vector_index embed_fn lv months start end_ st m
  = Some st' ->
  (code_of m = Some None /\ st' = st)
  \/ (exists code acc' r,
        code_of m = Some (Some code)
        /\ fst st' = <[code := acc']> (fst st)
        /\ confidence_sources (snd st') = confidence_sources (snd st) ++ [method r]
        /\ normalization_methods (snd st') = normalization_methods (snd st)
        /\ normalize_and_match_skill (mention_raw_name m) master_skills
             vector_index embed_fn (mention_context m) false = Some r
        /\ length (confidence_scores acc')
           = S (length (confidence_scores (lookup_acc (fst st) code)))
        /\ junior_months acc' + mid_months acc' + senior_months acc'
           = junior_months (lookup_acc (fst st) code)
             + mid_months (lookup_acc (fst st) code)
             + senior_months (lookup_acc (fst st) code) + months
        /\ (forall s, start = Some s -> dt_leb s end_ = true -> dates_ordered acc')
        /\ (start = None -> first_used acc' = None)).
Proof.
  unfold process_mention, mention_code. intros H.
  destruct (normalize_and_match_skill (mention_raw_name m) master_skills
              vector_index embed_fn (mention_context m) false) as [r|] eqn:Hr;
    cbn in H |- *; [| discriminate].
  destruct (matched_code r) as [code|]; [| left; by inversion H].
  destruct (truthy code) eqn:Ht; cbn in H; [| left; by inversion H].
  right.
  set (acc := add_level_months lv months (lookup_acc st.1 code)) in *.
  destruct (match first_used acc with
            | Some f => start ≫= λ s, Some (Some (dt_min f s))
            | None => Some start
            end) as [first|] eqn:Hfirst; cbn in H; [| discriminate].
  destruct (SOURCE_EVIDENCE_WEIGHT (mention_source m)) as [w|]; cbn in H; [| discriminate].
  destruct (max_strength _) as [strength|]; cbn in H; [| discriminate].
  inversion H; subst st'; clear H. cbn.
  eexists code, _, r. repeat apply conj; try reflexivity; cbn.
  - rewrite length_app. cbn. subst acc. destruct lv; cbn; lia.
  - subst acc. destruct lv; cbn; lia.
  - intros s Hstart Hse. subst start. unfold dates_ordered. intros f l Hf Hl.
    cbn in Hf, Hl.
    assert (Hfs : dt_leb f s = true).
    { rewrite Hf in Hfirst. destruct (first_used acc) as [f0|]; cbn in Hfirst.
      - inversion Hfirst. apply dt_min_le_r.
      - inversion Hfirst. apply dt_leb_refl. }
    assert (Hel : dt_leb end_ l = true).
    { destruct (last_used acc) as [l0|]; inversion Hl; subst l.
      - apply dt_max_ge_r.
      - apply dt_leb_refl. }
    eauto using dt_leb_trans.
  - intros ->. destruct (first_used acc); cbn in Hfirst; [discriminate |].
    by inversion Hfirst.
Qed.


Lemma lookup_acc_insert (m : gmap string SkillMetrics) c a c' :
  lookup_acc (<[c := a]> m) c' = if decide (c = c') then a else lookup_acc m c'.
Proof.
  unfold lookup_acc. rewrite lookup_insert. case_decide; reflexivity.
Qed.

(** The fields the role-title credit leaves alone. *)
Definition same_evidence (a b : SkillMetrics) : Prop :=
  confidence_scores a = confidence_scores b
  /\ first_used a = first_used b /\ last_used a = last_used b
  /\ junior_months a = junior_months b /\ mid_months a = mid_months b
  /\ senior_months a = senior_months b.

Lemma same_evidence_refl a : same_evidence a a.
Proof. repeat split. Qed.

Lemma same_evidence_trans a b c :
  same_evidence a b -> same_evidence b c -> same_evidence a c.
Proof. unfold same_evidence. intuition congruence. Qed.

Lemma credit_codes_same (codes : list string) (m : gmap string SkillMetrics) code :
  same_evidence
    (lookup_acc (foldl (fun m c => <[c := credit_title (lookup_acc m c)]> m) m codes) code)
    (lookup_acc m code).
Proof.
  revert m. induction codes as [|c rest IH]; intros m; cbn.
  - apply same_evidence_refl.
  - eapply same_evidence_trans; [apply IH |].
    rewrite lookup_acc_insert. case_decide as E.
    + subst c. repeat split.
    + apply same_evidence_refl.
Qed.

Lemma credit_role_title_same role_title (m : gmap string SkillMetrics) code :
  same_evidence (lookup_acc (credit_role_title role_title m) code) (lookup_acc m code).
Proof.
  unfold credit_role_title. destruct (truthy role_title); [| apply same_evidence_refl].
  generalize ROLE_TITLE_SKILL_MAP. intros table. revert m.
  induction table as [|kv rest IH]; intros m; cbn.
  - apply same_evidence_refl.
  - eapply same_evidence_trans; [apply IH |].
    destruct (contains kv.1 role_title); [apply credit_codes_same | apply same_evidence_refl].
Qed.

Lemma dates_ordered_same a b : same_evidence a b -> dates_ordered b -> dates_ordered a.
Proof.
  intros (_ & Hf & Hl & _) H f l Ef El. apply H; congruence.
Qed.

Lemma accepted_cons code m rest :
  accepted code (m :: rest) =
  if decide (code_of m = Some (Some code)) then m :: accepted code rest
  else accepted code rest.
Proof. unfold accepted_for. rewrite filter_cons. reflexivity. Qed.

(** The loop over the mentions of one role: each accepted mention adds one
    blended confidence to its accumulator and to no other. *)
Lemma process_mentions_counts lv months start end_ mentions st st' :
  process_mentions master_skills vector_index embed_fn lv months start end_ st
    mentions = Some st' ->
  forall code,
    length (confidence_scores (lookup_acc (fst st') code))
    = (length (confidence_scores (lookup_acc (fst st) code))
       + length (accepted code mentions))%nat.
Proof.
  revert st. induction mentions as [|m rest IH]; intros st H code.
  - inversion H. cbn. lia.
  - cbn in H.
    destruct (process_mention master_skills vector_index embed_fn lv months
                start end_ st m) as [st1|] eqn:E; cbn in H; [| discriminate].
    rewrite (IH st1 H code), accepted_cons.
    destruct (process_mention_cases _ _ _ _ _ _ _ E)
      as [[Hc ->] | (c & acc' & r & Hc & Hmap & _ & _ & _ & Hlen & _)].
    + rewrite Hc. case_decide; [congruence | lia].
    + rewrite Hc, Hmap, lookup_acc_insert.
      case_decide as E1; case_decide as E2; try congruence; cbn; try lia.
      subst c. lia.
Qed.

(** The same loop keeps the dates of every accumulator in order, when the
    role does not end before it starts. *)
Lemma process_mentions_dates lv months start end_ mentions st st' :
  process_mentions master_skills vector_index embed_fn lv months start end_ st
    mentions = Some st' ->
  (forall s, start = Some s -> dt_leb s end_ = true) ->
  (forall code, dates_ordered (lookup_acc (fst st) code)) ->
  forall code, dates_ordered (lookup_acc (fst st') code).
Proof.
  intros H Hrole. revert st H. induction mentions as [|m rest IH]; intros st H Hinv.
  - inversion H; subst. exact Hinv.
  - cbn in H.
    destruct (process_mention master_skills vector_index embed_fn lv months
                start end_ st m) as [st1|] eqn:E; cbn in H; [| discriminate].
    apply (IH st1 H). intros code.
    destruct (process_mention_cases _ _ _ _ _ _ _ E)
      as [[Hc ->] | (c & acc' & r & Hc & Hmap & _ & _ & _ & _ & _ & Hord & Hnone)];
      [apply Hinv |].
    rewrite Hmap, lookup_acc_insert. case_decide; [| apply Hinv].
    destruct start as [s|].
    + apply (Hord s eq_refl), Hrole. reflexivity.
    + intros f l Hf. rewrite (Hnone eq_refl) in Hf. discriminate.
Qed.


(** One call of [process_extracted_skills]. *)
Lemma process_extracted_skills_counts mentions st lv months start_raw end_
    role_title st' :
  process_extracted_skills dparse master_skills vector_index embed_fn mentions
    st lv months start_raw end_ role_title = Some st' ->
  forall code,
    length (confidence_scores (lookup_acc (fst st') code))
    = (length (confidence_scores (lookup_acc (fst st) code))
       + length (accepted code mentions))%nat.
Proof.
  unfold process_extracted_skills. intros H code.
  destruct (parse_start dparse start_raw) as [start|]; cbn in H; [| discriminate].
  rewrite (process_mentions_counts _ _ _ _ _ _ _ H code). cbn [fst].
  destruct (credit_role_title_same role_title (fst st) code) as (-> & _).
  reflexivity.
Qed.

Lemma process_extracted_skills_dates mentions st lv months start_raw end_
    role_title st' :
  process_extracted_skills dparse master_skills vector_index embed_fn mentions
    st lv months start_raw end_ role_title = Some st' ->
  (forall s, parse_start dparse start_raw = Some (Some s) -> dt_leb s end_ = true) ->
  (forall code, dates_ordered (lookup_acc (fst st) code)) ->
  forall code, dates_ordered (lookup_acc (fst st') code).
Proof.
  unfold process_extracted_skills. intros H Hrole Hinv.
  destruct (parse_start dparse start_raw) as [start|]; cbn in H; [| discriminate].
  apply (process_mentions_dates _ _ _ _ _ _ _ H).
  - intros s ->. by apply Hrole.
  - intros code. cbn [fst].
    eapply dates_ordered_same; [apply credit_role_title_same | apply Hinv].
Qed.

End Aggregation.

(** The role does not end before it starts. *)
Definition role_ordered (dparse : string -> option datetime)
    (role : candidate_role) : Prop :=
  forall s, parse_start dparse (role_start_raw role) = Some (Some s) ->
            dt_leb s (end_dt role) = true.

Section Sync.

Variable dparse : string -> option datetime.
Variable get_embedding : string -> embedding.
Variable master_skills : list master_skill.

(** The mentions the sync attributes to [code], over all the roles. *)
Definition accepted_mentions (code : string) (roles : list candidate_role)
    : list mention :=
  accepted_for master_skills (vector_rows master_skills) (Some get_embedding)
    code (flat_map role_skill_mentions roles).

Lemma accepted_mentions_cons code role rest :
  length (accepted_mentions code (role :: rest))
  = (length (accepted_for master_skills (vector_rows master_skills)
               (Some get_embedding) code (role_skill_mentions role))
     + length (accepted_mentions code rest))%nat.
Proof.
  unfold accepted_mentions, accepted_for. cbn [flat_map].
  rewrite filter_app, length_app. reflexivity.
Qed.

Lemma sync_roles_counts roles st st' :
  sync_roles dparse get_embedding master_skills roles st = Some st' ->
  forall code,
    length (confidence_scores (lookup_acc (fst st') code))
    = (length (confidence_scores (lookup_acc (fst st) code))
       + length (accepted_mentions code roles))%nat.
Proof.
  revert st. induction roles as [|role rest IH]; intros st H code.
  - inversion H. cbn. lia.
  - cbn in H.
    destruct (process_extracted_skills _ _ _ _ _ _ _ _ _ _ _) as [st1|] eqn:E;
      cbn in H; [| discriminate].
    rewrite (IH st1 H code), (process_extracted_skills_counts _ _ _ _ _ _ _ _ _ _ _ _ E),
      accepted_mentions_cons.
    lia.
Qed.

Lemma sync_roles_dates roles st st' :
  sync_roles dparse get_embedding master_skills roles st = Some st' ->
  Forall (role_ordered dparse) roles ->
  (forall code, dates_ordered (lookup_acc (fst st) code)) ->
  forall code, dates_ordered (lookup_acc (fst st') code).
Proof.
  revert st. induction roles as [|role rest IH]; intros st H Hroles Hinv.
  - inversion H; subst. exact Hinv.
  - cbn in H. apply Forall_cons in Hroles as [Hrole Hroles].
    destruct (process_extracted_skills _ _ _ _ _ _ _ _ _ _ _) as [st1|] eqn:E;
      cbn in H; [| discriminate].
    apply (IH st1 H Hroles).
    apply (process_extracted_skills_dates _ _ _ _ _ _ _ _ _ _ _ _ E); auto.
Qed.

Lemma dates_ordered_new : dates_ordered new_SkillMetrics.
Proof. intros f l Hf. discriminate. Qed.

(** C7 (amended): after a sync that completes, every accumulator has
    [total_months = junior_months + mid_months + senior_months], and its
    [confidence_scores] has one entry for each mention the matcher
    attributed to its skill; and [first_used <= last_used] holds for it when
    no role of the profile ends before it starts. Every row stored has
    [TotalMonths = JuniorMonths + MidMonths + SeniorMonths]. *)
Theorem aggregation_consistency
    (candidate_id : Z) (roles : list candidate_role) (cls cls' : SkillMetrics_class)
    (skill_map : gmap string SkillMetrics) (rows : list candidate_skill_row) :
  sync_profile_to_master dparse get_embedding master_skills candidate_id roles cls
  = Some (skill_map, cls', rows) ->
  (forall code acc,
     skill_map !! code = Some acc ->
     total_months acc = junior_months acc + mid_months acc + senior_months acc
     /\ length (confidence_scores acc) = length (accepted_mentions code roles)
     /\ (Forall (role_ordered dparse) roles -> dates_ordered acc))
  /\ (forall row, In row rows ->
        TotalMonths row = JuniorMonths row + MidMonths row + SeniorMonths row).
Proof.
  unfold sync_profile_to_master. intros H.
  destruct (sync_roles dparse get_embedding master_skills roles (∅, cls))
    as [st|] eqn:E; [| discriminate].
  inversion H; subst skill_map cls' rows; clear H.
  assert (Hacc : forall code acc,
             (finalize <$> fst st) !! code = Some acc ->
             acc = finalize (lookup_acc (fst st) code)).
  { intros code acc Hl. rewrite lookup_fmap in Hl. unfold lookup_acc.
    destruct (fst st !! code); cbn in Hl |- *; congruence. }
  split.
  - intros code acc Hl. rewrite (Hacc code acc Hl). repeat apply conj.
    + reflexivity.
    + cbn. rewrite (sync_roles_counts _ _ _ E code). cbn.
      unfold lookup_acc. rewrite lookup_empty. reflexivity.
    + intros Hroles f l Hf Hlast. cbn in Hf, Hlast.
      eapply (sync_roles_dates _ _ _ E Hroles); eauto.
      intros c. unfold lookup_acc. cbn. rewrite lookup_empty.
      apply dates_ordered_new.
  - intros row Hin. apply list_elem_of_In, list_elem_of_omap in Hin
      as ([code acc] & Hkv & Hrow).
    apply elem_of_map_to_list in Hkv. rewrite (Hacc code acc Hkv) in Hrow.
    unfold store_candidate_skill in Hrow. cbn in Hrow.
    destruct (find _ master_skills); cbn in Hrow; [| discriminate].
    inversion Hrow. reflexivity.
Qed.

End Sync.

End AggregationFacts.

(* ===================================================================== *)
(** ** Runs of the ingestion *)
(* ===================================================================== *)

Module AggregationRuns.
Import Text Dates Duration Normalizer Dto Postprocessor Store Vectorizer.
Import DurationFacts AggregationFacts ResumeFixture.

(** The profile entries of the runs are what the profile builder makes of
    the raw roles. *)
Lemma profiles_built :
  build_professional_profile strptime_ymd [raw_java_role] "2026-01-01"
  = Some [java_role]
  /\ build_professional_profile strptime_ymd [raw_backwards_role] "2026-01-01"
     = Some [backwards_role].
Proof. split; vm_compute; reflexivity. Qed.

(** The sync of the senior Java role (scenario S1): 24 months, one
    confidence, dates in order. *)
Lemma aggregation_consistency_witness :
  exists skill_map cls' rows acc,
    sync_profile_to_master strptime_ymd Fixture.no_embedding Fixture.masters 7
      [java_role] SkillMetrics_class_init = Some (skill_map, cls', rows)
    /\ skill_map !! "language_java"%string = Some acc
    /\ total_months acc = 24 /\ senior_months acc = 24
    /\ length (confidence_scores acc) = 1%nat
    /\ dates_ordered acc.
Proof.
  destruct (sync_profile_to_master strptime_ymd Fixture.no_embedding
              Fixture.masters 7 [java_role] SkillMetrics_class_init)
    as [[[skill_map cls'] rows]|] eqn:E; [| vm_compute in E; discriminate].
  destruct (aggregation_consistency _ _ _ _ _ _ _ _ _ E) as [H _].
  assert (L : exists acc, skill_map !! "language_java"%string = Some acc
                          /\ senior_months acc = 24 /\ mid_months acc = 0
                          /\ junior_months acc = 0).
  { pose proof E as E'. vm_compute in E'. injection E' as <- _ _.
    eexists. split; [vm_compute; reflexivity | repeat split]. }
  destruct L as (acc & L & Hs & Hm & Hj).
  destruct (H _ _ L) as (Ht & Hc & Hd).
  exists skill_map, cls', rows, acc. repeat apply conj; [reflexivity | exact L | | | | ].
  - rewrite Ht, Hs, Hm, Hj. reflexivity.
  - exact Hs.
  - rewrite Hc. vm_compute. reflexivity.
  - apply Hd. repeat constructor. intros s Hs'. vm_compute in Hs'.
    inversion Hs'. reflexivity.
Defined.

(** C7 as stated fails: the sync of a role that ends before it starts
    leaves an accumulator whose [first_used] is after its [last_used]. *)
Lemma dates_order_counterexample :
  exists skill_map cls' rows acc,
    sync_profile_to_master strptime_ymd Fixture.no_embedding Fixture.masters 7
      [backwards_role] SkillMetrics_class_init = Some (skill_map, cls', rows)
    /\ skill_map !! "language_python"%string = Some acc
    /\ first_used acc = Some (mk_datetime 2024 5 1 0)
    /\ last_used acc = Some (mk_datetime 2020 1 1 0)
    /\ dt_leb (mk_datetime 2024 5 1 0) (mk_datetime 2020 1 1 0) = false.
Proof.
  do 4 eexists. repeat apply conj.
  - vm_compute. reflexivity.
  - vm_compute. reflexivity.
  - reflexivity.
  - reflexivity.
  - reflexivity.
Qed.

(** One appended method is read back through every accumulator. *)
Lemma process_mention_shares_sources master_skills vector_index embed_fn
    lv months start end_ st m st' code :
  process_mention master_skills vector_index embed_fn lv months start end_ st m
  = Some st' ->
  mention_code master_skills vector_index embed_fn m = Some (Some code) ->
  exists r,
    normalize_and_match_skill (mention_raw_name m) master_skills vector_index
      embed_fn (mention_context m) false = Some r
    /\ forall other,
         read_confidence_sources (snd st') other
         = read_confidence_sources (snd st) other ++ [method r].
Proof.
  intros H Hc.
  destruct (process_mention_cases _ _ _ _ _ _ _ _ _ _ H)
    as [[Hc' _] | (c & acc' & r & _ & _ & Hsrc & _ & Hr & _)]; [congruence |].
  exists r. split; [exact Hr |]. intros other. exact Hsrc.
Qed.

(** C10 at the failing input: one candidate with Python named outright and
    JavaScript by its alias, then a second candidate, in the same process,
    with React by its alias. The JavaScript row is stored with the method
    "exact" of the Python mention, and the React row of the second
    candidate with the "exact" of the first candidate. *)
Theorem confidence_sources_shared_run :
  exists m1 cls1 rows1 m2 cls2 rows2,
    sync_profile_to_master strptime_ymd Fixture.no_embedding Fixture.masters 1
      [two_skills_role] SkillMetrics_class_init = Some (m1, cls1, rows1)
    /\ confidence_sources cls1 = ["exact"; "alias"]%string
    /\ map (fun r => (MasterSkillID r, NormalizationMethod r)) rows1
       ≡ₚ [(2, "exact"%string); (3, "exact"%string)]
    /\ sync_profile_to_master strptime_ymd Fixture.no_embedding Fixture.masters 2
         [react_role] cls1 = Some (m2, cls2, rows2)
    /\ confidence_sources cls2 = ["exact"; "alias"; "alias"]%string
    /\ map (fun r => (MasterSkillID r, NormalizationMethod r)) rows2
       = [(4, "exact"%string)].
Proof.
  do 6 eexists. repeat apply conj.
  - vm_compute. reflexivity.
  - reflexivity.
  - vm_compute. apply perm_swap.
  - vm_compute. reflexivity.
  - reflexivity.
  - vm_compute. reflexivity.
Qed.

End AggregationRuns.

(* ===================================================================== *)
(** ** Rounding and logarithms *)
(* ===================================================================== *)

Module FloatFacts.
Import Float.

Lemma Int_part_IZR k : Int_part (IZR k) = k.
Proof. symmetry. apply Int_part_spec. lra. Qed.

Lemma Int_part_le x : (IZR (Int_part x) <= x)%R.
Proof. apply base_Int_part. Qed.

Lemma Int_part_lt x : (x < IZR (Int_part x) + 1)%R.
Proof. pose proof (base_Int_part x) as [_ H]. lra. Qed.

Lemma Int_part_ge k x : (IZR k <= x)%R -> k <= Int_part x.
Proof.
  intros H. pose proof (Int_part_lt x) as Hlt.
  assert (IZR k < IZR (Int_part x + 1))%R by (rewrite plus_IZR; lra).
  apply lt_IZR in H0. lia.
Qed.

Lemma Int_part_below k x : (x < IZR k)%R -> Int_part x <= k - 1.
Proof.
  intros H. pose proof (Int_part_le x) as Hle.
  assert (IZR (Int_part x) < IZR k)%R by lra.
  apply lt_IZR in H0. lia.
Qed.

(** Rounding stays between the floor and the floor plus one. *)
Lemma round_half_even_floor x :
  round_half_even x = Int_part x
  \/ (round_half_even x = Int_part x + 1 /\ (IZR (Int_part x) + 1 / 2 <= x)%R).
Proof.
  unfold round_half_even.
  destruct (Rlt_dec (x - IZR (Int_part x)) (1 / 2)); [by left |].
  destruct (Rlt_dec (1 / 2) (x - IZR (Int_part x))); [right; split; [done | lra] |].
  destruct (Z.even (Int_part x)); [by left | right; split; [done | lra]].
Qed.

Lemma round_half_even_IZR k : round_half_even (IZR k) = k.
Proof.
  destruct (round_half_even_floor (IZR k)) as [-> | [_ H]].
  - apply Int_part_IZR.
  - rewrite Int_part_IZR in H. lra.
Qed.

Lemma round_half_even_ge k x : (IZR k <= x)%R -> k <= round_half_even x.
Proof.
  intros H. pose proof (Int_part_ge k x H).
  destruct (round_half_even_floor x) as [-> | [-> _]]; lia.
Qed.

Lemma round_half_even_le k x : (x <= IZR k)%R -> round_half_even x <= k.
Proof.
  intros H. destruct (round_half_even_floor x) as [-> | [-> Hh]].
  - pose proof (Int_part_le x). assert (IZR (Int_part x) <= IZR k)%R by lra.
    by apply le_IZR.
  - assert (IZR (Int_part x) < IZR k)%R by lra. apply lt_IZR in H0. lia.
Qed.

(** Rounding is within half a unit. *)
Lemma round_half_even_near x :
  (IZR (round_half_even x) - 1 / 2 <= x <= IZR (round_half_even x) + 1 / 2)%R.
Proof.
  unfold round_half_even. pose proof (Int_part_le x). pose proof (Int_part_lt x).
  destruct (Rlt_dec (x - IZR (Int_part x)) (1 / 2)); [lra |].
  destruct (Rlt_dec (1 / 2) (x - IZR (Int_part x))); [rewrite plus_IZR; lra |].
  destruct (Z.even (Int_part x)); [lra | rewrite plus_IZR; lra].
Qed.

Lemma pow10_pos n : (0 < 10 ^ n)%R.
Proof. apply pow_lt. lra. Qed.

(** [round(x, n)] leaves a number of [n] decimals alone. *)
Lemma py_round_exact n k : py_round n (IZR k / 10 ^ n) = (IZR k / 10 ^ n)%R.
Proof.
  unfold py_round. pose proof (pow10_pos n).
  replace (IZR k / 10 ^ n * 10 ^ n)%R with (IZR k) by (field; lra).
  by rewrite round_half_even_IZR.
Qed.




Lemma py_round_4_100 : py_round 4 100 = 100%R.
Proof.
  replace 100%R with (IZR 1000000 / 10 ^ 4)%R at 1 by (cbn; lra).
  rewrite py_round_exact. cbn. lra.
Qed.

Lemma py_round_4_1 : py_round 4 1 = 1%R.
Proof.
  replace 1%R with (IZR 10000 / 10 ^ 4)%R at 1 by (cbn; lra).
  rewrite py_round_exact. cbn. lra.
Qed.

(** [foldl] with an accumulator is the accumulator plus the sum. *)
Lemma foldl_Rplus (l : list R) (a : R) : foldl Rplus a l = (a + sum l)%R.
Proof.
  unfold sum. revert a. induction l as [|x l IH]; intros a; cbn; [lra |].
  rewrite (IH (a + x)%R), (IH (0 + x)%R). lra.
Qed.

Lemma ln_2_lt_1 : (ln 2 < 1)%R.
Proof.
  rewrite <- (ln_exp 1). apply ln_increasing; [lra |].
  pose proof (exp_ineq1 1). lra.
Qed.

Lemma ln_3_ge_1 : (1 <= ln 3)%R.
Proof.
  rewrite <- (ln_exp 1) at 1. pose proof exp_le_3 as H.
  destruct H as [H | H].
  - left. apply ln_increasing; [apply exp_pos | exact H].
  - rewrite H. lra.
Qed.



End FloatFacts.

(* ===================================================================== *)
(** ** The scorer *)
(* ===================================================================== *)

Module ScoringFacts.
Import Text Dates Normalizer Store Schema Engine FloatFacts.


Lemma recency_factor_recent x : (x <= 12)%R -> recency_factor x = 1%R.
Proof. intros H. unfold recency_factor. case_match; [reflexivity | contradiction]. Qed.


Lemma evidence_factor_full cs : 3 <= MaxEvidenceStrength cs -> evidence_factor cs = 1%R.
Proof.
  intros H. apply IZR_le in H. unfold evidence_factor, Rmin.
  case_match; lra.
Qed.


Lemma norm_penalty_none cs :
  NormalizationMethod cs <> "vector"%string -> norm_penalty cs = 1%R.
Proof.
  intros H. unfold norm_penalty.
  destruct (String.eqb_spec (NormalizationMethod cs) "vector"); [contradiction | reflexivity].
Qed.


(** [min(1.0, math.log(1 + ratio))] for a ratio that is not negative. *)
Lemma exp_factor_bounds ratio :
  (0 <= ratio)%R ->
  Float.py_log (1 + ratio) = Some (ln (1 + ratio))
  /\ (0 <= Rmin 1 (ln (1 + ratio)) <= 1)%R.
Proof.
  intros H. unfold Float.py_log.
  destruct (Rlt_dec 0 (1 + ratio)) as [_|]; [| lra]. split; [reflexivity |].
  assert (0 <= ln (1 + ratio))%R.
  { destruct H as [H | <-].
    - left. rewrite <- ln_1. apply ln_increasing; lra.
    - rewrite Rplus_0_r, ln_1. lra. }
  unfold Rmin. case_match; lra.
Qed.

(** The experience factor is 1 from [e - 1] times the months asked on. *)
Lemma exp_factor_full ratio :
  (exp 1 <= 1 + ratio)%R ->
  Float.py_log (1 + ratio) = Some (ln (1 + ratio))
  /\ Rmin 1 (ln (1 + ratio)) = 1%R.
Proof.
  intros H. pose proof (exp_pos 1) as Hpos. unfold Float.py_log.
  destruct (Rlt_dec 0 (1 + ratio)) as [_|]; [| lra]. split; [reflexivity |].
  assert (1 <= ln (1 + ratio))%R.
  { rewrite <- (ln_exp 1) at 1. destruct H as [H | <-]; [| lra].
    left. apply ln_increasing; lra. }
  unfold Rmin. case_match; lra.
Qed.

Section Scoring.

Variable db : database.
Variable get_embedding : string -> embedding.
Variable today : datetime.





(** The value of a contribution. *)
Lemma contribution_value jd req cs ratio last_used :
  (0 < 1 + ratio)%R ->
  LastUsedDate cs = Some last_used ->
  contribution db today jd req cs ratio =
    Some ((composite_weight db jd req * Rmin 1 (ln (1 + ratio))
           * recency_factor (months_since today last_used)
           * evidence_factor cs * norm_penalty cs)%R,
          recency_factor (months_since today last_used), evidence_factor cs).
Proof.
  intros Hpos Hlast. unfold contribution, Float.py_log, composite_weight.
  destruct (Rlt_dec 0 (1 + ratio)); [| contradiction]. cbn.
  rewrite Hlast. reflexivity.
Qed.






Lemma by_skill_fold (P : skill_row -> Prop) l (m : gmap string skill_row) code row :
  (forall k v, m !! k = Some v -> P v) ->
  (forall r, In r l -> P r) ->
  foldl (fun (m : gmap string skill_row) r => <[SkillCode (row_ms r) := r]> m) m l
    !! code = Some row ->
  P row.
Proof.
  revert m. induction l as [|x rest IH]; intros m Hm Hl; cbn.
  - apply Hm.
  - apply IH.
    + intros k v. rewrite lookup_insert. case_decide.
      * intros [= <-]. apply Hl. by left.
      * apply Hm.
    + intros r Hr. apply Hl. by right.
Qed.

Lemma by_skill_in rows code row : by_skill rows !! code = Some row -> In row rows.
Proof.
  unfold by_skill. apply (by_skill_fold (fun r => In r rows)); [| auto].
  intros k v H. rewrite lookup_empty in H. discriminate.
Qed.

Lemma best_row_in first rest : In (best_row first rest) (first :: rest).
Proof.
  unfold best_row. revert first. induction rest as [|x rest IH]; intros first; cbn.
  - by left.
  - destruct (pair_ltb (row_cs first) (row_cs x)).
    + right. apply IH.
    + destruct (IH first) as [<- | H]; [by left | right; by right].
Qed.

Lemma by_category_in rows category row :
  In row (by_category rows category) -> In row rows.
Proof.
  unfold by_category. intros H. apply list_elem_of_In in H.
  apply list_elem_of_filter in H as [_ H]. by apply list_elem_of_In.
Qed.


(** The sum of the composite weights of a list of requirements. *)
Definition weights_sum (jd : JobSkillProfile) (reqs : list Requirement) : R :=
  foldl (fun max_score req => (max_score + composite_weight db jd req)%R) 0%R reqs.

Lemma weights_fold jd reqs a :
  foldl (fun max_score req => (max_score + composite_weight db jd req)%R) a reqs
  = (a + weights_sum jd reqs)%R.
Proof.
  unfold weights_sum. revert a. induction reqs as [|req rest IH]; intros a; cbn.
  - lra.
  - rewrite (IH (a + _)%R), (IH (0 + _)%R). lra.
Qed.

Lemma weights_sum_cons jd req rest :
  weights_sum jd (req :: rest) = (composite_weight db jd req + weights_sum jd rest)%R.
Proof. unfold weights_sum at 1. cbn. rewrite weights_fold. lra. Qed.








Lemma max_score_exact jd :
  (exists k, weights_sum jd (requirements jd) = (IZR k / 10 ^ 4)%R) ->
  calculate_max_possible_score db jd = weights_sum jd (requirements jd).
Proof.
  intros [k Hk]. unfold calculate_max_possible_score.
  change (foldl _ 0%R (requirements jd)) with (weights_sum jd (requirements jd)).
  rewrite Hk. apply py_round_exact.
Qed.



(** The score a skill requirement adds when the candidate has a row for
    the code it resolves to. *)
Lemma score_requirement_matched jd rows r m code row min_months last_used :
  match_requirement db get_embedding jd r = Some m ->
  matched_code m = Some code ->
  by_skill rows !! code = Some row ->
  SkillRequirement.min_months r = Some min_months ->
  LastUsedDate (row_cs row) = Some last_used ->
  let ratio := (IZR (TotalMonths (row_cs row)) / IZR (Z.max min_months 1))%R in
  (0 < 1 + ratio)%R ->
  exists item,
    score_requirement db get_embedding today jd rows (SkillReq r)
    = Some ((composite_weight db jd (SkillReq r) * Rmin 1 (ln (1 + ratio))
             * recency_factor (months_since today last_used)
             * evidence_factor (row_cs row) * norm_penalty (row_cs row))%R,
            item)
    /\ b_months item = TotalMonths (row_cs row)
    /\ b_last_used_date item = Some last_used.
Proof.
  intros Hm Hcode Hrow Hmm Hlast ratio Hpos. cbn [score_requirement].
  rewrite Hm. cbn [mbind option_bind]. rewrite Hcode. cbn [mbind option_bind].
  rewrite Hrow, Hmm. cbn [mbind option_bind]. fold ratio.
  rewrite (contribution_value jd (SkillReq r) (row_cs row) ratio last_used Hpos Hlast).
  cbn [mbind option_bind]. rewrite Hlast. cbn [mbind option_bind].
  eexists. repeat split.
Qed.

(** The score of a candidate against a profile of one skill requirement,
    when [max_score] is not 0. *)
Lemma score_candidate_single candidate jd r max_score final item :
  requirements jd = [SkillReq r] ->
  score_requirement db get_embedding today jd (candidate_rows db candidate)
    (SkillReq r) = Some (final, item) ->
  max_score <> 0%R ->
  _score_candidate db get_embedding today candidate jd max_score
  = Some (Float.py_round 4 ((0 + final) / max_score * 100), [item]).
Proof.
  intros Hreqs Hs Hmax. unfold _score_candidate. rewrite Hreqs.
  cbn [score_requirements]. rewrite Hs. cbn.
  destruct (Req_dec_T max_score 0); [contradiction | reflexivity].
Qed.

(** Without rows in the weight table every skill weight is 1. *)
Lemma skill_weight_default jd req :
  RoleSkillTypeWeights db = [] -> skill_weight db jd req = 1%R.
Proof.
  intros H. unfold skill_weight, skill_type_weights. rewrite H. cbn.
  rewrite lookup_empty. reflexivity.
Qed.

End Scoring.

End ScoringFacts.

(* ===================================================================== *)
(** ** Runs of the scorer *)
(* ===================================================================== *)

Module ScoringRuns.
Import Text Dates Normalizer Store Schema Engine FloatFacts ScoringFacts Fixture.

Definition python_requirement : SkillRequirement.t :=
  SkillRequirement.mk "Python" explicit hard programming (Some 12) None
    resume_skill.

(** The profile of the runs has one requirement, of weight 1. *)
Lemma jd_python_weight db :
  RoleSkillTypeWeights db = [] ->
  weights_sum db jd_python (requirements jd_python) = 1%R
  /\ composite_weight db jd_python (SkillReq python_requirement) = 1%R
  /\ calculate_max_possible_score db jd_python = 1%R.
Proof.
  intros H.
  assert (Hc : composite_weight db jd_python (SkillReq python_requirement) = 1%R).
  { unfold composite_weight. rewrite (skill_weight_default db _ _ H). cbn. lra. }
  assert (Hs : weights_sum db jd_python (requirements jd_python) = 1%R).
  { change (requirements jd_python) with [SkillReq python_requirement].
    rewrite weights_sum_cons, Hc. unfold weights_sum. cbn. lra. }
  repeat split; [exact Hs | exact Hc |].
  rewrite max_score_exact; [exact Hs |].
  exists 10000. rewrite Hs. cbn. lra.
Qed.

(** "Python" resolves to the Python entry of the small taxonomy. *)
Lemma python_resolves db :
  MasterSkills db = masters ->
  match_requirement db no_embedding jd_python python_requirement
  = Some (NormalizerFacts.hit python 1 "exact").
Proof.
  intros H. unfold match_requirement, master_skill_list, vector_index. rewrite H.
  reflexivity.
Qed.

Lemma months_since_may : (months_since the_day (mk_datetime 2024 5 1 0) <= 12)%R.
Proof.
  unfold months_since.
  replace (toordinal the_day - toordinal (mk_datetime 2024 5 1 0)) with 31
    by (vm_compute; reflexivity).
  lra.
Qed.




End ScoringRuns.

(* ===================================================================== *)
(** ** The order of the ranking *)
(* ===================================================================== *)

Module RankingFacts.
Import Text Dates Normalizer Store Schema Engine FloatFacts ScoringFacts.

#[local] Instance R_eq_dec : EqDecision R := Req_dec_T.

(** The order of the ranking: the later result has no greater score. *)
Definition not_below (a b : ranked_result) : Prop := (score b <= score a)%R.

Lemma insert_by_score_perm x l : Permutation (insert_by_score x l) (x :: l).
Proof.
  induction l as [|y ys IH]; cbn; [reflexivity |].
  destruct (Rlt_dec (score x) (score y)); [| reflexivity].
  rewrite IH. apply perm_swap.
Qed.

Lemma sort_by_score_perm l : Permutation (sort_by_score l) l.
Proof.
  induction l as [|x xs IH]; cbn; [reflexivity |].
  rewrite insert_by_score_perm. by constructor.
Qed.

Lemma insert_by_score_sorted x l :
  StronglySorted not_below l -> StronglySorted not_below (insert_by_score x l).
Proof.
  induction 1 as [|y ys Hs IH Hy]; cbn.
  - repeat constructor.
  - destruct (Rlt_dec (score x) (score y)) as [Hlt | Hge].
    + constructor; [exact IH |].
      rewrite insert_by_score_perm. constructor; [unfold not_below; lra | exact Hy].
    + constructor; [by constructor |].
      constructor; [unfold not_below; lra |].
      eapply Forall_impl; [exact Hy |]. unfold not_below. intros z Hz. lra.
Qed.

Lemma sort_by_score_sorted l : StronglySorted not_below (sort_by_score l).
Proof.
  induction l as [|x xs IH]; cbn; [constructor | by apply insert_by_score_sorted].
Qed.

(** The results of one score, in the order the list has them. *)
Definition with_score (s : R) (l : list ranked_result) : list ranked_result :=
  filter (fun r => score r = s) l.

Lemma insert_by_score_stable s x l :
  with_score s (insert_by_score x l) = with_score s (x :: l).
Proof.
  unfold with_score. induction l as [|y ys IH]; cbn [insert_by_score]; [reflexivity |].
  destruct (Rlt_dec (score x) (score y)) as [Hlt | Hge]; [| reflexivity].
  rewrite filter_cons, IH, !filter_cons.
  destruct (decide (score x = s)), (decide (score y = s)); try reflexivity. lra.
Qed.

Lemma sort_by_score_stable s l : with_score s (sort_by_score l) = with_score s l.
Proof.
  induction l as [|x xs IH]; cbn [sort_by_score]; [reflexivity |].
  rewrite insert_by_score_stable. unfold with_score in *.
  rewrite !filter_cons, IH. reflexivity.
Qed.

Lemma firstn_sorted n l :
  StronglySorted not_below l -> StronglySorted not_below (firstn n l).
Proof.
  intros H. revert n. induction H as [|y ys Hs IH Hy]; intros [|n]; cbn;
    try constructor; [apply IH |].
  apply Forall_forall. intros z Hz. rewrite Forall_forall in Hy. apply Hy.
  exact (subseteq_take n ys z Hz).
Qed.

Lemma slice_to_take {A} limit (l : list A) :
  0 <= limit -> slice_to limit l = take (Z.to_nat limit) l.
Proof.
  intros H. unfold slice_to. destruct (Z.leb_spec 0 limit); [reflexivity | lia].
Qed.

(** What the entry of one candidate holds. *)
Definition entry_of db get_embedding today jd (candidate : Z) (r : ranked_result)
    : Prop :=
  candidate_id r = candidate
  /\ exists s breakdown,
       _score_candidate db get_embedding today candidate jd
         (calculate_max_possible_score db jd) = Some (s, breakdown)
       /\ score r = Float.py_round 4 s
       /\ map experience_months (skill_breakdown r) = map b_months breakdown
       /\ map last_used_date (skill_breakdown r) = map b_last_used_date breakdown.

Lemma rank_one_entry db get_embedding today jd candidate r :
  rank_one db get_embedding today jd (calculate_max_possible_score db jd) candidate
  = Some r ->
  entry_of db get_embedding today jd candidate r.
Proof.
  unfold rank_one, entry_of. intros H.
  destruct (_score_candidate db get_embedding today candidate jd _)
    as [[s breakdown]|]; [| discriminate].
  cbn [mbind option_bind] in H.
  destruct (find _ (Candidates db)) as [[c full_name]|]; [| discriminate].
  cbn in H. injection H as <-. cbn. split; [reflexivity |].
  exists s, breakdown. rewrite !map_map. cbn.
  repeat split; reflexivity.
Qed.

Lemma rank_one_returns db get_embedding today jd candidate s breakdown row :
  _score_candidate db get_embedding today candidate jd
    (calculate_max_possible_score db jd) = Some (s, breakdown) ->
  find (fun row => fst row =? candidate) (Candidates db) = Some row ->
  exists r,
    rank_one db get_embedding today jd (calculate_max_possible_score db jd) candidate
    = Some r.
Proof.
  intros Hs Hf. unfold rank_one. rewrite Hs. cbn [mbind option_bind].
  rewrite Hf. cbn. eexists. reflexivity.
Qed.

Section Ranking.

Variable db : database.
Variable get_embedding : string -> embedding.
Variable today : datetime.
Variable set_iter : gset Z -> list Z.

(** C9, as the code has it. For a limit that is not negative the list
    under ["results"] is the first [limit] entries of the sorted list of the
    entries of the eligible candidates. The sorted list has the same
    entries, no entry above one of a smaller score, and the entries of one
    score in the order in which the eligible set was iterated: the months
    and the date of last use play no part. *)
Theorem ranking_order jd limit results :
  0 <= limit ->
  rank_candidates db get_embedding today set_iter jd limit = Some results ->
  exists eligible ranked,
    get_eligible_candidates db get_embedding today jd = Some eligible
    /\ (eligible = ∅ -> ranked = [])
    /\ (eligible <> ∅ ->
        Forall2 (entry_of db get_embedding today jd) (set_iter eligible) ranked)
    /\ results = take (Z.to_nat limit) (sort_by_score ranked)
    /\ sort_by_score ranked ≡ₚ ranked
    /\ StronglySorted not_below (sort_by_score ranked)
    /\ (forall s, with_score s (sort_by_score ranked) = with_score s ranked)
    /\ StronglySorted not_below results.
Proof.
  intros Hlimit H. unfold rank_candidates in H.
  destruct (get_eligible_candidates db get_embedding today jd) as [eligible|];
    [| discriminate].
  cbn [mbind option_bind] in H. exists eligible.
  destruct (decide (eligible = ∅)) as [Hempty | Hsome].
  - injection H as <-. exists []. cbn [sort_by_score]. rewrite take_nil.
    repeat apply conj; try done; constructor.
  - destruct (mapM _ (set_iter eligible)) as [ranked|] eqn:Hmap; [| discriminate].
    cbn in H. injection H as <-. exists ranked.
    rewrite slice_to_take by exact Hlimit.
    repeat apply conj.
    + done.
    + intros Hempty. contradiction.
    + intros _. apply mapM_Some in Hmap.
      eapply Forall2_impl; [exact Hmap |]. intros c r. apply rank_one_entry.
    + reflexivity.
    + apply sort_by_score_perm.
    + apply sort_by_score_sorted.
    + intros s. apply sort_by_score_stable.
    + apply firstn_sorted, sort_by_score_sorted.
Qed.

End Ranking.

End RankingFacts.

(* ===================================================================== *)
(** ** Runs of the ranking *)
(* ===================================================================== *)

Module RankingRuns.
Import Text Dates Normalizer Store Schema Engine FloatFacts ScoringFacts.
Import RankingFacts Fixture ScoringRuns.

Definition may_day : datetime := mk_datetime 2024 5 1 0.

(** A candidate of the two-candidate store, with at least 24 months of
    Python against the 12 asked for, scores 100. *)
Lemma python_candidate_full c months :
  by_skill (candidate_rows db_two c) !! "language_python"%string
  = Some (mk_skill_row (python_row c 0 months may_day) python) ->
  24 <= months ->
  exists item,
    _score_candidate db_two no_embedding the_day c jd_python
      (calculate_max_possible_score db_two jd_python) = Some (100%R, [item])
    /\ b_months item = months
    /\ b_last_used_date item = Some may_day.
Proof.
  intros Hrow Hmonths.
  destruct (jd_python_weight db_two eq_refl) as (Hs & Hc & Hmax).
  assert (Hratio : (exp 1 <= 1 + IZR months / 12)%R).
  { pose proof exp_le_3. apply IZR_le in Hmonths. lra. }
  destruct (score_requirement_matched db_two no_embedding the_day jd_python
              (candidate_rows db_two c) python_requirement
              (NormalizerFacts.hit python 1 "exact") "language_python"
              (mk_skill_row (python_row c 0 months may_day) python)
              12 may_day)
    as (item & Hscore & Hm & Hl);
    [apply (python_resolves db_two eq_refl) | reflexivity | exact Hrow
    | reflexivity | reflexivity
    | cbn [row_cs TotalMonths python_row]; change (Z.max 12 1) with 12;
      pose proof (exp_pos 1); rewrite Z.add_0_l; lra |].
  exists item. repeat apply conj; [| rewrite Hm; cbn; lia | exact Hl].
  rewrite Hmax.
  rewrite (score_candidate_single db_two no_embedding the_day c jd_python
             python_requirement 1 _ item eq_refl Hscore) by lra.
  do 2 f_equal. rewrite <- py_round_4_100 at 2. f_equal.
  rewrite Hc, (recency_factor_recent (months_since the_day may_day) months_since_may).
  rewrite evidence_factor_full by (cbn; lia).
  rewrite norm_penalty_none by (cbn; discriminate).
  cbn [row_cs TotalMonths python_row]. change (Z.max 12 1) with 12.
  rewrite Z.add_0_l.
  destruct (exp_factor_full (IZR months / 12) Hratio) as [_ ->]. lra.
Qed.

(** The entry of such a candidate. *)
Lemma python_candidate_entry c months full_name :
  by_skill (candidate_rows db_two c) !! "language_python"%string
  = Some (mk_skill_row (python_row c 0 months may_day) python) ->
  24 <= months ->
  find (fun row => fst row =? c) (Candidates db_two) = Some (c, full_name) ->
  exists r,
    rank_one db_two no_embedding the_day jd_python
      (calculate_max_possible_score db_two jd_python) c = Some r
    /\ candidate_id r = c
    /\ score r = 100%R
    /\ map experience_months (skill_breakdown r) = [months]
    /\ map last_used_date (skill_breakdown r) = [Some may_day].
Proof.
  intros Hrow Hmonths Hfind.
  destruct (python_candidate_full c months Hrow Hmonths) as (item & Hs & Hm & Hl).
  destruct (rank_one_returns _ _ _ _ _ _ _ _ Hs Hfind) as (r & Hr).
  exists r. split; [exact Hr |].
  destruct (rank_one_entry _ _ _ _ _ _ Hr) as (Hid & s & b & Hs' & Hscore & Hms & Hls).
  rewrite Hs in Hs'. injection Hs' as <- <-.
  repeat apply conj.
  - exact Hid.
  - rewrite Hscore. apply py_round_4_100.
  - rewrite Hms. cbn. by rewrite Hm.
  - rewrite Hls. cbn. by rewrite Hl.
Qed.

(** The ranking of the two candidates, the eligible set iterated in
    ascending order. *)
Lemma python_ranking :
  exists first second,
    rank_candidates db_two no_embedding the_day ascending jd_python 50
    = Some [first; second]
    /\ (candidate_id first = 1 /\ candidate_id second = 2)
    /\ (score first = 100%R /\ score second = 100%R)
    /\ (map experience_months (skill_breakdown first) = [24]
        /\ map experience_months (skill_breakdown second) = [36])
    /\ (map last_used_date (skill_breakdown first) = [Some may_day]
        /\ map last_used_date (skill_breakdown second) = [Some may_day]).
Proof.
  destruct (python_candidate_entry 1 24 "Asha") as (first & H1 & Hid1 & Hs1 & Hm1 & Hl1);
    [vm_compute; reflexivity | lia | reflexivity |].
  destruct (python_candidate_entry 2 36 "Bo") as (second & H2 & Hid2 & Hs2 & Hm2 & Hl2);
    [vm_compute; reflexivity | lia | reflexivity |].
  exists first, second. repeat apply conj; try assumption.
  unfold rank_candidates.
  replace (get_eligible_candidates db_two no_embedding the_day jd_python)
    with (Some ({[ 1; 2 ]} : gset Z)) by (vm_compute; reflexivity).
  cbn [mbind option_bind].
  destruct (decide (({[ 1; 2 ]} : gset Z) = ∅)) as [Hempty | _]; [set_solver |].
  replace (ascending {[ 1; 2 ]}) with [1; 2] by (vm_compute; reflexivity).
  cbn [mapM]. rewrite H1, H2. cbn [mbind option_bind mret option_ret].
  cbn [sort_by_score insert_by_score]. rewrite Hs1, Hs2.
  destruct (Rlt_dec 100 100) as [Hlt | _]; [lra | reflexivity].
Qed.

(** At limit 50 the two entries come back, the one of a score not above
    the other's last. *)
Lemma ranking_order_witness :
  exists results ranked,
    rank_candidates db_two no_embedding the_day ascending jd_python 50
    = Some results
    /\ results = take 50 (sort_by_score ranked)
    /\ StronglySorted not_below results
    /\ forall s, with_score s (sort_by_score ranked) = with_score s ranked.
Proof.
  destruct python_ranking as (first & second & Hrun & _).
  destruct (ranking_order db_two no_embedding the_day ascending jd_python 50
              [first; second] ltac:(lia) Hrun)
    as (eligible & ranked & _ & _ & _ & Hres & _ & _ & Hstable & Hsorted).
  exists [first; second], ranked. repeat apply conj; assumption.
Defined.

(** C9 as stated fails. The two candidates tie at 100, both last used
    Python on the same day, and the one with 24 months is listed before
    the one with 36: the tie is not broken by the months, the entries stay
    in the order in which the eligible set was iterated. *)
Lemma ranking_tie_counterexample :
  exists first second,
    rank_candidates db_two no_embedding the_day ascending jd_python 50
    = Some [first; second]
    /\ score first = score second
    /\ map experience_months (skill_breakdown first) = [24]
    /\ map experience_months (skill_breakdown second) = [36]
    /\ map last_used_date (skill_breakdown first)
       = map last_used_date (skill_breakdown second).
Proof.
  destruct python_ranking
    as (first & second & Hrun & _ & (Hs1 & Hs2) & (Hm1 & Hm2) & (Hl1 & Hl2)).
  exists first, second. repeat apply conj; try assumption; congruence.
Qed.

End RankingRuns.

(* ===================================================================== *)
(** * Further properties of the sources *)
(* ===================================================================== *)

(* ===================================================================== *)
(** ** Substrings, [str.replace] and [str.split] *)
(* ===================================================================== *)

Module SubstringFacts.
Import Text TextFacts NormalizerFacts.
#[local] Arguments String.append : simpl nomatch.

(** [p] occurs in [s] as a run of consecutive characters. *)
Definition substring_of (p s : string) : Prop := exists a b, s = a +:+ p +:+ b.

Lemma substring_refl s : substring_of s s.
Proof.
  exists EmptyString, EmptyString. cbn.
  induction s as [|c s IH]; cbn; [reflexivity | by rewrite <- IH].
Qed.

Lemma append_empty_r s : s +:+ EmptyString = s.
Proof. induction s as [|c s IH]; cbn; [reflexivity | by rewrite IH]. Qed.

Lemma substring_trans p q s : substring_of p q -> substring_of q s -> substring_of p s.
Proof.
  intros (a & b & ->) (a' & b' & ->). exists (a' +:+ a), (b +:+ b').
  by rewrite !append_assoc.
Qed.

Lemma substring_cons c p s : substring_of p s -> substring_of p (String c s).
Proof. intros (a & b & ->). exists (String c a), b. reflexivity. Qed.

Lemma substring_prefix_cons c p s :
  (exists b, s = p +:+ b) -> exists b, String c s = String c p +:+ b.
Proof. intros (b & ->). exists b. reflexivity. Qed.

Lemma contains_substring w p s :
  substring_of p s -> contains w p = true -> contains w s = true.
Proof.
  intros (a & b & ->) H. destruct (contains_split _ _ H) as (a' & b' & ->).
  rewrite !append_assoc, <- (append_assoc a a'). apply contains_app.
Qed.

Lemma all_chars_app f a b :
  all_chars f (a +:+ b) = all_chars f a && all_chars f b.
Proof.
  induction a as [|c a IH]; cbn; [reflexivity |]. by rewrite IH, andb_assoc.
Qed.

Lemma all_chars_substring f p s :
  substring_of p s -> all_chars f s = true -> all_chars f p = true.
Proof.
  intros (a & b & ->). rewrite !all_chars_app.
  intros H. apply andb_true_iff in H as [_ H]. by apply andb_true_iff in H as [H _].
Qed.

Lemma lstrip_suffix s : exists a, s = a +:+ lstrip s.
Proof.
  induction s as [|c s (a & IH)]; [by exists EmptyString |]. cbn.
  destruct (is_space c).
  - exists (String c a). cbn. by rewrite <- IH.
  - by exists EmptyString.
Qed.

Lemma rstrip_prefix s : exists b, s = rstrip s +:+ b.
Proof.
  induction s as [|c s (b & IH)]; [by exists EmptyString |]. cbn.
  destruct (rstrip s) as [|d r] eqn:E.
  - destruct (is_space c).
    + exists (String c s). reflexivity.
    + exists b. cbn. by rewrite IH at 1.
  - exists b. cbn. by rewrite IH at 1.
Qed.

Lemma strip_substring s : substring_of (strip s) s.
Proof.
  unfold strip. destruct (lstrip_suffix s) as (a & Ha).
  destruct (rstrip_prefix (lstrip s)) as (b & Hb).
  exists a, b. by rewrite <- Hb.
Qed.

(** *** [strip] leaves a stripped text as it is *)

Lemma lstrip_head s :
  match lstrip s with
  | EmptyString => True
  | String c _ => is_space c = false
  end.
Proof.
  induction s as [|c s IH]; cbn; [exact I |].
  destruct (is_space c) eqn:E; [exact IH | exact E].
Qed.

Lemma rstrip_idem s : rstrip (rstrip s) = rstrip s.
Proof.
  induction s as [|c s IH]; cbn; [reflexivity |].
  destruct (rstrip s) as [|d r] eqn:E.
  - destruct (is_space c) eqn:Ec; cbn; [reflexivity | by rewrite Ec].
  - cbn [rstrip]. cbn [rstrip] in IH. rewrite IH. reflexivity.
Qed.

Lemma strip_idem s : strip (strip s) = strip s.
Proof.
  unfold strip. pose proof (lstrip_head s) as H.
  destruct (lstrip s) as [|c r]; [reflexivity |].
  rewrite (rstrip_cons_nonspace c r H). cbn [lstrip]. rewrite H.
  rewrite <- (rstrip_cons_nonspace c r H). apply rstrip_idem.
Qed.

(** *** Lower case *)

Definition not_upper (c : ascii) : bool := negb (is_upper c).

Lemma lower_char_not_upper c : not_upper (lower_char c) = true.
Proof.
  destruct c as [[] [] [] [] [] [] [] []]; vm_compute; reflexivity.
Qed.

Lemma lower_not_upper s : all_chars not_upper (lower s) = true.
Proof.
  induction s as [|c s IH]; cbn; [reflexivity |].
  by rewrite lower_char_not_upper, IH.
Qed.

Lemma lower_fixed s : all_chars not_upper s = true -> lower s = s.
Proof.
  induction s as [|c s IH]; cbn; [reflexivity |].
  intros H. apply andb_true_iff in H as [Hc Hs]. rewrite (IH Hs).
  unfold lower_char. unfold not_upper in Hc. by destruct (is_upper c).
Qed.

Lemma lower_idem s : lower (lower s) = lower s.
Proof. apply lower_fixed, lower_not_upper. Qed.

(** *** [str.replace(old, new)] *)

(** A text [w] does not hold the character [h]. *)
Definition lacks (h : ascii) (w : string) : bool :=
  all_chars (fun c => negb (Ascii.eqb c h)) w.

Lemma prefix_cons_inv c w d s :
  String.prefix (String c w) (String d s) = true -> c = d /\ String.prefix w s = true.
Proof. cbn. destruct (ascii_dec c d); [by intros | discriminate]. Qed.

Lemma prefix_cons_same c w s :
  String.prefix (String c w) (String c s) = String.prefix w s.
Proof. cbn. destruct (ascii_dec c c); [reflexivity | congruence]. Qed.

(** What [w] starts the replaced text with, it starts the text with,
    when it lacks the first character of [repl]. *)
Lemma sub_literal_prefix v h repl w :
  lacks h w = true ->
  forall prev s,
    String.prefix w (sub_from (p_literal v) (String h repl) prev 0 s) = true ->
    String.prefix w s = true.
Proof.
  induction w as [|c w IH]; intros Hw prev s H; [by destruct s |].
  cbn in Hw. apply andb_true_iff in Hw as [Hc Hw].
  destruct s as [|d s]; [cbn in H; discriminate |].
  cbn [sub_from] in H. unfold p_literal at 1 in H.
  destruct (String.prefix v (String d s)).
  - destruct (String.length v).
    + apply prefix_cons_inv in H as [-> H]. rewrite prefix_cons_same. eauto.
    + cbn in H. destruct (ascii_dec c h) as [->|]; [| discriminate].
      rewrite Ascii.eqb_refl in Hc. discriminate.
  - apply prefix_cons_inv in H as [-> H]. rewrite prefix_cons_same. eauto.
Qed.

Lemma contains_cons w c s :
  contains w (String c s) = String.prefix w (String c s) || contains w s.
Proof. reflexivity. Qed.

(** No occurrence starts inside [repl] when [repl] lacks the first
    character of [w]. *)
Lemma contains_after c w repl s :
  lacks c repl = true ->
  contains (String c w) (repl +:+ s) = contains (String c w) s.
Proof.
  induction repl as [|d repl IH]; intros H; [reflexivity |].
  cbn in H. apply andb_true_iff in H as [Hd H].
  change (String d repl +:+ s) with (String d (repl +:+ s)).
  rewrite contains_cons, (IH H). cbn [String.prefix].
  destruct (ascii_dec c d) as [->|]; [| reflexivity].
  rewrite Ascii.eqb_refl in Hd. discriminate.
Qed.

(** Replacing a literal brings no new occurrence of [w], when [w] and
    the replacement are apart as above. *)
Lemma sub_literal_contains v h repl c w :
  lacks h (String c w) = true -> lacks c (String h repl) = true ->
  forall prev k s,
    contains (String c w) (sub_from (p_literal v) (String h repl) prev k s) = true ->
    contains (String c w) s = true.
Proof.
  intros Hh Hc prev k s. revert prev k.
  induction s as [|d s IH]; intros prev k H; [cbn in H; discriminate |].
  rewrite contains_cons. apply orb_true_iff.
  destruct k as [|k].
  - pose proof H as H'. cbn [sub_from] in H. unfold p_literal at 1 in H.
    destruct (String.prefix v (String d s)) eqn:Ev.
    + destruct (String.length v) eqn:El.
      * rewrite contains_cons in H. apply orb_true_iff in H as [H | H].
        -- left. apply prefix_cons_inv in H as [-> H]. rewrite prefix_cons_same.
           apply andb_true_iff in Hh as [_ Hh].
           exact (sub_literal_prefix v h repl w Hh _ _ H).
        -- right. eauto.
      * rewrite contains_after in H by exact Hc. right. eauto.
    + rewrite contains_cons in H. apply orb_true_iff in H as [H | H].
      * left. apply prefix_cons_inv in H as [-> H]. rewrite prefix_cons_same.
        apply andb_true_iff in Hh as [_ Hh].
        exact (sub_literal_prefix v h repl w Hh _ _ H).
      * right. eauto.
  - right. cbn [sub_from] in H. eauto.
Qed.

(** After the replacement no occurrence of the literal is left. *)
Lemma sub_literal_gone h repl c w :
  lacks h (String c w) = true -> lacks c (String h repl) = true ->
  forall prev k s,
    contains (String c w) (sub_from (p_literal (String c w)) (String h repl) prev k s)
    = false.
Proof.
  intros Hh Hc prev k s. revert prev k.
  induction s as [|d s IH]; intros prev k; [reflexivity |].
  destruct k as [|k]; [| cbn [sub_from]; apply IH].
  cbn [sub_from]. unfold p_literal at 1.
  destruct (String.prefix (String c w) (String d s)) eqn:Ev.
  - cbn [String.length]. rewrite contains_after by exact Hc. apply IH.
  - rewrite contains_cons, IH, orb_false_r.
    match goal with
    | |- ?t = false => destruct t eqn:E; [| reflexivity]
    end.
    apply prefix_cons_inv in E as [-> E].
    apply andb_true_iff in Hh as [_ Hh].
    apply (sub_literal_prefix _ h repl w Hh) in E.
    rewrite prefix_cons_same in Ev. congruence.
Qed.

(** A literal that does not occur is not replaced. *)
Lemma sub_literal_absent v repl s :
  contains v s = false -> forall prev, sub_from (p_literal v) repl prev 0 s = s.
Proof.
  induction s as [|d s IH]; intros H prev; [reflexivity |].
  rewrite contains_cons in H. apply orb_false_iff in H as [Hp Hs].
  cbn [sub_from]. unfold p_literal at 1. rewrite Hp. by rewrite IH.
Qed.

Lemma sub_literal_chars f v repl :
  all_chars f repl = true ->
  forall prev k s,
    all_chars f s = true ->
    all_chars f (sub_from (p_literal v) repl prev k s) = true.
Proof.
  intros Hr prev k s. revert prev k.
  induction s as [|d s IH]; intros prev k H; [reflexivity |].
  cbn in H. apply andb_true_iff in H as [Hd Hs].
  destruct k as [|k]; cbn [sub_from]; [| by apply IH].
  destruct (p_literal v prev (String d s)) as [[|n]|].
  - cbn. by rewrite Hd, IH.
  - rewrite all_chars_app, Hr. by apply IH.
  - cbn. by rewrite Hd, IH.
Qed.

(** *** [str.split(sep)] *)

Lemma split_on_head sep s :
  exists w ws b, split_on sep s = w :: ws /\ s = w +:+ b.
Proof.
  induction s as [|c s (w & ws & b & E & Hs)]; cbn.
  - by exists EmptyString, [], EmptyString.
  - destruct (Ascii.eqb c sep).
    + by exists EmptyString, (split_on sep s), (String c s).
    + rewrite E. exists (String c w), ws, b. split; [reflexivity |].
      cbn. by rewrite <- Hs.
Qed.

Lemma split_on_parts sep s :
  Forall (fun p => substring_of p s /\ lacks sep p = true) (split_on sep s).
Proof.
  induction s as [|c s IH]; cbn.
  - repeat constructor. apply substring_refl.
  - destruct (Ascii.eqb c sep) eqn:E.
    + constructor.
      * split; [| reflexivity]. exists EmptyString, (String c s). reflexivity.
      * eapply Forall_impl; [exact IH |]. intros p [Hp Hl].
        split; [by apply substring_cons | exact Hl].
    + destruct (split_on_head sep s) as (w & ws & b & Es & Hs).
      rewrite Es in IH |- *.
      apply Forall_cons in IH as [[Hw Hl] IH]. constructor.
      * split; [| unfold lacks in *; cbn; by rewrite E, Hl].
        exists EmptyString, b. cbn. by rewrite <- Hs.
      * eapply Forall_impl; [exact IH |]. intros p [Hp Hl'].
        split; [by apply substring_cons | exact Hl'].
Qed.

Lemma split_on_absent sep s : lacks sep s = true -> split_on sep s = [s].
Proof.
  induction s as [|c s IH]; [reflexivity |]. unfold lacks. cbn.
  intros H. apply andb_true_iff in H as [Hc Hs].
  apply negb_true_iff in Hc. rewrite Hc, (IH Hs). reflexivity.
Qed.

(** A character occurs in a text as a one-character text does. *)
Lemma lacks_contains c s : lacks c s = negb (contains (String c EmptyString) s).
Proof.
  induction s as [|d s IH]; [reflexivity |].
  unfold lacks in *. cbn [all_chars]. rewrite IH, contains_cons. cbn [String.prefix].
  rewrite negb_orb. f_equal.
  destruct (ascii_dec c d) as [->|Hn].
  - rewrite Ascii.eqb_refl. by destruct s.
  - destruct (Ascii.eqb_spec d c); [congruence | reflexivity].
Qed.

End SubstringFacts.

(* ===================================================================== *)
(** ** Composite skills and the mentions of a job *)
(* ===================================================================== *)

Module SplitFacts.
Import Text TextFacts NormalizerFacts SubstringFacts Normalizer Postprocessor Vectorizer.
#[local] Arguments String.append : simpl nomatch.

Lemma sub_absent_kept v c w s :
  lacks "|" (String c w) = true -> lacks c "|" = true ->
  contains (String c w) s = false ->
  contains (String c w) (sub (p_literal v) "|" s) = false.
Proof.
  intros Hh Hc Hs. destruct (contains _ (sub _ _ _)) eqn:E; [| reflexivity].
  apply (sub_literal_contains v "|" EmptyString c w Hh Hc) in E. congruence.
Qed.

Lemma sub_gone c w s :
  lacks "|" (String c w) = true -> lacks c "|" = true ->
  contains (String c w) (sub (p_literal (String c w)) "|" s) = false.
Proof. intros Hh Hc. by apply sub_literal_gone. Qed.

(** The text with every separator replaced by the bar. *)
Definition barred (text : string) : string :=
  foldl (fun t sep => sub (p_literal sep) "|" t) text COMPOSITE_SEPARATORS.

Lemma barred_no_separator text :
  Forall (fun sep => contains sep (barred text) = false) COMPOSITE_SEPARATORS.
Proof.
  unfold barred, COMPOSITE_SEPARATORS. cbn [foldl].
  repeat constructor;
    repeat (first [ apply sub_gone; reflexivity
                  | apply sub_absent_kept; [reflexivity | reflexivity |] ]).
Qed.

Lemma barred_chars f text :
  f "|"%char = true -> all_chars f text = true -> all_chars f (barred text) = true.
Proof.
  intros Hb H. unfold barred, COMPOSITE_SEPARATORS. cbn [foldl]. unfold sub.
  repeat (apply sub_literal_chars; [cbn; by rewrite Hb |]). exact H.
Qed.

Lemma barred_absent text :
  Forall (fun sep => contains sep text = false) COMPOSITE_SEPARATORS ->
  barred text = text.
Proof.
  intros H. unfold barred. revert text H.
  induction COMPOSITE_SEPARATORS as [|sep seps IH]; intros text H; [reflexivity |].
  apply Forall_cons in H as [Hsep H]. cbn [foldl]. unfold sub at 2.
  rewrite (sub_literal_absent _ _ _ Hsep). by apply IH.
Qed.

(** A skill name that [split_composite_skill] has nothing to do on: at
    least two characters, no white space around it, no capital, no bar
    and none of the separators. *)
Definition atomic (p : string) : Prop :=
  (2 <= String.length p)%nat
  /\ strip p = p
  /\ lower p = p
  /\ Forall (fun sep => contains sep p = false) ("|"%string :: COMPOSITE_SEPARATORS).

Lemma split_composite_skill_unfold raw :
  split_composite_skill raw
  = if negb (truthy raw) then []
    else filter (fun p => negb (String.length p <? 2)%nat)
           (map strip (split_on "|" (barred (strip (lower raw))))).
Proof. reflexivity. Qed.

Lemma split_atomic p : atomic p -> split_composite_skill p = [p].
Proof.
  intros (Hlen & Hstrip & Hlower & Hsep). apply Forall_cons in Hsep as [Hbar Hsep].
  rewrite split_composite_skill_unfold.
  destruct p as [|c p]; [cbn in Hlen; lia |]. cbn [truthy negb].
  rewrite Hlower, Hstrip, (barred_absent _ Hsep).
  rewrite split_on_absent by (rewrite lacks_contains, Hbar; reflexivity).
  cbn [map]. rewrite Hstrip. rewrite filter_cons_True; [reflexivity |].
  apply Is_true_true, negb_true_iff, Nat.ltb_ge. exact Hlen.
Qed.

Lemma split_parts_atomic raw : Forall atomic (split_composite_skill raw).
Proof.
  rewrite split_composite_skill_unfold. destruct (negb (truthy raw)); [constructor |].
  set (text := barred (strip (lower raw))).
  assert (Hup : all_chars not_upper text = true).
  { apply barred_chars; [reflexivity |].
    eapply all_chars_substring; [apply strip_substring | apply lower_not_upper]. }
  apply list.Forall_forall. intros p Hp.
  apply list_elem_of_filter in Hp as [Hlen Hp].
  apply list_elem_of_fmap in Hp as (q & -> & Hq).
  pose proof (split_on_parts "|" text) as Hparts.
  rewrite list.Forall_forall in Hparts.
  destruct (Hparts q Hq) as [Hsub Hbar].
  assert (Hsub' : substring_of (strip q) text)
    by (eapply substring_trans; [apply strip_substring | exact Hsub]).
  repeat apply conj.
  - apply Is_true_true, negb_true_iff, Nat.ltb_ge in Hlen. exact Hlen.
  - apply strip_idem.
  - apply lower_fixed. eapply all_chars_substring; [exact Hsub' | exact Hup].
  - constructor.
    + destruct (contains "|" (strip q)) eqn:E; [| reflexivity].
      apply (contains_substring _ _ _ (strip_substring q)) in E.
      rewrite lacks_contains, E in Hbar. discriminate.
    + eapply Forall_impl; [apply (barred_no_separator (strip (lower raw))) |].
      intros sep Hsep. destruct (contains sep (strip q)) eqn:E; [| reflexivity].
      apply (contains_substring _ _ _ Hsub') in E. fold text in Hsep. congruence.
Qed.

(** [split_composite_skill]: every part it returns is atomic (lower case,
    stripped, at least two characters, free of the bar and of every
    separator, so also of [+], [/], the comma and the backslash), and
    splitting the parts again changes nothing. *)
Theorem split_composite_skill_parts raw :
  Forall atomic (split_composite_skill raw)
  /\ flat_map split_composite_skill (split_composite_skill raw)
     = split_composite_skill raw.
Proof.
  split; [apply split_parts_atomic |].
  pose proof (split_parts_atomic raw) as H.
  induction H as [|p ps Hp _ IH]; [reflexivity |].
  cbn [flat_map]. rewrite (split_atomic p Hp), IH. reflexivity.
Qed.

(** What a mention owes to the item of [extracted_skills] it comes
    from. *)
Definition mention_of (responsibilities : string) (s : extracted_skill)
    (m : mention) : Prop :=
  source s <> "implicit"%string
  /\ mention_source m = source s
  /\ mention_confidence m = default 1%R (skill_confidence s)
  /\ mention_context m = responsibilities
  /\ mention_raw_name m ∈ split_composite_skill (raw_name s).

Lemma mentions_of skills responsibilities :
  Forall (fun m => exists s, s ∈ skills /\ mention_of responsibilities s m)
    (get_job_skill_mentions skills responsibilities).
Proof.
  apply list.Forall_forall. intros m Hm. unfold get_job_skill_mentions in Hm.
  apply list_elem_of_In, in_flat_map in Hm as (s & Hs & Hm).
  apply list_elem_of_In in Hs, Hm. exists s. split; [exact Hs |].
  destruct (String.eqb_spec (source s) "implicit") as [|Hsrc];
    [by apply not_elem_of_nil in Hm |].
  apply list_elem_of_fmap in Hm as (p & -> & Hp).
  pose proof (split_parts_atomic (raw_name s)) as Hat.
  rewrite list.Forall_forall in Hat. destruct (Hat p Hp) as (_ & Hstrip & _).
  repeat apply conj; try done. cbn. by rewrite Hstrip.
Qed.

(** [get_job_skill_mentions]: every mention comes from an item that is
    not implicit, whose source and confidence (1.0 when the item has
    none) it carries, with the responsibilities of the job as context; its
    name is one of the atomic parts of the item's name. *)
Theorem job_skill_mentions_spec skills responsibilities :
  Forall (fun m =>
            mention_source m <> "implicit"%string
            /\ atomic (mention_raw_name m)
            /\ exists s, s ∈ skills /\ mention_of responsibilities s m)
    (get_job_skill_mentions skills responsibilities).
Proof.
  eapply Forall_impl; [apply mentions_of |].
  intros m (s & Hs & Hm). pose proof Hm as (Hsrc & Hms & _ & _ & Hp).
  split; [| split].
  - by rewrite Hms.
  - pose proof (split_parts_atomic (raw_name s)) as Hat.
    rewrite list.Forall_forall in Hat. by apply Hat.
  - by exists s.
Qed.

(** The mention with its context emptied. *)
Definition without_context (m : mention) : mention :=
  mk_mention (mention_raw_name m) (mention_source m) (mention_confidence m) "".

(** The sync runs [get_job_skill_mentions] on the roles of the profile,
    whose mentions [build_professional_profile] made with the same
    function. The second pass splits nothing and drops nothing: it gives
    the same mentions back, with the empty context of an entry that has
    no responsibilities. *)
Theorem second_pass_keeps_mentions role_title duration start end_ skills
    responsibilities :
  role_skill_mentions
    (mk_candidate_role role_title duration start end_
       (get_job_skill_mentions skills responsibilities))
  = map without_context (get_job_skill_mentions skills responsibilities).
Proof.
  unfold role_skill_mentions. cbn [role_mentions].
  pose proof (mentions_of skills responsibilities) as H.
  induction H as [|m ms (s & Hs & Hm) _ IH]; [reflexivity |].
  destruct Hm as (Hsrc & Hms & _ & _ & Hp).
  pose proof (split_parts_atomic (raw_name s)) as Hat.
  rewrite list.Forall_forall in Hat. pose proof (Hat _ Hp) as Hatomic.
  cbn [map]. unfold get_job_skill_mentions in IH |- *. cbn [flat_map].
  rewrite IH. cbn [source raw_name skill_confidence].
  rewrite Hms. destruct (String.eqb_spec (source s) "implicit"); [contradiction |].
  rewrite (split_atomic _ Hatomic). cbn [map app].
  destruct Hatomic as (_ & -> & _). unfold without_context. by rewrite Hms.
Qed.

End SplitFacts.

(* ===================================================================== *)
(** ** The normalization method and the vector tier *)
(* ===================================================================== *)

Module MethodFacts.
Import Text Dates Normalizer Dto Postprocessor Store Vectorizer Schema Engine.
Import NormalizerFacts.

(** One step of the [max] of [resolve_normalization_method]. *)
Definition better (best x : string) : string :=
  if NORMALIZATION_PRIORITY best <? NORMALIZATION_PRIORITY x then x else best.

Lemma first_greatest rest : forall best,
  exists pre post,
    best :: rest = pre ++ foldl better best rest :: post
    /\ Forall (fun m => NORMALIZATION_PRIORITY m
                        < NORMALIZATION_PRIORITY (foldl better best rest)) pre
    /\ Forall (fun m => NORMALIZATION_PRIORITY m
                        <= NORMALIZATION_PRIORITY (foldl better best rest)) post.
Proof.
  induction rest as [|x xs IH]; intros best; cbn [foldl].
  - exists [], []. repeat split; constructor.
  - unfold better at 2 4 6.
    destruct (Z.ltb_spec (NORMALIZATION_PRIORITY best) (NORMALIZATION_PRIORITY x))
      as [Hlt | Hge].
    + destruct (IH x) as (pre & post & E & Hpre & Hpost).
      exists (best :: pre), post. rewrite E. repeat split; [| exact Hpost].
      constructor; [| exact Hpre].
      assert (Hx : NORMALIZATION_PRIORITY x
                   <= NORMALIZATION_PRIORITY (foldl better x xs)).
      { destruct pre as [|p pre]; cbn in E.
        - injection E as E _. rewrite <- E. lia.
        - injection E as E _. subst p. apply Forall_cons in Hpre as [Hp _]. lia. }
      lia.
    + destruct (IH best) as (pre & post & E & Hpre & Hpost).
      remember (foldl better best xs) as r eqn:Er. clear Er IH.
      destruct pre as [|p pre]; cbn in E.
      * injection E as E E'. exists [], (x :: xs). subst r xs.
        repeat split; [constructor |]. constructor; [lia | exact Hpost].
      * injection E as E E'. subst p xs. exists (best :: x :: pre), post.
        repeat split; [| exact Hpost].
        apply Forall_cons in Hpre as [Hb Hpre].
        repeat constructor; [exact Hb | lia | exact Hpre].
Qed.

Lemma priority_exact m : 4 <= NORMALIZATION_PRIORITY m -> m = "exact"%string.
Proof.
  unfold NORMALIZATION_PRIORITY.
  destruct (String.eqb_spec m "exact"); [done |].
  repeat (case_match; try lia).
Qed.

Lemma resolve_unfold m rest :
  resolve_normalization_method (m :: rest) = foldl better m rest.
Proof. reflexivity. Qed.

(** [resolve_normalization_method]: ["unknown"] for the empty list;
    otherwise the first method of the list that no method of the list
    beats in priority, so ["exact"] as soon as the list holds it. *)
Theorem resolve_normalization_method_spec methods :
  match methods with
  | [] => resolve_normalization_method methods = "unknown"%string
  | _ :: _ =>
      (exists pre post,
         methods = pre ++ resolve_normalization_method methods :: post
         /\ Forall (fun m => NORMALIZATION_PRIORITY m
                             < NORMALIZATION_PRIORITY
                                 (resolve_normalization_method methods)) pre
         /\ Forall (fun m => NORMALIZATION_PRIORITY m
                             <= NORMALIZATION_PRIORITY
                                  (resolve_normalization_method methods)) post)
      /\ ("exact"%string ∈ methods ->
          resolve_normalization_method methods = "exact"%string)
  end.
Proof.
  destruct methods as [|m rest]; [reflexivity |].
  rewrite resolve_unfold. destruct (first_greatest rest m) as (pre & post & E & Hpre & Hpost).
  split; [by exists pre, post |].
  intros Hin. apply priority_exact. rewrite E in Hin.
  rewrite list.Forall_forall in Hpre, Hpost.
  apply elem_of_app in Hin as [Hin | Hin].
  - specialize (Hpre _ Hin). cbn in Hpre. lia.
  - apply elem_of_cons in Hin as [<- | Hin]; [done |].
    specialize (Hpost _ Hin). cbn in Hpost. lia.
Qed.

(** *** The vector tier on rows that have no [skill_ref] *)

Definition no_ref (index : list vector_entry) : Prop :=
  Forall (fun e => skill_ref e = None) index.

Lemma vector_rows_no_ref master_skills : no_ref (vector_rows master_skills).
Proof. unfold no_ref, vector_rows. apply Forall_map. by apply Forall_true. Qed.

Lemma vector_index_no_ref db : no_ref (vector_index db).
Proof. unfold no_ref, vector_index. apply Forall_map. by apply Forall_true. Qed.

(** On such an index the tier has two ways out: no match, or the
    [AttributeError]. *)
Lemma vector_tier_no_ref n c index embed_fn r :
  no_ref index ->
  vector_tier n c index embed_fn = Some r -> r = no_result "no_match".
Proof.
  intros Hno H. unfold vector_tier in H.
  destruct index as [|x l]; [by inversion H |].
  destruct embed_fn as [embed|]; [| by inversion H].
  pose proof (scan_spec (embed n) (x :: l)) as S.
  destruct (scan (embed n) (x :: l)) as [[entry|] score]; [| by inversion H].
  destruct (Rge_dec score 0.92); [| by inversion H].
  destruct S as (Hin & _). unfold no_ref in Hno. rewrite List.Forall_forall in Hno.
  rewrite (Hno entry Hin) in H. discriminate.
Qed.

Lemma vector_tier_raises n c index embed e :
  no_ref index -> In e index ->
  (0.92 <= cosine_similarity (embed n) (entry_embedding e))%R ->
  vector_tier n c index (Some embed) = None.
Proof.
  intros Hno Hin Hcos. unfold vector_tier.
  destruct index as [|x l]; [destruct Hin |].
  pose proof (scan_spec (embed n) (x :: l)) as S.
  destruct (scan (embed n) (x :: l)) as [[entry|] score].
  - destruct S as (Hentry & _ & _ & Hmax). specialize (Hmax e Hin).
    destruct (Rge_dec score 0.92); [| lra].
    unfold no_ref in Hno. rewrite List.Forall_forall in Hno.
    rewrite (Hno entry Hentry). reflexivity.
  - destruct S as (_ & Hmax). specialize (Hmax e Hin). lra.
Qed.

Lemma accept_method skill n c conf m :
  method (accept skill n c conf m) = m
  \/ method (accept skill n c conf m) = "disambiguation_blocked"%string.
Proof. unfold accept. destruct (passes_disambiguation skill n c); cbn; auto. Qed.

Lemma matcher_no_ref raw master_skills index embed_fn context flag r :
  no_ref index ->
  normalize_and_match_skill raw master_skills index embed_fn context flag = Some r ->
  method r <> "vector"%string.
Proof.
  intros Hno H. unfold normalize_and_match_skill in H.
  destruct (negb (truthy (canonical raw))); [by inversion H |].
  destruct (find (exact_hit _) _) as [s|].
  { inversion H. by destruct (accept_method s (canonical raw) (normalize_text context) 1 "exact") as [-> | ->]. }
  destruct (find (alias_hit _) _) as [s|].
  { inversion H. by destruct (accept_method s (canonical raw) (normalize_text context) 0.95 "alias") as [-> | ->]. }
  destruct (find (rule_hit _) _) as [s|].
  { inversion H. by destruct (accept_method s (canonical raw) (normalize_text context) 0.90 "rule") as [-> | ->]. }
  by rewrite (vector_tier_no_ref _ _ _ _ _ Hno H).
Qed.

(** The engine hands the matcher the rows of [MasterSkills] as the vector
    index, and they have no attribute [skill_ref]. So the matcher never
    answers with the method "vector"; when the three first tiers find
    nothing and a vector of the table has a cosine of 0.92 or more with
    the embedding of the skill, the call raises. *)
Theorem engine_vector_tier_never_answers (db : database)
    (get_embedding : string -> embedding) (jd : JobSkillProfile)
    (r : SkillRequirement.t) :
  let n := canonical (SkillRequirement.raw_skill r) in
  (forall m, match_requirement db get_embedding jd r = Some m ->
             method m <> "vector"%string)
  /\ (truthy n = true ->
      find (exact_hit n) (MasterSkills db) = None ->
      find (alias_hit n) (MasterSkills db) = None ->
      find (rule_hit n) (MasterSkills db) = None ->
      (exists ms, In ms (MasterSkills db)
                  /\ (0.92 <= cosine_similarity (get_embedding n) (SkillVector ms))%R) ->
      match_requirement db get_embedding jd r = None).
Proof.
  intros n. split.
  - intros m. apply matcher_no_ref, vector_index_no_ref.
  - intros Hn He Ha Hr (ms & Hin & Hcos). unfold match_requirement, master_skill_list.
    rewrite (matcher_vector _ _ _ _ _ _ Hn He Ha Hr).
    apply (vector_tier_raises _ _ _ _ (mk_vector_entry (SkillVector ms) None));
      [apply vector_index_no_ref | | exact Hcos].
    unfold vector_index. apply in_map_iff. by exists ms.
Qed.

End MethodFacts.

(* ===================================================================== *)
(** ** What the ingestion records, and what it cannot score *)
(* ===================================================================== *)

Module IngestionFacts.
Import Text Dates Duration Normalizer Dto Postprocessor Store Vectorizer Schema Engine.
Import NormalizerFacts AggregationFacts MethodFacts ResumeFixture.

Lemma resolve_in_or_unknown methods :
  resolve_normalization_method methods ∈ methods
  \/ resolve_normalization_method methods = "unknown"%string.
Proof.
  destruct methods as [|m rest]; [by right |]. left.
  rewrite resolve_unfold. destruct (first_greatest rest m) as (pre & post & E & _).
  remember (foldl better m rest) as r eqn:Er. clear Er. rewrite E.
  apply elem_of_app. right. apply elem_of_cons. by left.
Qed.

Section Methods.

Variable dparse : string -> option datetime.
Variable get_embedding : string -> embedding.
Variable master_skills : list master_skill.

Lemma process_mention_no_vector lv months start end_ st m st' :
  process_mention master_skills (vector_rows master_skills) (Some get_embedding)
    lv months start end_ st m = Some st' ->
  "vector"%string ∉ confidence_sources (snd st) ->
  "vector"%string ∉ confidence_sources (snd st').
Proof.
  intros H Hst.
  destruct (process_mention_cases _ _ _ _ _ _ _ _ _ _ H)
    as [[_ ->] | (code & acc' & r & _ & _ & Hsrc & _ & Hr & _)]; [exact Hst |].
  rewrite Hsrc. intros Hin. apply elem_of_app in Hin as [Hin | Hin]; [by apply Hst |].
  apply list_elem_of_singleton in Hin.
  apply (matcher_no_ref _ _ _ _ _ _ _ (vector_rows_no_ref master_skills) Hr).
  by symmetry.
Qed.

Lemma process_mentions_no_vector lv months start end_ mentions : forall st st',
  process_mentions master_skills (vector_rows master_skills) (Some get_embedding)
    lv months start end_ st mentions = Some st' ->
  "vector"%string ∉ confidence_sources (snd st) ->
  "vector"%string ∉ confidence_sources (snd st').
Proof.
  induction mentions as [|m rest IH]; intros st st' H Hst; cbn in H.
  - by inversion H; subst.
  - destruct (process_mention _ _ _ _ _ _ _ _ _) as [st1|] eqn:E; cbn in H;
      [| discriminate].
    eapply IH; [exact H |]. eapply process_mention_no_vector; eauto.
Qed.

Lemma sync_roles_no_vector roles : forall st st',
  sync_roles dparse get_embedding master_skills roles st = Some st' ->
  "vector"%string ∉ confidence_sources (snd st) ->
  "vector"%string ∉ confidence_sources (snd st').
Proof.
  induction roles as [|role rest IH]; intros st st' H Hst; cbn in H.
  - by inversion H; subst.
  - destruct (process_extracted_skills _ _ _ _ _ _ _ _ _ _ _) as [st1|] eqn:E;
      cbn in H; [| discriminate].
    eapply IH; [exact H |]. unfold process_extracted_skills in E.
    destruct (parse_start dparse _) as [start|]; cbn in E; [| discriminate].
    eapply process_mentions_no_vector; [exact E | exact Hst].
Qed.

(** The sync matches against the rows of [MasterSkills], which have no
    [skill_ref]: no mention is ever recorded with the method "vector". So
    when the list of methods held by the class is free of "vector" before a
    sync that completes, it is free of it afterwards, no row is stored with
    [NormalizationMethod = "vector"], and the penalty of the scorer for
    vector matches applies to none of the rows. *)
Theorem sync_never_records_vector (candidate_id : Z) (roles : list candidate_role)
    (cls cls' : SkillMetrics_class) (skill_map : gmap string SkillMetrics)
    (rows : list candidate_skill_row) :
  sync_profile_to_master dparse get_embedding master_skills candidate_id roles cls
  = Some (skill_map, cls', rows) ->
  "vector"%string ∉ confidence_sources cls ->
  ("vector"%string ∉ confidence_sources cls')
  /\ Forall (fun row => NormalizationMethod row <> "vector"%string
                        /\ norm_penalty row = 1%R) rows.
Proof.
  unfold sync_profile_to_master. intros H Hcls.
  destruct (sync_roles dparse get_embedding master_skills roles (∅, cls))
    as [st|] eqn:E; [| discriminate].
  inversion H; subst skill_map cls' rows; clear H.
  pose proof (sync_roles_no_vector _ _ _ E Hcls) as Hno. split; [exact Hno |].
  apply list.Forall_forall. intros row Hin.
  apply list_elem_of_omap in Hin as ([code acc] & _ & Hrow).
  unfold store_candidate_skill in Hrow.
  destruct (find _ master_skills); cbn in Hrow; [| discriminate].
  inversion Hrow; subst row; clear Hrow.
  assert (Hm : resolve_normalization_method (confidence_sources (snd st))
               <> "vector"%string).
  { destruct (resolve_in_or_unknown (confidence_sources (snd st))) as [Hin' | ->];
      [| discriminate].
    intros Heq. rewrite Heq in Hin'. contradiction. }
  split; [exact Hm |]. unfold norm_penalty. cbn.
  unfold read_confidence_sources.
  destruct (String.eqb_spec (resolve_normalization_method (confidence_sources (snd st)))
              "vector"); [contradiction | reflexivity].
Qed.

End Methods.

(** The sync of the senior Java role records "exact" only. *)
Lemma sync_never_records_vector_witness :
  exists skill_map cls' rows,
    sync_profile_to_master strptime_ymd Fixture.no_embedding Fixture.masters 7
      [java_role] SkillMetrics_class_init = Some (skill_map, cls', rows)
    /\ ("vector"%string ∉ confidence_sources cls')
    /\ Forall (fun row => NormalizationMethod row <> "vector"%string
                          /\ norm_penalty row = 1%R) rows.
Proof.
  destruct (sync_profile_to_master strptime_ymd Fixture.no_embedding
              Fixture.masters 7 [java_role] SkillMetrics_class_init)
    as [[[skill_map cls'] rows]|] eqn:E; [| vm_compute in E; discriminate].
  exists skill_map, cls', rows. split; [reflexivity |].
  apply (sync_never_records_vector _ _ _ _ _ _ _ _ _ E).
  cbn. apply not_elem_of_nil.
Defined.

(** *** The sources a mention can be scored with *)

Lemma max_strength_unknown (sources : gset string) src :
  src ∈ sources -> EVIDENCE_STRENGTH src = None -> max_strength sources = None.
Proof.
  intros Hin Hsrc. unfold max_strength.
  destruct (mapM EVIDENCE_STRENGTH (elements sources)) as [strengths|] eqn:E;
    [| reflexivity].
  assert (Hall : is_Some (mapM EVIDENCE_STRENGTH (elements sources))) by eauto.
  apply mapM_is_Some in Hall. rewrite list.Forall_forall in Hall.
  destruct (Hall src) as [x Hx]; [by apply elem_of_elements |].
  cbn in Hx. congruence.
Qed.

Lemma scored_sources src w strength :
  SOURCE_EVIDENCE_WEIGHT src = Some w -> EVIDENCE_STRENGTH src = Some strength ->
  src = "skills_section"%string \/ src = "responsibility"%string.
Proof.
  unfold SOURCE_EVIDENCE_WEIGHT, EVIDENCE_STRENGTH.
  destruct (String.eqb_spec src "skills_section"); [by left |].
  destruct (String.eqb_spec src "responsibility"); [by right |].
  destruct (String.eqb_spec src "technology_list") as [->|]; [discriminate |].
  destruct (String.eqb_spec src "implicit") as [->|]; discriminate.
Qed.

Section Sources.

Variable dparse : string -> option datetime.
Variable master_skills : list master_skill.
Variable vector_index : list vector_entry.
Variable embed_fn : option (string -> embedding).

Lemma process_mention_source lv months start end_ st m code :
  mention_code master_skills vector_index embed_fn m = Some (Some code) ->
  mention_source m <> "skills_section"%string ->
  mention_source m <> "responsibility"%string ->
  process_mention master_skills vector_index embed_fn lv months start end_ st m
  = None.
Proof.
  intros Hcode Hs Hr.
  destruct (process_mention master_skills vector_index embed_fn lv months start
              end_ st m) as [st'|] eqn:E; [| reflexivity].
  exfalso. unfold process_mention in E. unfold mention_code in Hcode.
  destruct (normalize_and_match_skill _ _ _ _ _ _) as [r|]; cbn in E, Hcode;
    [| discriminate].
  destruct (matched_code r) as [c|]; [| by inversion Hcode].
  destruct (truthy c); cbn in E; [| by inversion Hcode].
  set (acc := add_level_months lv months (lookup_acc st.1 c)) in *.
  destruct (match first_used acc with
            | Some f => start ≫= λ s, Some (Some (dt_min f s))
            | None => Some start
            end) as [first|]; cbn in E; [| discriminate].
  destruct (SOURCE_EVIDENCE_WEIGHT (mention_source m)) as [w|] eqn:Hw; cbn in E;
    [| discriminate].
  destruct (EVIDENCE_STRENGTH (mention_source m)) as [s|] eqn:Hst.
  - destruct (scored_sources _ _ _ Hw Hst); contradiction.
  - rewrite (max_strength_unknown _ (mention_source m)) in E; [discriminate | | exact Hst].
    apply elem_of_union. left. by apply elem_of_singleton.
Qed.

Lemma process_mentions_source lv months start end_ mentions m code :
  m ∈ mentions ->
  mention_code master_skills vector_index embed_fn m = Some (Some code) ->
  mention_source m <> "skills_section"%string ->
  mention_source m <> "responsibility"%string ->
  forall st,
    process_mentions master_skills vector_index embed_fn lv months start end_ st
      mentions = None.
Proof.
  intros Hin Hcode Hs Hr. induction mentions as [|x rest IH]; intros st.
  - by apply not_elem_of_nil in Hin.
  - cbn. apply elem_of_cons in Hin as [<- | Hin].
    + by rewrite (process_mention_source _ _ _ _ _ _ _ Hcode Hs Hr).
    + destruct (process_mention _ _ _ _ _ _ _ _ _); cbn; [by apply IH | reflexivity].
Qed.

(** [process_extracted_skills] can score a mention the matcher resolves
    only when its source is "skills_section" or "responsibility": for any
    other source one of the two tables of the function has no entry, and
    the call raises. A resolved mention from a technology list, which the
    schema of the extraction allows, is such a mention. *)
Theorem unscored_source_raises (skill_mentions : list mention) (st : agg_state)
    (lv : level) (months : Z) (start_raw : option string) (end_ : datetime)
    (role_title : string) (m : mention) (code : string) :
  m ∈ skill_mentions ->
  mention_code master_skills vector_index embed_fn m = Some (Some code) ->
  mention_source m <> "skills_section"%string ->
  mention_source m <> "responsibility"%string ->
  process_extracted_skills dparse master_skills vector_index embed_fn
    skill_mentions st lv months start_raw end_ role_title = None.
Proof.
  intros Hin Hcode Hs Hr. unfold process_extracted_skills.
  destruct (parse_start dparse start_raw); cbn; [| reflexivity].
  by apply (process_mentions_source _ _ _ _ _ m code).
Qed.

End Sources.

(** "Python" from a technology list, against the small taxonomy. *)
Lemma unscored_source_raises_witness :
  process_extracted_skills strptime_ymd Fixture.masters [] None
    [mk_mention "python" "technology_list" 1 ""] (∅, SkillMetrics_class_init)
    mid 24 (Some "2022-01-01"%string) (mk_datetime 2024 1 1 0) "web engineer"
  = None.
Proof.
  apply (unscored_source_raises strptime_ymd Fixture.masters [] None _ _ _ _ _ _ _
           (mk_mention "python" "technology_list" 1 "") "language_python").
  - apply list_elem_of_singleton. reflexivity.
  - vm_compute. reflexivity.
  - discriminate.
  - discriminate.
Defined.

End IngestionFacts.

(* ===================================================================== *)
(** ** Who the gate lets through *)
(* ===================================================================== *)

Module EligibilityFacts.
Import Text Dates Normalizer Store Schema JDPostProcessor Validators Engine.
Import NormalizerFacts GateFacts RankingFacts Fixture.

Lemma is_hard_level req : is_hard req = true <-> requirement_level req = hard.
Proof. unfold is_hard. destruct (requirement_level req); cbn; split; congruence. Qed.

Lemma no_hard_filter (reqs : list Requirement) :
  Forall (fun req => requirement_level req = soft) reqs ->
  filter is_hard reqs = [].
Proof.
  induction 1 as [|req rest Hreq _ IH]; [reflexivity |].
  rewrite filter_cons_False; [exact IH |].
  unfold is_hard. rewrite Hreq. cbn. tauto.
Qed.

Lemma no_hard_gate db get_embedding today jd :
  filter is_hard (requirements jd) = [] ->
  get_eligible_candidates db get_embedding today jd = Some ∅.
Proof. intros H. unfold get_eligible_candidates. by rewrite H. Qed.

Lemma empty_gate_ranking db get_embedding today set_iter jd limit :
  get_eligible_candidates db get_embedding today jd = Some ∅ ->
  rank_candidates db get_embedding today set_iter jd limit = Some [].
Proof.
  intros H. unfold rank_candidates. rewrite H. cbn.
  destruct (decide ((∅ : gset Z) = ∅)); [reflexivity | contradiction].
Qed.

(** A profile without a hard requirement makes nobody eligible: the gate
    returns the empty set and [rank_candidates] an empty list, whatever
    the store holds. *)
Theorem soft_profile_ranks_nobody (db : database)
    (get_embedding : string -> embedding) (today : datetime)
    (set_iter : gset Z -> list Z) (jd : JobSkillProfile) (limit : Z) :
  Forall (fun req => requirement_level req = soft) (requirements jd) ->
  get_eligible_candidates db get_embedding today jd = Some ∅
  /\ rank_candidates db get_embedding today set_iter jd limit = Some [].
Proof.
  intros H. pose proof (no_hard_gate db get_embedding today jd (no_hard_filter _ H)).
  split; [done | by apply empty_gate_ranking].
Qed.

(** A junior role that only would like React. *)
Definition jd_soft : JobSkillProfile :=
  mk_JobSkillProfile "Junior frontend developer"
    (mk_JobMetadata "Frontend" Junior)
    [ requires "React" soft framework 0 ].

Lemma soft_profile_ranks_nobody_witness :
  get_eligible_candidates db_two no_embedding the_day jd_soft = Some ∅
  /\ rank_candidates db_two no_embedding the_day ascending jd_soft 50 = Some [].
Proof.
  apply (soft_profile_ranks_nobody db_two no_embedding the_day ascending jd_soft 50).
  repeat constructor.
Defined.

(** The hard requirements of the profile are all tools. *)
Definition only_tools_hard (jd : JobSkillProfile) : Prop :=
  Forall (fun req =>
            requirement_level req = hard ->
            exists r, req = SkillReq r /\ SkillRequirement.skill_type_hint r = tool)
    (requirements jd).

Lemma clean_requirements_soft (reqs : list Requirement) :
  Forall (fun req =>
            requirement_level req = hard ->
            exists r, req = SkillReq r /\ SkillRequirement.skill_type_hint r = tool)
    reqs ->
  Forall (fun req => requirement_level req = soft) (clean_requirements reqs).
Proof.
  induction 1 as [|req rest Hreq _ IH]; cbn; constructor; [| exact IH].
  destruct req as [r | r]; cbn.
  - unfold clean_skill.
    destruct (SkillRequirement.requirement_level r) eqn:Hl.
    + destruct (Hreq Hl) as (r' & [= <-] & Hint). rewrite Hint. reflexivity.
    + by destruct (SkillRequirement.skill_type_hint r).
  - destruct (CategoryRequirement.requirement_level r) eqn:Hl; [| reflexivity].
    destruct (Hreq Hl) as (r' & E & _). discriminate.
Qed.

(** [parse_jd_with_inference] validates the profile, which asks for at
    least one hard requirement, and then post-processes it. When every
    hard requirement of a profile is a tool, the post-processor turns them
    all soft: the profile it returns would not pass the validator again,
    nobody is eligible for it, and the ranking is empty. *)
Theorem tool_profile_ranks_nobody (db : database)
    (get_embedding : string -> embedding) (today : datetime)
    (set_iter : gset Z -> list Z) (jd : JobSkillProfile) (limit : Z) :
  only_tools_hard jd ->
  ensure_at_least_one_hard_requirement
    (requirements (post_process_jd_profile jd)) = None
  /\ get_eligible_candidates db get_embedding today (post_process_jd_profile jd)
     = Some ∅
  /\ rank_candidates db get_embedding today set_iter (post_process_jd_profile jd)
       limit = Some [].
Proof.
  intros H. pose proof (clean_requirements_soft _ H) as Hsoft.
  change (clean_requirements (requirements jd))
    with (requirements (post_process_jd_profile jd)) in Hsoft.
  pose proof (no_hard_gate db get_embedding today _ (no_hard_filter _ Hsoft)) as Hg.
  repeat apply conj; [| exact Hg | by apply empty_gate_ranking].
  unfold ensure_at_least_one_hard_requirement.
  destruct (existsb _ _) eqn:E; [| reflexivity].
  apply existsb_exists in E as (req & Hin & Hreq).
  rewrite List.Forall_forall in Hsoft. rewrite (Hsoft req Hin) in Hreq. discriminate.
Qed.

(** A role whose one hard requirement is a tool. *)
Definition jd_docker : JobSkillProfile :=
  mk_JobSkillProfile "Junior backend developer"
    (mk_JobMetadata "Backend" Junior)
    [ requires "Docker" hard tool 12; requires "Python" soft programming 12 ].

(** The validator accepts the profile as the parser returns it, and not
    what the post-processor makes of it. *)
Lemma tool_profile_ranks_nobody_witness :
  ensure_at_least_one_hard_requirement (requirements jd_docker)
  = Some (requirements jd_docker)
  /\ ensure_at_least_one_hard_requirement
       (requirements (post_process_jd_profile jd_docker)) = None
  /\ get_eligible_candidates db_two no_embedding the_day
       (post_process_jd_profile jd_docker) = Some ∅
  /\ rank_candidates db_two no_embedding the_day ascending
       (post_process_jd_profile jd_docker) 50 = Some [].
Proof.
  split; [reflexivity |].
  apply (tool_profile_ranks_nobody db_two no_embedding the_day ascending jd_docker 50).
  repeat constructor.
  - intros _. eexists. split; reflexivity.
  - discriminate.
Defined.

(** *** What an eligible candidate has *)

Section Evidence.

Variable db : database.
Variable get_embedding : string -> embedding.
Variable today : datetime.

(** The candidate has a row that is recent enough and reaches the mid and
    senior months of the level. *)
Definition has_current_row (l : SeniorityLevel) (c : Z) : Prop :=
  exists cs, cs ∈ CandidateSkills db /\ CandidateID cs = c
             /\ seniority_ok today l cs = true.

Lemma skill_query_row ids min_months strength l c :
  c ∈ skill_query db today ids min_months strength l -> has_current_row l c.
Proof.
  unfold skill_query. intros H. apply elem_of_list_to_set in H.
  apply list_elem_of_fmap in H as (cs & -> & H).
  apply list_elem_of_filter in H as [Hf Hin].
  exists cs. repeat split; [exact Hin |].
  apply Is_true_true in Hf. by apply andb_true_iff in Hf as [_ Hf].
Qed.

Lemma category_query_row category min_required strength l c :
  c ∈ category_query db today category min_required strength l ->
  has_current_row l c.
Proof.
  unfold category_query. intros H. apply elem_of_list_to_set in H.
  apply list_elem_of_filter in H as [_ H].
  apply list_elem_of_fmap in H as (cs & -> & H).
  unfold category_rows in H. apply list_elem_of_filter in H as [Hf Hin].
  exists cs. repeat split; [exact Hin |].
  apply Is_true_true in Hf. by apply andb_true_iff in Hf as [_ Hf].
Qed.

Lemma requirement_candidates_row jd req ids c :
  requirement_candidates db get_embedding today jd req = Some (Some ids) ->
  c ∈ ids -> has_current_row (seniority_level (job_metadata jd)) c.
Proof.
  intros H Hc. destruct req as [r | r]; cbn [requirement_candidates] in H.
  - destruct (match_requirement db get_embedding jd r) as [m|];
      cbn [mbind option_bind] in H; [| discriminate H].
    destruct (matched_id m) as [skill_id|];
      [| destruct (matched_code m); discriminate H].
    destruct (matched_code m) as [skill_code|]; [| discriminate H].
    destruct (skill_id =? 0); [discriminate H |].
    destruct (_resolve_skill_tree db skill_code) as [tree|];
      cbn [mbind option_bind] in H; [| discriminate H].
    injection H as <-. eapply skill_query_row. exact Hc.
  - injection H as <-. eapply category_query_row. exact Hc.
Qed.

Lemma gate_loop_rows jd reqs : forall e eligible,
  gate_loop db get_embedding today jd reqs e = Some eligible ->
  (forall e0 c, e = Some e0 -> c ∈ e0 ->
                has_current_row (seniority_level (job_metadata jd)) c) ->
  forall c, c ∈ eligible -> has_current_row (seniority_level (job_metadata jd)) c.
Proof.
  induction reqs as [|req rest IH]; intros e eligible H He c Hc.
  - cbn in H. injection H as <-. destruct e as [e0|]; cbn in Hc.
    + by eapply He.
    + by apply elem_of_empty in Hc.
  - rewrite gate_loop_cons in H.
    destruct (requirement_candidates db get_embedding today jd req)
      as [[ids|]|] eqn:Hreq; [| by eapply IH | discriminate].
    cbn zeta in H. case_decide as Hempty.
    + injection H as <-. by apply elem_of_empty in Hc.
    + eapply IH; [exact H | | exact Hc].
      intros e0 c0 [= <-] Hc0.
      apply (requirement_candidates_row jd req ids c0 Hreq).
      destruct e; [by apply elem_of_intersection in Hc0 as [_ ?] | exact Hc0].
Qed.

(** Every candidate the gate lets through has at least one row in
    [CandidateSkills] that was last used within [RECENCY_MONTHS_LIMIT * 30]
    days of today and has the mid and senior months of the seniority level
    of the profile. *)
Theorem eligible_has_current_row (jd : JobSkillProfile) (eligible : gset Z) (c : Z) :
  get_eligible_candidates db get_embedding today jd = Some eligible ->
  c ∈ eligible ->
  exists cs last,
    cs ∈ CandidateSkills db /\ CandidateID cs = c
    /\ LastUsedDate cs = Some last
    /\ toordinal today - toordinal last <= 1080
    /\ min_mid_months (seniority_level (job_metadata jd)) <= MidMonths cs
    /\ min_senior_months (seniority_level (job_metadata jd)) <= SeniorMonths cs.
Proof.
  intros H Hc. rewrite get_eligible_loop in H.
  destruct (gate_loop_rows jd _ None eligible H) with (c := c)
    as (cs & Hin & Hid & Hok); [discriminate | exact Hc |].
  unfold seniority_ok, recent in Hok.
  apply andb_true_iff in Hok as [Hok Hrecent].
  apply andb_true_iff in Hok as [Hmid Hsenior].
  destruct (LastUsedDate cs) as [last|] eqn:Hlast; [| discriminate].
  exists cs, last. unfold RECENCY_MONTHS_LIMIT in Hrecent.
  repeat split; try done; lia.
Qed.

(** *** The order of the requirements *)

Lemma foldl_inter_comm (s x y : gset Z) (rest : list (gset Z)) :
  foldl (∩) (s ∩ x ∩ y) rest = foldl (∩) (s ∩ y ∩ x) rest.
Proof. f_equal. set_solver. Qed.

Lemma foldl_inter_perm (sets sets' : list (gset Z)) :
  sets ≡ₚ sets' -> forall s, foldl (∩) s sets = foldl (∩) s sets'.
Proof.
  intros H. induction H as [|x l l' H IH|x y l|l l' l'' H1 IH1 H2 IH2];
    intros s; cbn [foldl].
  - reflexivity.
  - apply IH.
  - apply foldl_inter_comm.
  - rewrite IH1. apply IH2.
Qed.

Lemma foldl_inter_start (s x : gset Z) (rest : list (gset Z)) :
  foldl (∩) (s ∩ x) rest = foldl (∩) s rest ∩ x.
Proof.
  revert s. induction rest as [|y rest IH]; intros s; cbn [foldl]; [reflexivity |].
  rewrite <- IH. f_equal. set_solver.
Qed.

Lemma intersection_perm (sets sets' : list (gset Z)) :
  sets ≡ₚ sets' -> intersection sets = intersection sets'.
Proof.
  intros H. induction H as [|x l l' H IH|x y l|l l' l'' H1 IH1 H2 IH2];
    cbn [intersection].
  - reflexivity.
  - by apply foldl_inter_perm.
  - cbn [foldl]. rewrite !foldl_inter_start.
    rewrite <- !foldl_inter_start. f_equal. set_solver.
  - by rewrite IH1.
Qed.

Lemma candidate_sets_perm jd (reqs reqs' : list Requirement) :
  reqs ≡ₚ reqs' -> candidate_sets db get_embedding today jd reqs
                   ≡ₚ candidate_sets db get_embedding today jd reqs'.
Proof. intros H. unfold candidate_sets. by rewrite H. Qed.

(** When no hard requirement raises, the gate does not depend on the
    order in which the profile lists its requirements. *)
Theorem gate_order_independent (jd : JobSkillProfile) (reqs' : list Requirement) :
  requirements jd ≡ₚ reqs' ->
  Forall (evaluates db get_embedding today jd) (filter is_hard (requirements jd)) ->
  get_eligible_candidates db get_embedding today (with_requirements jd reqs')
  = get_eligible_candidates db get_embedding today jd.
Proof.
  intros Hperm Hall.
  assert (Hhard : filter is_hard (requirements jd) ≡ₚ filter is_hard reqs')
    by (by rewrite Hperm).
  rewrite get_eligible_reqs, get_eligible_loop.
  rewrite !gate_loop_none; [| exact Hall | by rewrite <- Hhard].
  f_equal. symmetry. apply intersection_perm. by apply candidate_sets_perm.
Qed.

End Evidence.

(** Both candidates of the store pass the gate, with their rows of
    Python. *)
Lemma eligible_has_current_row_witness :
  exists cs last,
    cs ∈ CandidateSkills db_two /\ CandidateID cs = 1
    /\ LastUsedDate cs = Some last
    /\ toordinal the_day - toordinal last <= 1080
    /\ min_mid_months (seniority_level (job_metadata jd_python)) <= MidMonths cs
    /\ min_senior_months (seniority_level (job_metadata jd_python))
       <= SeniorMonths cs.
Proof.
  apply (eligible_has_current_row db_two no_embedding the_day jd_python {[ 1; 2 ]}).
  - vm_compute. reflexivity.
  - set_solver.
Defined.

(** A profile with Python and, unknown to the taxonomy, Cobol. *)
Definition jd_cobol_python : JobSkillProfile :=
  mk_JobSkillProfile "Junior backend developer"
    (mk_JobMetadata "Backend" Junior)
    [ requires "Python" hard programming 12;
      requires "Cobol" hard programming 12 ].

Lemma gate_order_independent_witness :
  get_eligible_candidates db_two no_embedding the_day
    (with_requirements jd_cobol_python
       [ requires "Cobol" hard programming 12;
         requires "Python" hard programming 12 ])
  = get_eligible_candidates db_two no_embedding the_day jd_cobol_python.
Proof.
  apply (gate_order_independent db_two no_embedding the_day jd_cobol_python).
  - apply perm_swap.
  - repeat constructor.
    + eexists. vm_compute. reflexivity.
    + exists None.
      pose (cobol := SkillRequirement.mk "Cobol" explicit hard programming
                       (Some 12) None resume_skill).
      change (requires "Cobol" hard programming 12) with (SkillReq cobol).
      cbn [requirement_candidates].
      rewrite (cobol_unresolved db_two jd_cobol_python cobol eq_refl eq_refl).
      reflexivity.
Defined.

End EligibilityFacts.

(* ===================================================================== *)
(** ** The factors of the score *)
(* ===================================================================== *)

Module FactorFacts.
Import Text Dates Normalizer Store Schema Engine EngineHelpers.
Import FloatFacts ScoringFacts Fixture.

Lemma max_one_pos m : (0 < IZR (Z.max m 1))%R.
Proof. apply IZR_lt. lia. Qed.

(** The argument of the logarithm is positive exactly from
    [-max(min_months, 1)] months on. *)
Lemma log_argument total m :
  (0 < 1 + IZR total / IZR (Z.max m 1))%R <-> - Z.max m 1 < total.
Proof.
  pose proof (max_one_pos m) as Hm.
  replace (1 + IZR total / IZR (Z.max m 1))%R
    with ((IZR (Z.max m 1) + IZR total) / IZR (Z.max m 1))%R by (field; lra).
  rewrite <- plus_IZR. split.
  - intros H. apply lt_IZR.
    apply (Rmult_lt_compat_r _ _ _ Hm) in H.
    unfold Rdiv in H. rewrite Rmult_assoc, Rinv_l, Rmult_1_r, Rmult_0_l in H by lra.
    rewrite plus_IZR in H. rewrite opp_IZR. lra.
  - intros H. apply Rdiv_lt_0_compat; [| exact Hm]. apply IZR_lt. lia.
Qed.

Lemma experience_factor_value total m :
  - Z.max m 1 < total ->
  experience_factor total m
  = Some (Rmin 1 (ln (1 + IZR total / IZR (Z.max m 1)))).
Proof.
  intros H. apply log_argument in H. unfold experience_factor, Float.py_log.
  destruct (Rlt_dec 0 _); [reflexivity | contradiction].
Qed.

Lemma ratio_le total total' m :
  total <= total' ->
  (IZR total / IZR (Z.max m 1) <= IZR total' / IZR (Z.max m 1))%R.
Proof.
  intros H. pose proof (max_one_pos m). apply IZR_le in H.
  unfold Rdiv. apply Rmult_le_compat_r; [| exact H].
  left. by apply Rinv_0_lt_compat.
Qed.

Lemma ln_le x y : (0 < x)%R -> (x <= y)%R -> (ln x <= ln y)%R.
Proof.
  intros Hx [H | ->]; [| lra]. left. by apply ln_increasing.
Qed.

(** [experience_factor]: it raises when [total_months] is not above
    [-max(min_months, 1)]; otherwise it returns a value of at most 1, which
    is 1 exactly when [1 + total_months / max(min_months, 1)] reaches [e],
    is 0 for no months and not negative for months that are not negative;
    and it never decreases when [total_months] grows. *)
Theorem experience_factor_spec (total min_months : Z) :
  (total <= - Z.max min_months 1 -> experience_factor total min_months = None)
  /\ (- Z.max min_months 1 < total ->
      exists x,
        experience_factor total min_months = Some x
        /\ (x <= 1)%R
        /\ (x = 1%R <-> (exp 1 <= 1 + IZR total / IZR (Z.max min_months 1))%R)
        /\ (0 <= total -> (0 <= x)%R)
        /\ (total = 0 -> x = 0%R))
  /\ (forall total' x x',
        total <= total' ->
        experience_factor total min_months = Some x ->
        experience_factor total' min_months = Some x' ->
        (x <= x')%R).
Proof.
  split; [| split].
  - intros H. unfold experience_factor, Float.py_log.
    destruct (Rlt_dec 0 _) as [Hpos|]; [| reflexivity].
    apply log_argument in Hpos. lia.
  - intros H. eexists. split; [by apply experience_factor_value |].
    pose proof (proj2 (log_argument total min_months) H) as Hpos.
    set (ratio := (IZR total / IZR (Z.max min_months 1))%R) in *.
    split; [apply Rmin_l |]. split; [| split].
    + split.
      * intros Hx. destruct (Rle_dec (exp 1) (1 + ratio)) as [|Hn]; [done |].
        exfalso. apply Rnot_le_lt in Hn.
        assert (ln (1 + ratio) < 1)%R.
        { rewrite <- (ln_exp 1) at 2. by apply ln_increasing. }
        unfold Rmin in Hx. destruct (Rle_dec 1 (ln (1 + ratio))); lra.
      * intros He. by destruct (exp_factor_full ratio He) as [_ ->].
    + intros H0. apply IZR_le in H0. pose proof (max_one_pos min_months).
      assert (0 <= ratio)%R.
      { unfold ratio, Rdiv. apply Rmult_le_pos; [lra |].
        left. by apply Rinv_0_lt_compat. }
      by destruct (exp_factor_bounds ratio) as [_ [? _]].
    + intros ->. unfold ratio. unfold Rdiv. rewrite Rmult_0_l, Rplus_0_r, ln_1.
      unfold Rmin. destruct (Rle_dec 1 0); lra.
  - intros total' x x' Hle Hx Hx'.
    assert (Ht : - Z.max min_months 1 < total).
    { destruct (Z.lt_ge_cases (- Z.max min_months 1) total) as [|Hge]; [done |].
      unfold experience_factor, Float.py_log in Hx.
      destruct (Rlt_dec 0 _) as [Hpos|]; [| discriminate].
      apply log_argument in Hpos. lia. }
    rewrite experience_factor_value in Hx by exact Ht.
    rewrite experience_factor_value in Hx' by lia.
    injection Hx as <-. injection Hx' as <-.
    apply Rle_min_compat_l, ln_le; [by apply log_argument |].
    pose proof (ratio_le total total' min_months Hle). lra.
Qed.

(** [calculate_competency_score]: for months and a weight that are not
    negative the competency lies between 0 and 1 and the final score,
    which is the competency times the weight, between 0 and the weight.
    The gap is counted from the fixed [current_date] of 9 January 2018: a
    skill last used in February 2017 or later, so any skill used after
    that date, has recency 1 and its competency is [min(1, months / 36)]. *)
Theorem competency_score_spec (months : Z) (last_used : datetime) (w : R) :
  0 <= months -> (0 <= w)%R -> valid last_used ->
  let competency := fst (calculate_competency_score months last_used w) in
  let final := snd (calculate_competency_score months last_used w) in
  (0 <= competency <= 1)%R
  /\ final = (competency * w)%R
  /\ (0 <= final <= w)%R
  /\ (dt_leb (mk_datetime 2017 2 1 0) last_used = true ->
      competency = Rmin 1 (IZR months / 36)).
Proof.
  intros Hm Hw (_ & Hmonth & _) competency final.
  unfold competency, final, calculate_competency_score. cbn [fst snd].
  set (gap := (year current_date - year last_used) * 12
              + (month current_date - month last_used)).
  set (depth := Rmin 1 (IZR months / 36)).
  assert (Hd : (0 <= depth <= 1)%R).
  { apply IZR_le in Hm. unfold depth, Rmin.
    destruct (Rle_dec 1 (IZR months / 36)); lra. }
  set (recency := if gap <? 12 then 1%R else if gap <? 48 then 0.6%R else 0.25%R).
  assert (Hr : (0 <= recency <= 1)%R).
  { unfold recency. destruct (gap <? 12), (gap <? 48); lra. }
  assert (Hc : (0 <= depth * recency <= 1)%R) by nra.
  repeat apply conj; try reflexivity; try lra; try nra.
  intros Hlast. unfold recency.
  assert (Hgap : gap < 12).
  { unfold gap, current_date. cbn [year month].
    unfold dt_leb, dt_ltb in Hlast. cbn [year month day tod] in Hlast.
    apply negb_true_iff, orb_false_iff in Hlast as [Hy Hrest].
    apply Z.ltb_ge in Hy.
    destruct (Z.eqb_spec (year last_used) 2017) as [Hy17|Hy17]; [| lia].
    cbn [andb] in Hrest. apply orb_false_iff in Hrest as [Hmo _].
    apply Z.ltb_ge in Hmo. lia. }
  apply Z.ltb_lt in Hgap. rewrite Hgap. lra.
Qed.

Lemma competency_score_spec_witness :
  (0 <= fst (calculate_competency_score 24 (mk_datetime 2024 5 1 0) 1) <= 1)%R
  /\ fst (calculate_competency_score 24 (mk_datetime 2024 5 1 0) 1)
     = Rmin 1 (24 / 36).
Proof.
  destruct (competency_score_spec 24 (mk_datetime 2024 5 1 0) 1)
    as (Hc & _ & _ & Hrecent).
  - lia.
  - lra.
  - repeat split; cbn; lia.
  - split; [exact Hc | apply Hrecent; reflexivity].
Defined.

(** A row the gate counts was last used at most [RECENCY_MONTHS_LIMIT]
    thirty-day months before today: the scorer gives it a recency factor
    of 1 or 0.8, never the 0.6 or 0.3 of older rows. *)
Theorem gated_row_recency (today : datetime) (cs : candidate_skill_row) :
  recent today cs = true ->
  exists last_used,
    LastUsedDate cs = Some last_used
    /\ (months_since today last_used <= 36)%R
    /\ (recency_factor (months_since today last_used) = 1%R
        \/ recency_factor (months_since today last_used) = 0.8%R).
Proof.
  unfold recent. intros H.
  destruct (LastUsedDate cs) as [last|]; [| discriminate].
  exists last. split; [reflexivity |].
  apply Z.leb_le in H. unfold RECENCY_MONTHS_LIMIT in H.
  assert (Hm : (months_since today last <= 36)%R).
  { unfold months_since.
    assert (toordinal today - toordinal last <= 1080) as Hd by lia.
    apply IZR_le in Hd. lra. }
  split; [exact Hm |]. unfold recency_factor.
  destruct (Rle_dec (months_since today last) 12); [by left |].
  destruct (Rle_dec (months_since today last) 36); [by right | contradiction].
Qed.

Lemma gated_row_recency_witness :
  exists last_used,
    LastUsedDate (python_row 1 0 24 (mk_datetime 2024 5 1 0)) = Some last_used
    /\ (months_since the_day last_used <= 36)%R
    /\ (recency_factor (months_since the_day last_used) = 1%R
        \/ recency_factor (months_since the_day last_used) = 0.8%R).
Proof.
  apply (gated_row_recency the_day (python_row 1 0 24 (mk_datetime 2024 5 1 0))).
  vm_compute. reflexivity.
Defined.

End FactorFacts.

(* ===================================================================== *)
(** ** The skill tree *)
(* ===================================================================== *)

Module TreeFacts.
Import Text Dates Normalizer Store Schema Engine Fixture.

Section Tree.

Variable db : database.

(** [x] is the id of a row whose parent is [p]. *)
Definition child_of (p x : Z) : Prop :=
  exists ms, ms ∈ MasterSkills db /\ ParentSkillId ms = Some p /\ SkillID ms = x.

Lemma elem_of_children level x :
  x ∈ children db level <-> exists p, p ∈ level /\ child_of p x.
Proof.
  unfold children. rewrite list_elem_of_In, in_flat_map. split.
  - intros (p & Hp & Hx). apply list_elem_of_In in Hp, Hx.
    apply list_elem_of_fmap in Hx as (ms & -> & Hms).
    apply list_elem_of_filter in Hms as [Hpar Hms].
    apply bool_decide_unpack in Hpar. exists p. split; [exact Hp |]. by exists ms.
  - intros (p & Hp & ms & Hms & Hpar & <-). exists p.
    split; [by apply list_elem_of_In |].
    apply list_elem_of_In, list_elem_of_fmap. exists ms. split; [reflexivity |].
    apply list_elem_of_filter. split; [| exact Hms]. by apply bool_decide_pack.
Qed.

Lemma skill_tree_closed fuel : forall level ids,
  skill_tree db fuel level = Some ids ->
  (forall x, x ∈ level -> x ∈ ids)
  /\ (forall p x, p ∈ ids -> child_of p x -> x ∈ ids)
  /\ (forall x, x ∈ ids -> x ∈ level \/ exists p, p ∈ ids /\ child_of p x).
Proof.
  induction fuel as [|k IH]; intros level ids H.
  - destruct level; cbn in H; [| discriminate]. injection H as <-.
    repeat split; intros; exfalso; eapply not_elem_of_nil; eauto.
  - destruct level as [|l0 level'].
    { cbn in H. injection H as <-.
      repeat split; intros; exfalso; eapply not_elem_of_nil; eauto. }
    remember (l0 :: level') as level eqn:El.
    assert (Hstep : skill_tree db (S k) level
                    = rest ← skill_tree db k (children db level); Some (level ++ rest))
      by (subst level; reflexivity).
    rewrite Hstep in H. clear Hstep El.
    destruct (skill_tree db k (children db level)) as [rest|] eqn:E; cbn in H;
      [| discriminate].
    injection H as <-. destruct (IH _ _ E) as (Hroot & Hclosed & Hfrom).
    repeat split.
    + intros x Hx. apply elem_of_app. by left.
    + intros p x Hp Hc. apply elem_of_app. right.
      apply elem_of_app in Hp as [Hp | Hp].
      * apply Hroot, elem_of_children. by exists p.
      * by apply (Hclosed p).
    + intros x Hx. apply elem_of_app in Hx as [Hx | Hx]; [by left |]. right.
      destruct (Hfrom x Hx) as [Hc | (p & Hp & Hc)].
      * apply elem_of_children in Hc as (p & Hp & Hc). exists p.
        split; [apply elem_of_app; by left | exact Hc].
      * exists p. split; [apply elem_of_app; by right | exact Hc].
Qed.

Lemma skill_tree_loops fuel : forall level x,
  x ∈ level -> child_of x x -> skill_tree db fuel level = None.
Proof.
  induction fuel as [|k IH]; intros level x Hx Hc.
  - destruct level; [by apply not_elem_of_nil in Hx | reflexivity].
  - destruct level as [|l0 level']; [by apply not_elem_of_nil in Hx |].
    remember (l0 :: level') as level eqn:El.
    assert (Hstep : skill_tree db (S k) level
                    = rest ← skill_tree db k (children db level); Some (level ++ rest))
      by (subst level; reflexivity).
    rewrite Hstep. rewrite (IH (children db level) x); [reflexivity | | exact Hc].
    apply elem_of_children. by exists x.
Qed.

(** [_resolve_skill_tree]: the set it returns holds the id of every row
    with the given code and, with an id, the id of every row that names it
    as its parent; it holds nothing else. When a row with the given code is
    its own parent the query does not end, and the call raises. *)
Theorem resolve_skill_tree_spec (root_skill_code : string) :
  (forall ids,
     _resolve_skill_tree db root_skill_code = Some ids ->
     (forall ms, ms ∈ MasterSkills db -> SkillCode ms = root_skill_code ->
                 SkillID ms ∈ ids)
     /\ (forall ms p, ms ∈ MasterSkills db -> p ∈ ids ->
                      ParentSkillId ms = Some p -> SkillID ms ∈ ids)
     /\ (forall x, x ∈ ids ->
           exists ms, ms ∈ MasterSkills db /\ SkillID ms = x
                      /\ (SkillCode ms = root_skill_code
                          \/ exists p, p ∈ ids /\ ParentSkillId ms = Some p)))
  /\ (forall ms, ms ∈ MasterSkills db -> SkillCode ms = root_skill_code ->
                 ParentSkillId ms = Some (SkillID ms) ->
                 _resolve_skill_tree db root_skill_code = None).
Proof.
  assert (Hroots : forall x,
             x ∈ map SkillID
                   (filter (fun ms => String.eqb (SkillCode ms) root_skill_code)
                      (MasterSkills db))
             <-> exists ms, ms ∈ MasterSkills db /\ SkillCode ms = root_skill_code
                            /\ SkillID ms = x).
  { intros x. rewrite list_elem_of_fmap. split.
    - intros (ms & -> & Hms). apply list_elem_of_filter in Hms as [Hc Hms].
      exists ms. repeat split; [exact Hms |].
      apply Is_true_true in Hc. by apply String.eqb_eq.
    - intros (ms & Hms & Hc & <-). exists ms. split; [reflexivity |].
      apply list_elem_of_filter. split; [| exact Hms].
      apply Is_true_true. by apply String.eqb_eq. }
  split.
  - intros ids H. unfold _resolve_skill_tree in H.
    destruct (skill_tree db 101 _) as [l|] eqn:E; cbn in H; [| discriminate].
    injection H as <-. destruct (skill_tree_closed _ _ _ E) as (Hroot & Hclosed & Hfrom).
    repeat split.
    + intros ms Hms Hc. apply elem_of_list_to_set, Hroot, Hroots. by exists ms.
    + intros ms p Hms Hp Hpar. apply elem_of_list_to_set.
      apply elem_of_list_to_set in Hp. apply (Hclosed p); [exact Hp |]. by exists ms.
    + intros x Hx. apply elem_of_list_to_set in Hx.
      destruct (Hfrom x Hx) as [Hr | (p & Hp & ms & Hms & Hpar & Hid)].
      * apply Hroots in Hr as (ms & Hms & Hc & Hid). exists ms. auto.
      * exists ms. repeat split; [exact Hms | exact Hid |]. right. exists p.
        split; [by apply elem_of_list_to_set | exact Hpar].
  - intros ms Hms Hc Hpar. unfold _resolve_skill_tree.
    rewrite (skill_tree_loops 101 _ (SkillID ms)); [reflexivity | |].
    + apply Hroots. by exists ms.
    + by exists ms.
Qed.

End Tree.

(** Python in the small taxonomy, which has no parents. *)
Lemma resolve_skill_tree_spec_witness :
  _resolve_skill_tree db_two "language_python" = Some {[ 2 ]}
  /\ SkillID python ∈ ({[ 2 ]} : gset Z).
Proof.
  assert (H : _resolve_skill_tree db_two "language_python" = Some {[ 2 ]})
    by (vm_compute; reflexivity).
  split; [exact H |].
  destruct (resolve_skill_tree_spec db_two "language_python") as [Hs _].
  destruct (Hs _ H) as (Hroot & _). apply (Hroot python); [| reflexivity].
  apply list_elem_of_In. cbn. tauto.
Defined.

End TreeFacts.

(* ===================================================================== *)
(** ** The breakdown and the entries of the ranking *)
(* ===================================================================== *)

Module BreakdownFacts.
Import Text Dates Normalizer Store Schema Engine.
Import FloatFacts ScoringFacts RankingFacts FactorFacts Fixture ScoringRuns RankingRuns.

(** *** The row a category requirement is scored on *)

Definition pair_lt (a b : candidate_skill_row) : Prop :=
  TotalMonths a < TotalMonths b
  \/ (TotalMonths a = TotalMonths b /\ MaxEvidenceStrength a < MaxEvidenceStrength b).

Lemma pair_ltb_spec a b : pair_ltb a b = true <-> pair_lt a b.
Proof.
  unfold pair_ltb, pair_lt.
  rewrite orb_true_iff, andb_true_iff, !Z.ltb_lt, Z.eqb_eq. tauto.
Qed.

Lemma pair_ltb_false a b : pair_ltb a b = false <-> ~ pair_lt a b.
Proof. rewrite <- pair_ltb_spec. by destruct (pair_ltb a b). Qed.

Definition better_row (best r : skill_row) : skill_row :=
  if pair_ltb (row_cs best) (row_cs r) then r else best.

Lemma best_row_first rest : forall first,
  exists pre post,
    first :: rest = pre ++ foldl better_row first rest :: post
    /\ Forall (fun r => pair_lt (row_cs r) (row_cs (foldl better_row first rest))) pre
    /\ Forall (fun r => ~ pair_lt (row_cs (foldl better_row first rest)) (row_cs r))
         post.
Proof.
  induction rest as [|x xs IH]; intros first; cbn [foldl].
  - exists [], []. repeat split; constructor.
  - unfold better_row at 2 4 6.
    destruct (pair_ltb (row_cs first) (row_cs x)) eqn:Hlt.
    + apply pair_ltb_spec in Hlt.
      destruct (IH x) as (pre & post & E & Hpre & Hpost).
      remember (foldl better_row x xs) as b eqn:Eb. clear Eb IH.
      exists (first :: pre), post. rewrite E. repeat split; [| exact Hpost].
      constructor; [| exact Hpre].
      destruct pre as [|p pre]; cbn in E.
      * injection E as <- _. exact Hlt.
      * injection E as <- _. apply Forall_cons in Hpre as [Hp _].
        unfold pair_lt in *. lia.
    + apply pair_ltb_false in Hlt.
      destruct (IH first) as (pre & post & E & Hpre & Hpost).
      remember (foldl better_row first xs) as b eqn:Eb. clear Eb IH.
      destruct pre as [|p pre]; cbn in E.
      * injection E as <- ->. exists [], (x :: post).
        repeat split; [constructor |]. constructor; [exact Hlt | exact Hpost].
      * injection E as <- ->. exists (first :: x :: pre), post.
        repeat split; [| exact Hpost].
        apply Forall_cons in Hpre as [Hb Hpre].
        constructor; [exact Hb |]. constructor; [| exact Hpre].
        unfold pair_lt in *. lia.
Qed.

(** For a category requirement the scorer takes, among the rows of the
    category, the first one that none of them beats on the pair
    (TotalMonths, MaxEvidenceStrength): every row before it has a smaller
    pair, no row after it a greater one. *)
Theorem best_row_greatest (first : skill_row) (rest : list skill_row) :
  exists pre post,
    first :: rest = pre ++ best_row first rest :: post
    /\ Forall (fun r => pair_lt (row_cs r) (row_cs (best_row first rest))) pre
    /\ Forall (fun r => ~ pair_lt (row_cs (best_row first rest)) (row_cs r)) post.
Proof.
  destruct (best_row_first rest first) as (pre & post & E & Hpre & Hpost).
  exists pre, post. split; [exact E |]. split; [exact Hpre | exact Hpost].
Qed.

(** *** When the scorer raises *)

Section Raises.

Variable db : database.
Variable get_embedding : string -> embedding.
Variable today : datetime.

Lemma score_requirements_raises jd rows reqs req :
  req ∈ reqs ->
  score_requirement db get_embedding today jd rows req = None ->
  forall total breakdown,
    score_requirements db get_embedding today jd rows reqs total breakdown = None.
Proof.
  intros Hin Hreq. induction reqs as [|x rest IH]; intros total breakdown.
  - by apply not_elem_of_nil in Hin.
  - cbn [score_requirements]. apply elem_of_cons in Hin as [<- | Hin].
    + by rewrite Hreq.
    + destruct (score_requirement db get_embedding today jd rows x) as [[f i]|];
        cbn; [by apply IH | reflexivity].
Qed.

(** The matched row cannot be scored: it has no date of last use, or its
    months make the argument of the logarithm zero or negative. *)
Definition unscorable (r : SkillRequirement.t) (cs : candidate_skill_row) : Prop :=
  LastUsedDate cs = None
  \/ exists min_months,
       SkillRequirement.min_months r = Some min_months
       /\ TotalMonths cs <= - Z.max min_months 1.

Lemma skill_requirement_raises jd rows r m code row :
  match_requirement db get_embedding jd r = Some m ->
  matched_code m = Some code ->
  by_skill rows !! code = Some row ->
  unscorable r (row_cs row) ->
  score_requirement db get_embedding today jd rows (SkillReq r) = None.
Proof.
  intros Hm Hcode Hrow Hbad. cbn [score_requirement].
  rewrite Hm. cbn [mbind option_bind]. rewrite Hcode. cbn [mbind option_bind].
  rewrite Hrow.
  destruct (SkillRequirement.min_months r) as [min_months|] eqn:Hmin;
    cbn [mbind option_bind]; [| reflexivity].
  assert (Hc : contribution db today jd (SkillReq r) (row_cs row)
                 (IZR (TotalMonths (row_cs row)) / IZR (Z.max min_months 1))
               = None).
  { unfold contribution, Float.py_log.
    destruct (Rlt_dec 0 _) as [Hpos|]; cbn [mbind option_bind]; [| reflexivity].
    destruct Hbad as [-> | (mm & Hmm & Hneg)]; [reflexivity |].
    assert (mm = min_months) as -> by congruence.
    apply log_argument in Hpos. lia. }
  rewrite Hc. reflexivity.
Qed.

(** [_score_candidate] raises when a skill requirement of the profile
    resolves to a row of the candidate that has no [LastUsedDate] (as the
    row of a skill credited from the role title alone), or whose
    [TotalMonths] is [-max(min_months, 1)] or less (as a role that ends
    before it starts can leave it). *)
Theorem unscorable_row_raises (candidate : Z) (jd : JobSkillProfile)
    (max_score : R) (r : SkillRequirement.t) (m : match_result) (code : string)
    (row : skill_row) :
  SkillReq r ∈ requirements jd ->
  match_requirement db get_embedding jd r = Some m ->
  matched_code m = Some code ->
  by_skill (candidate_rows db candidate) !! code = Some row ->
  unscorable r (row_cs row) ->
  _score_candidate db get_embedding today candidate jd max_score = None.
Proof.
  intros Hin Hm Hcode Hrow Hbad. unfold _score_candidate.
  rewrite (score_requirements_raises jd _ _ (SkillReq r) Hin); [reflexivity |].
  by apply (skill_requirement_raises jd _ r m code row).
Qed.

End Raises.

(** A candidate whose row of Python comes from the title of a role
    alone. *)
Definition title_row : candidate_skill_row :=
  mk_candidate_skill_row 5 2 0 None 0 0 0 0 0 None {[ "role_title"%string ]} 0 0
    "unknown" 1.

Definition db_title : database :=
  mk_database masters [] [title_row] [] [ (5, "Eve"%string) ].

Lemma unscorable_row_raises_witness :
  _score_candidate db_title no_embedding the_day 5 jd_python 1 = None.
Proof.
  apply (unscorable_row_raises db_title no_embedding the_day 5 jd_python 1
           python_requirement (NormalizerFacts.hit python 1 "exact")
           "language_python" (mk_skill_row title_row python)).
  - apply list_elem_of_singleton. reflexivity.
  - apply (python_resolves db_title eq_refl).
  - reflexivity.
  - vm_compute. reflexivity.
  - left. reflexivity.
Defined.

(** *** The objects of the breakdown *)

(** The name a requirement goes by in the breakdown, and its kind. *)
Definition requirement_name (req : Requirement) : string :=
  match req with
  | SkillReq r => SkillRequirement.raw_skill r
  | CategoryReq r => CategoryRequirement.category r
  end.

Definition requirement_kind (req : Requirement) : string :=
  match req with
  | SkillReq _ => "Skill"%string
  | CategoryReq _ => "Category"%string
  end.

(** The competency a breakdown object carries: 0 when nothing matched,
    else the competency of a row of the candidate, rounded to one decimal
    for a skill, and as a whole percentage for a category. *)
Definition carried_competency (rows : list skill_row) (req : Requirement)
    (x : R) : Prop :=
  x = 0%R
  \/ exists row last_used w,
       In row rows
       /\ let c := fst (calculate_competency_score (TotalMonths (row_cs row))
                         last_used w) in
          match req with
          | SkillReq _ => x = Float.py_round 1 c
          | CategoryReq _ =>
              x = Float.py_round 0 (if Rlt_dec c 1 then c * 100 else 100)
          end.

Section Items.

Variable db : database.
Variable get_embedding : string -> embedding.
Variable today : datetime.

Lemma score_requirement_item jd rows req final item :
  score_requirement db get_embedding today jd rows req = Some (final, item) ->
  b_skill item = requirement_name req
  /\ b_type item = requirement_kind req
  /\ carried_competency rows req (b_competency_score item).
Proof.
  intros H. destruct req as [r | r]; cbn [score_requirement] in H.
  - destruct (match_requirement db get_embedding jd r) as [m|];
      cbn [mbind option_bind] in H; [| discriminate H].
    destruct (matched_code m ≫= λ code, by_skill rows !! code) as [row|] eqn:Hrow.
    + destruct (SkillRequirement.min_months r) as [mm|];
        cbn [mbind option_bind] in H; [| discriminate H].
      destruct (contribution db today jd (SkillReq r) (row_cs row) _)
        as [[[f rec] ev]|]; cbn [mbind option_bind] in H; [| discriminate H].
      destruct (LastUsedDate (row_cs row)) as [last|];
        cbn [mbind option_bind] in H; [| discriminate H].
      injection H as <- <-. cbn. repeat split. right.
      exists row, last, (composite_weight db jd (SkillReq r)). split; [| reflexivity].
      destruct (matched_code m) as [code|]; cbn in Hrow; [| discriminate].
      by eapply by_skill_in.
    + injection H as <- <-. cbn. repeat split. by left.
  - destruct (by_category rows (CategoryRequirement.category r))
      as [|first rest] eqn:Hcat.
    + injection H as <- <-. cbn. repeat split. by left.
    + destruct (contribution db today jd (CategoryReq r) _ _) as [[[f rec] ev]|];
        cbn [mbind option_bind] in H; [| discriminate H].
      destruct (LastUsedDate (row_cs (best_row first rest))) as [last|];
        cbn [mbind option_bind] in H; [| discriminate H].
      injection H as <- <-. cbn. repeat split. right.
      exists (best_row first rest), last, (composite_weight db jd (CategoryReq r)).
      split; [| reflexivity].
      eapply by_category_in. rewrite Hcat. apply best_row_in.
Qed.

Definition item_of (rows : list skill_row) (req : Requirement)
    (item : breakdown_item) : Prop :=
  b_skill item = requirement_name req
  /\ b_type item = requirement_kind req
  /\ carried_competency rows req (b_competency_score item).

Lemma score_requirements_items jd rows reqs : forall total breakdown total' breakdown',
  score_requirements db get_embedding today jd rows reqs total breakdown
  = Some (total', breakdown') ->
  exists items, breakdown' = breakdown ++ items /\ Forall2 (item_of rows) reqs items.
Proof.
  induction reqs as [|req rest IH]; intros total breakdown total' breakdown' H;
    cbn [score_requirements] in H.
  - injection H as _ <-. exists []. split; [by rewrite app_nil_r | constructor].
  - destruct (score_requirement db get_embedding today jd rows req)
      as [[final item]|] eqn:Hreq; cbn [mbind option_bind] in H; [| discriminate H].
    destruct (IH _ _ _ _ H) as (items & -> & Hitems).
    exists (item :: items). split; [by rewrite <- app_assoc |].
    constructor; [| exact Hitems]. by eapply score_requirement_item.
Qed.

Lemma score_candidate_items candidate jd max_score s breakdown :
  _score_candidate db get_embedding today candidate jd max_score
  = Some (s, breakdown) ->
  Forall2 (item_of (candidate_rows db candidate)) (requirements jd) breakdown.
Proof.
  unfold _score_candidate. intros H.
  destruct (score_requirements _ _ _ _ _ _ _ _) as [[t b]|] eqn:E;
    cbn [mbind option_bind] in H; [| discriminate H].
  injection H as _ <-.
  by destruct (score_requirements_items _ _ _ _ _ _ _ E) as (items & -> & Hitems).
Qed.

(** What an entry of the ranking says beside the score. *)
Definition entry_shape (jd : JobSkillProfile) (r : ranked_result) : Prop :=
  confidence_label r = "Strong Match"%string
  /\ unmatched_skill_count r = 0
  /\ matched_skill_count r = Z.of_nat (length (requirements jd))
  /\ total_jd_skills r = Z.of_nat (length (requirements jd))
  /\ map skill_name (skill_breakdown r) = map requirement_name (requirements jd)
  /\ map item_type (skill_breakdown r) = map requirement_kind (requirements jd).

Lemma rank_one_shape jd max_score candidate r :
  rank_one db get_embedding today jd max_score candidate = Some r ->
  entry_shape jd r.
Proof.
  unfold rank_one. intros H.
  destruct (_score_candidate db get_embedding today candidate jd max_score)
    as [[s breakdown]|] eqn:Hs; cbn [mbind option_bind] in H; [| discriminate H].
  destruct (find _ (Candidates db)) as [[c full_name]|]; cbn in H; [| discriminate H].
  injection H as <-. pose proof (score_candidate_items _ _ _ _ _ Hs) as Hitems.
  unfold entry_shape. cbn. rewrite !map_map. cbn.
  repeat split.
  - f_equal. symmetry. by eapply Forall2_length.
  - clear Hs. induction Hitems as [|req item reqs items (Hn & _) _ IH]; cbn;
      [reflexivity | by rewrite Hn, IH].
  - clear Hs. induction Hitems as [|req item reqs items (_ & Hk & _) _ IH]; cbn;
      [reflexivity | by rewrite Hk, IH].
Qed.

Variable set_iter : gset Z -> list Z.

(** Every entry [rank_candidates] returns has the label "Strong Match",
    whatever its score, and reports every requirement of the profile as
    matched: [matched_skill_count] is the number of requirements,
    [unmatched_skill_count] is 0, and the breakdown has one object for each
    requirement, in the order of the profile, under the raw skill or the
    category of the requirement. *)
Theorem ranked_entries_shape (jd : JobSkillProfile) (limit : Z)
    (results : list ranked_result) :
  rank_candidates db get_embedding today set_iter jd limit = Some results ->
  Forall (entry_shape jd) results.
Proof.
  unfold rank_candidates. intros H.
  destruct (get_eligible_candidates db get_embedding today jd) as [eligible|];
    cbn [mbind option_bind] in H; [| discriminate H].
  destruct (decide (eligible = ∅)); [injection H as <-; constructor |].
  destruct (mapM _ (set_iter eligible)) as [ranked|] eqn:Hmap;
    cbn [mbind option_bind] in H; [| discriminate H].
  injection H as <-. apply mapM_Some in Hmap.
  assert (Hranked : Forall (entry_shape jd) ranked).
  { clear -Hmap. induction Hmap as [|c r cs rs Hr _ IH]; constructor; [| exact IH].
    by eapply rank_one_shape. }
  assert (Hsorted : Forall (entry_shape jd) (sort_by_score ranked)).
  { apply list.Forall_forall. intros r Hr. rewrite list.Forall_forall in Hranked.
    apply Hranked. by rewrite <- (sort_by_score_perm ranked). }
  unfold slice_to. destruct (0 <=? limit); by apply Forall_take.
Qed.

End Items.

(** The two entries of the ranking of the Python profile. *)
Lemma ranked_entries_shape_witness :
  exists results,
    rank_candidates db_two no_embedding the_day ascending jd_python 50 = Some results
    /\ Forall (entry_shape jd_python) results.
Proof.
  destruct python_ranking as (first & second & Hrun & _).
  exists [first; second]. split; [exact Hrun |].
  exact (ranked_entries_shape db_two no_embedding the_day ascending jd_python 50
           [first; second] Hrun).
Defined.

(** *** The competency an entry shows *)

(** ["competency_score": 100 if c > 1 else c * 100] *)
Definition shown (b : R) : R := if Rlt_dec 1 b then 100%R else (b * 100)%R.

Lemma competency_unit months last_used w :
  0 <= months ->
  (0 <= fst (calculate_competency_score months last_used w) <= 1)%R.
Proof.
  intros Hm. unfold calculate_competency_score. cbn [fst].
  set (gap := (year current_date - year last_used) * 12
              + (month current_date - month last_used)).
  assert (Hd : (0 <= Rmin 1 (IZR months / 36) <= 1)%R).
  { apply IZR_le in Hm. unfold Rmin.
    destruct (Rle_dec 1 (IZR months / 36)); lra. }
  destruct (gap <? 12), (gap <? 48); nra.
Qed.

Lemma shown_skill c :
  (0 <= c <= 1)%R ->
  exists k, 0 <= k <= 10 /\ shown (Float.py_round 1 c) = (IZR k * 10)%R.
Proof.
  intros Hc. unfold Float.py_round.
  set (k := Float.round_half_even (c * 10 ^ 1)).
  assert (Hk : 0 <= k <= 10).
  { split; [apply round_half_even_ge | apply round_half_even_le]; cbn; lra. }
  exists k. split; [exact Hk |].
  destruct Hk as [Hk0 Hk10]. apply IZR_le in Hk0, Hk10.
  unfold shown. cbn [pow]. destruct (Rlt_dec 1 (IZR k / (10 * 1))); lra.
Qed.

Lemma shown_category c :
  (0 <= c <= 1)%R ->
  let b := Float.py_round 0 (if Rlt_dec c 1 then c * 100 else 100) in
  shown b = 0%R \/ shown b = 100%R.
Proof.
  intros Hc b. unfold b, Float.py_round.
  set (k := Float.round_half_even ((if Rlt_dec c 1 then c * 100 else 100) * 10 ^ 0)).
  assert (Hk : 0 <= k).
  { apply round_half_even_ge. cbn. destruct (Rlt_dec c 1); lra. }
  unfold shown. cbn [pow].
  destruct (Z.eq_dec k 0) as [-> | Hk0].
  - left. destruct (Rlt_dec 1 (0 / 1)); lra.
  - right. assert (1 <= k) as Hk1 by lia. apply IZR_le in Hk1.
    destruct (Rlt_dec 1 (IZR k / 1)); lra.
Qed.

Section Display.

Variable db : database.
Variable get_embedding : string -> embedding.
Variable today : datetime.

(** The competency one object of ["skill_breakdown"] may show. *)
Definition shows (req : Requirement) (item : skill_breakdown_item) : Prop :=
  match req with
  | SkillReq _ =>
      exists k, 0 <= k <= 10 /\ competency_score item = (IZR k * 10)%R
  | CategoryReq _ => competency_score item = 0%R \/ competency_score item = 100%R
  end.

(** For a candidate whose rows have no negative [TotalMonths], the
    competency an entry shows for a skill requirement is a multiple of 10
    from 0 to 100, and the one it shows for a category requirement is 0 or
    100 and nothing in between: the percentage the scorer rounds for a
    category is multiplied by 100 a second time, or capped. *)
Theorem shown_competency (jd : JobSkillProfile) (max_score : R) (candidate : Z)
    (r : ranked_result) :
  rank_one db get_embedding today jd max_score candidate = Some r ->
  (forall row, In row (candidate_rows db candidate) ->
               0 <= TotalMonths (row_cs row)) ->
  Forall2 shows (requirements jd) (skill_breakdown r).
Proof.
  unfold rank_one. intros H Hrows.
  destruct (_score_candidate db get_embedding today candidate jd max_score)
    as [[s breakdown]|] eqn:Hs; cbn [mbind option_bind] in H; [| discriminate H].
  destruct (find _ (Candidates db)) as [[c full_name]|]; cbn in H; [| discriminate H].
  injection H as <-. cbn [skill_breakdown].
  pose proof (score_candidate_items _ _ _ _ _ _ _ _ Hs) as Hitems. clear Hs.
  induction Hitems as [|req item reqs items (_ & _ & Hc) _ IH]; cbn [map];
    constructor; [| exact IH].
  fold (shown (b_competency_score item)).
  destruct Hc as [-> | (row & last & w & Hin & Hc)].
  - destruct req; cbn.
    + exists 0. split; [lia |]. unfold shown. destruct (Rlt_dec 1 0); lra.
    + left. unfold shown. destruct (Rlt_dec 1 0); lra.
  - pose proof (competency_unit _ last w (Hrows row Hin)) as Hunit.
    destruct req; cbn [shows competency_score]; cbn zeta in Hc; rewrite Hc.
    + by apply shown_skill.
    + by apply shown_category.
Qed.

End Display.

(** The entry of the first candidate of the store shows 70 for Python:
    24 of 36 months, rounded to one decimal. *)
Lemma shown_competency_witness :
  exists r,
    rank_one db_two no_embedding the_day jd_python
      (calculate_max_possible_score db_two jd_python) 1 = Some r
    /\ Forall2 shows (requirements jd_python) (skill_breakdown r).
Proof.
  destruct (python_candidate_entry 1 24 "Asha") as (r & Hr & _);
    [vm_compute; reflexivity | lia | reflexivity |].
  exists r. split; [exact Hr |].
  apply (shown_competency db_two no_embedding the_day jd_python _ 1 r Hr).
  intros row Hin. vm_compute in Hin. destruct Hin as [<- | []]. cbn. lia.
Defined.

End BreakdownFacts.

(* ===================================================================== *)
(** ** The leaves of a decoded JSON value *)
(* ===================================================================== *)

Module LeavesFacts.
Import Text Leaves.

(** The data holds a [str] that is not empty, at any depth. *)
Fixpoint holds_text (data : py_value) : bool :=
  match data with
  | PyStr s => truthy s
  | PyList items => existsb holds_text items
  | PyDict entries => existsb (fun kv => holds_text (snd kv)) entries
  | _ => false
  end.

(** The number of nested calls the data asks for. *)
Fixpoint height (data : py_value) : nat :=
  match data with
  | PyList items => S (foldr (fun item h => Nat.max (height item) h) O items)
  | PyDict entries =>
      S (foldr (fun kv h => Nat.max (height (snd kv)) h) O entries)
  | _ => 1%nat
  end.

(** A value that is not a container and not a [str]. *)
Definition scalar (data : py_value) : Prop :=
  match data with
  | PyStr _ | PyList _ | PyDict _ => False
  | _ => True
  end.

Lemma mapM_raises {A B} (f : A -> option B) (l : list A) x :
  In x l -> f x = None -> mapM f l = None.
Proof.
  intros Hin Hx. destruct (mapM f l) as [k|] eqn:E; [| reflexivity].
  assert (Hall : is_Some (mapM f l)) by eauto.
  apply mapM_is_Some in Hall. rewrite List.Forall_forall in Hall.
  destruct (Hall x Hin) as [y Hy]. cbn in Hy. congruence.
Qed.

Lemma characters_head c r : In (PyStr (String c EmptyString)) (characters (String c r)).
Proof. by left. Qed.

(** A [str] that is not empty never comes back: each of its characters
    is a [str] of one character, which is iterated in turn. *)
Lemma flatten_text_raises depth : forall data,
  holds_text data = true -> flatten_leaf_values depth data = None.
Proof.
  induction depth as [|d IH]; intros data H; [reflexivity |].
  destruct data as [| b | n | x | s | items | entries]; cbn in H; try discriminate.
  - destruct s as [|c r]; [discriminate |]. cbn [flatten_leaf_values].
    rewrite (mapM_raises _ _ _ (characters_head c r)); [reflexivity |].
    by apply IH.
  - apply existsb_exists in H as (item & Hin & Hitem). cbn [flatten_leaf_values].
    rewrite (mapM_raises _ _ item Hin); [reflexivity | by apply IH].
  - apply existsb_exists in H as (kv & Hin & Hkv). cbn [flatten_leaf_values].
    rewrite (mapM_raises _ _ kv Hin); [reflexivity | by apply IH].
Qed.

Lemma height_item item items :
  In item items ->
  (height item <= foldr (fun item h => Nat.max (height item) h) O items)%nat.
Proof.
  induction items as [|x rest IH]; intros Hin; [destruct Hin |]. cbn.
  destruct Hin as [-> | Hin]; [lia | specialize (IH Hin); lia].
Qed.

Lemma height_entry (kv : string * py_value) entries :
  In kv entries ->
  (height (snd kv) <= foldr (fun kv h => Nat.max (height (snd kv)) h) O entries)%nat.
Proof.
  induction entries as [|x rest IH]; intros Hin; [destruct Hin |]. cbn.
  destruct Hin as [-> | Hin]; [lia | specialize (IH Hin); lia].
Qed.

Lemma mapM_returns {A B} (f : A -> option B) (P : B -> Prop) (l : list A) :
  (forall x, In x l -> exists y, f x = Some y /\ P y) ->
  exists k, mapM f l = Some k /\ Forall P k.
Proof.
  induction l as [|x rest IH]; intros H.
  - exists []. split; [reflexivity | constructor].
  - destruct (H x) as (y & Hy & HP); [by left |].
    destruct IH as (k & Hk & HPk); [intros z Hz; apply H; by right |].
    exists (y :: k). cbn. rewrite Hy. cbn. rewrite Hk. cbn.
    split; [reflexivity | by constructor].
Qed.

Lemma Forall_concat_scalar (found : list (list py_value)) :
  Forall (Forall scalar) found -> Forall scalar (concat found).
Proof.
  induction 1 as [|l rest Hl _ IH]; cbn; [constructor |].
  apply Forall_app. by split.
Qed.

(** Data without such a [str] is flattened within as many nested calls as
    it is high, into values that are not containers. *)
Lemma flatten_scalars_returns depth : forall data,
  holds_text data = false -> (height data <= depth)%nat ->
  exists leaves, flatten_leaf_values depth data = Some leaves
                 /\ Forall scalar leaves.
Proof.
  induction depth as [|d IH]; intros data Htext Hdepth.
  - destruct data; cbn in Hdepth; lia.
  - destruct data as [| b | n | x | s | items | entries]; cbn [flatten_leaf_values].
    + eexists. split; [reflexivity | by repeat constructor].
    + eexists. split; [reflexivity | by repeat constructor].
    + eexists. split; [reflexivity | by repeat constructor].
    + eexists. split; [reflexivity | by repeat constructor].
    + destruct s; [| discriminate]. exists []. split; [reflexivity | constructor].
    + cbn in Htext, Hdepth.
      destruct (mapM_returns (flatten_leaf_values d) (Forall scalar) items)
        as (found & -> & Hfound).
      { intros item Hin. apply IH.
        - destruct (holds_text item) eqn:E; [| reflexivity].
          assert (existsb holds_text items = true)
            by (apply existsb_exists; eauto). congruence.
        - pose proof (height_item item items Hin). lia. }
      cbn. eexists. split; [reflexivity | by apply Forall_concat_scalar].
    + cbn in Htext, Hdepth.
      destruct (mapM_returns (fun kv => flatten_leaf_values d (snd kv))
                  (Forall scalar) entries) as (found & -> & Hfound).
      { intros kv Hin. apply IH.
        - destruct (holds_text (snd kv)) eqn:E; [| reflexivity].
          assert (existsb (fun kv => holds_text (snd kv)) entries = true)
            by (apply existsb_exists; eauto). congruence.
        - pose proof (height_entry kv entries Hin). lia. }
      cbn. eexists. split; [reflexivity | by apply Forall_concat_scalar].
Qed.

(** [flatten_leaf_values] treats a [str] as any other iterable, and the
    characters it yields are [str] again: on data that holds a [str] which
    is not empty, at any depth, the call never returns, however deep the
    interpreter lets it recurse. On other data it returns, within as many
    nested calls as the data is high, and what it returns holds no [str],
    list or dict. *)
Theorem flatten_leaf_values_text (data : py_value) :
  (holds_text data = true ->
   forall depth, flatten_leaf_values depth data = None)
  /\ (holds_text data = false ->
      exists leaves,
        flatten_leaf_values (height data) data = Some leaves
        /\ Forall scalar leaves).
Proof.
  split.
  - intros H depth. by apply flatten_text_raises.
  - intros H. by apply flatten_scalars_returns.
Qed.

(** A skills object with one language, and one with none. *)
Lemma flatten_leaf_values_text_witness :
  flatten_leaf_values 1000
    (PyDict [("languages"%string, PyList [PyStr "Python"])]) = None
  /\ flatten_leaf_values 3
       (PyDict [("languages"%string, PyList []); ("years"%string, PyInt 3)])
     = Some [PyInt 3].
Proof.
  split.
  - apply (flatten_leaf_values_text
             (PyDict [("languages"%string, PyList [PyStr "Python"])])).
    reflexivity.
  - reflexivity.
Defined.

End LeavesFacts.

(* ===================================================================== *)
(** ** The text of a technology *)
(* ===================================================================== *)

Module SkillTextFacts.
Import Text SkillText TextFacts SubstringFacts.

(** The loop of [normalize_skill_text] over any list of rules. *)
Definition rewrite_with (rules : list (string * string)) (text : string)
    : string :=
  foldl (fun t rule => sub (p_literal (fst rule)) (snd rule) t) text rules.

(** [REWRITE_RULES] without the rule for [src]. *)
Definition rules_without (src : string) : list (string * string) :=
  filter (fun rule => fst rule <> src) REWRITE_RULES.

Lemma rewrite_with_chars f rules :
  Forall (fun rule => all_chars f (snd rule) = true) rules ->
  forall text, all_chars f text = true ->
               all_chars f (rewrite_with rules text) = true.
Proof.
  induction 1 as [|rule rest Hrule _ IH]; intros text Htext; [exact Htext |].
  cbn [rewrite_with foldl]. apply IH. unfold sub.
  by apply sub_literal_chars.
Qed.

Lemma rewrite_not_upper text :
  all_chars not_upper text = true -> all_chars not_upper (rewrite text) = true.
Proof.
  apply (rewrite_with_chars not_upper REWRITE_RULES).
  repeat (apply List.Forall_cons; [reflexivity |]). apply List.Forall_nil.
Qed.

Lemma split_camel_from_fixed s :
  all_chars not_upper s = true -> forall b, split_camel_from b s = s.
Proof.
  induction s as [|c r IH]; intros H b; [reflexivity |].
  cbn in H. apply andb_true_iff in H as [Hc Hr].
  cbn [split_camel_from]. unfold not_upper in Hc.
  apply negb_true_iff in Hc. rewrite Hc, andb_false_r. by rewrite IH.
Qed.

Lemma is_space_lower_char c : is_space (lower_char c) = is_space c.
Proof.
  destruct c as [[] [] [] [] [] [] [] []]; reflexivity.
Qed.

Lemma lstrip_lower s : lstrip (lower s) = lower (lstrip s).
Proof.
  induction s as [|c r IH]; [reflexivity |].
  cbn [lower lstrip]. rewrite is_space_lower_char.
  by destruct (is_space c).
Qed.

Lemma rstrip_lower s : rstrip (lower s) = lower (rstrip s).
Proof.
  induction s as [|c r IH]; [reflexivity |].
  cbn [lower rstrip]. rewrite IH, is_space_lower_char.
  destruct (rstrip r); cbn [lower]; [by destruct (is_space c) | reflexivity].
Qed.

Lemma strip_lower s : strip (lower s) = lower (strip s).
Proof. unfold strip. by rewrite lstrip_lower, rstrip_lower. Qed.

Lemma truthy_lower s : truthy (lower s) = truthy s.
Proof. by destruct s. Qed.

(** The text after the lower-casing step holds no capital, and no rule
    writes one. *)
Lemma rewritten_not_upper text :
  all_chars not_upper (rewrite (lower (strip text))) = true.
Proof. apply rewrite_not_upper, lower_not_upper. Qed.

(** [normalize_skill_text] lower-cases the text before it looks for
    camel case, and no rewrite rule writes a capital: the camel-case step
    never finds a place to split, so that [ReactJS] is normalised to
    [reactjs] and not to [react js]; the function does not tell a text
    from its lower-cased form, and its result holds no capital. *)
Theorem normalize_skill_text_ignores_case (text : string) :
  split_camel (rewrite (lower (strip text))) = rewrite (lower (strip text))
  /\ normalize_skill_text (lower text) = normalize_skill_text text
  /\ normalize_skill_text text
     = strip (collapse_ws (replace_outside is_kept " "
                             (rewrite (lower (strip text))))).
Proof.
  assert (Hcamel : forall t,
             split_camel (rewrite (lower (strip t))) = rewrite (lower (strip t))).
  { intros t. unfold split_camel.
    apply split_camel_from_fixed, rewritten_not_upper. }
  assert (Hflat : forall t,
             normalize_skill_text t
             = strip (collapse_ws (replace_outside is_kept " "
                                     (rewrite (lower (strip t)))))).
  { intros t. unfold normalize_skill_text. rewrite Hcamel.
    destruct t; reflexivity. }
  split; [apply Hcamel | split; [| apply Hflat]].
  rewrite !Hflat. by rewrite strip_lower, lower_idem.
Qed.

Lemma contains_self p : contains p p = true.
Proof.
  apply contains_prefix. rewrite <- (append_empty_r p) at 2. apply prefix_app.
Qed.

Lemma contains_needle p w s :
  substring_of p w -> contains w s = true -> contains p s = true.
Proof.
  intros Hp H. apply contains_split in H as (a & b & ->).
  apply (contains_substring p p); [| apply contains_self].
  apply (substring_trans p w); [exact Hp | by exists a, b].
Qed.

Lemma dot_net_gone text :
  contains ".net" (sub (p_literal ".net") "dotnet" text) = false.
Proof. unfold sub. by apply (sub_literal_gone "d" "otnet" "." "net"). Qed.

Lemma asp_net_gone text :
  contains "asp.net" (sub (p_literal ".net") "dotnet" text) = false.
Proof.
  destruct (contains "asp.net" _) eqn:E; [| reflexivity].
  apply (contains_needle ".net") in E.
  - by rewrite dot_net_gone in E.
  - by exists "asp"%string, ""%string.
Qed.

(** The rules are applied in the order of the [dict], and the rule for
    [.net] comes first: it leaves no [.net] in the text, so the rule for
    [asp.net] that follows it never finds its source, and the rewriting is
    the one of the rules without it. [ASP.NET MVC] is normalised to
    [aspdotnet mvc]. *)
Theorem asp_net_rule_never_applies (text : string) :
  contains "asp.net" (sub (p_literal ".net") "dotnet" text) = false
  /\ rewrite text = rewrite_with (rules_without "asp.net") text
  /\ normalize_skill_text "ASP.NET MVC" = "aspdotnet mvc"%string.
Proof.
  split; [apply asp_net_gone | split; [| reflexivity]].
  unfold rewrite, rewrite_with, rules_without, REWRITE_RULES.
  cbn [foldl filter fst snd]. 
  rewrite (sub_literal_absent "asp.net" "asp dotnet" _ (asp_net_gone text) None)
    at 1.
  reflexivity.
Qed.

End SkillTextFacts.

(* ===================================================================== *)
(** ** Words and tokens *)
(* ===================================================================== *)

Module WordFacts.
Import Text Normalizer SkillText TextFacts SubstringFacts SkillTextFacts.

(** No whitespace but single spaces between other characters;
    [after_space] says that the character before was a space, or that the
    text starts here. *)
Fixpoint single_spaced (after_space : bool) (s : string) : bool :=
  match s with
  | EmptyString => true
  | String c r =>
      if is_space c
      then Ascii.eqb c " " && negb after_space && single_spaced true r
      else single_spaced false r
  end.

(** A word: not empty, and made of characters of the class that are not
    whitespace. *)
Definition word_of (cls : ascii -> bool) (w : string) : Prop :=
  w <> EmptyString
  /\ all_chars (fun c => cls c && negb (is_space c)) w = true.

(** Words separated by single spaces, or nothing. *)
Definition words_of (cls : ascii -> bool) (s : string) : Prop :=
  s = EmptyString \/ Forall (word_of cls) (split_on " " s).

Lemma collapse_single_spaced s :
  forall f, single_spaced f (collapse_ws_from f s) = true.
Proof.
  induction s as [|c r IH]; intros f; [reflexivity |].
  cbn [collapse_ws_from]. destruct (is_space c) eqn:Ec.
  - destruct f; [apply IH |]. cbn. apply (IH true).
  - cbn [single_spaced]. rewrite Ec. apply IH.
Qed.

Lemma single_spaced_weaken s : forall f,
  single_spaced f s = true -> single_spaced false s = true.
Proof.
  destruct s as [|c r]; intros f H; [reflexivity |].
  cbn in *. destruct (is_space c); [| exact H].
  destruct (Ascii.eqb c " "); [| discriminate]. destruct f; [discriminate | exact H].
Qed.

Lemma lstrip_single_spaced s :
  single_spaced false s = true -> single_spaced true (lstrip s) = true.
Proof.
  destruct s as [|c r]; intros H; [reflexivity |].
  cbn [lstrip]. cbn in H. destruct (is_space c) eqn:Ec.
  - destruct (Ascii.eqb c " "); [| discriminate]. cbn in H.
    destruct r as [|d r']; [reflexivity |].
    cbn [lstrip]. cbn in H. destruct (is_space d) eqn:Ed.
    + destruct (Ascii.eqb d " "); discriminate.
    + cbn [single_spaced]. by rewrite Ed.
  - cbn [single_spaced]. by rewrite Ec.
Qed.

Lemma rstrip_single_spaced s : forall f,
  single_spaced f s = true -> single_spaced f (rstrip s) = true.
Proof.
  induction s as [|c r IH]; intros f H; [reflexivity |].
  cbn [rstrip]. cbn [single_spaced] in H. destruct (is_space c) eqn:Ec.
  - apply andb_true_iff in H as [H1 H3]. specialize (IH true H3).
    destruct (rstrip r) as [|d r'] eqn:Er; [reflexivity |].
    cbn [single_spaced]. rewrite Ec, H1. cbn [andb]. exact IH.
  - specialize (IH false H).
    destruct (rstrip r) as [|d r'] eqn:Er; cbn [single_spaced]; rewrite Ec;
      [reflexivity | exact IH].
Qed.

Lemma strip_collapse_single_spaced s :
  single_spaced true (strip (collapse_ws s)) = true.
Proof.
  unfold strip, collapse_ws.
  apply rstrip_single_spaced, lstrip_single_spaced, collapse_single_spaced.
Qed.

Lemma strip_collapse_rstrip s :
  rstrip (strip (collapse_ws s)) = strip (collapse_ws s).
Proof. unfold strip. apply rstrip_idem. Qed.

Lemma collapse_chars g s :
  g " "%char = true -> all_chars g s = true ->
  forall f, all_chars g (collapse_ws_from f s) = true.
Proof.
  intros Hsp. induction s as [|c r IH]; intros H f; [reflexivity |].
  cbn in H. apply andb_true_iff in H as [Hc Hr].
  cbn [collapse_ws_from]. destruct (is_space c).
  - destruct f; [by apply IH |]. cbn. rewrite Hsp. by apply IH.
  - cbn. rewrite Hc. by apply IH.
Qed.

Lemma strip_collapse_chars g s :
  g " "%char = true -> all_chars g s = true ->
  all_chars g (strip (collapse_ws s)) = true.
Proof.
  intros Hsp H.
  apply (all_chars_substring g _ (collapse_ws s)); [apply strip_substring |].
  by apply collapse_chars.
Qed.

Lemma rstrip_fixed_cons c r :
  rstrip (String c r) = String c r -> rstrip r = r.
Proof.
  cbn [rstrip]. destruct (rstrip r) as [|d r'] eqn:Er.
  - destruct (is_space c); [discriminate |].
    intros [= <-]. reflexivity.
  - by intros [= <-].
Qed.

Lemma rstrip_fixed_space c r :
  is_space c = true -> rstrip (String c r) = String c r -> r <> EmptyString.
Proof.
  intros Hc H ->. cbn in H. rewrite Hc in H. discriminate.
Qed.

(** The parts of a text in that form. *)
Lemma split_single_spaced g s : forall f,
  single_spaced f s = true -> rstrip s = s -> all_chars g s = true ->
  match split_on " " s with
  | [] => False
  | w :: ws =>
      all_chars (fun c => g c && negb (is_space c)) w = true
      /\ Forall (word_of g) ws
      /\ (f = true -> s <> EmptyString -> w <> EmptyString)
  end.
Proof.
  induction s as [|c r IH]; intros f Hs Hr Hg.
  - cbn. split; [reflexivity | split; [constructor | congruence]].
  - cbn in Hg. apply andb_true_iff in Hg as [Hc Hg].
    pose proof (rstrip_fixed_cons c r Hr) as Hr'.
    cbn [single_spaced] in Hs. cbn [split_on].
    destruct (is_space c) eqn:Ec.
    + apply andb_true_iff in Hs as [H1 H3].
      apply andb_true_iff in H1 as [H1 H2].
      rewrite H1. destruct f; [discriminate |].
      specialize (IH true H3 Hr' Hg).
      pose proof (rstrip_fixed_space c r Ec Hr) as Hne.
      destruct (split_on " " r) as [|w ws]; [destruct IH |].
      destruct IH as (Hw & Hws & Hfirst).
      split; [reflexivity | split; [| congruence]].
      constructor; [| exact Hws]. split; [by apply Hfirst | exact Hw].
    + assert (Ascii.eqb c " " = false) as ->.
      { destruct (Ascii.eqb_spec c " ") as [-> |]; [discriminate | reflexivity]. }
      specialize (IH false Hs Hr' Hg).
      destruct (split_on " " r) as [|w ws]; [destruct IH |].
      destruct IH as (Hw & Hws & _).
      split; [| split; [exact Hws | discriminate]].
      cbn. by rewrite Hc, Ec, Hw.
Qed.

(** What [re.sub(r"\s+", " ", t).strip()] leaves. *)
Lemma strip_collapse_words g s :
  g " "%char = true -> all_chars g s = true ->
  words_of g (strip (collapse_ws s)).
Proof.
  intros Hsp Hg. set (t := strip (collapse_ws s)).
  destruct t as [|c r] eqn:Et; [by left | right]. rewrite <- Et.
  pose proof (split_single_spaced g t true (strip_collapse_single_spaced s)
                (strip_collapse_rstrip s) (strip_collapse_chars g s Hsp Hg)) as H.
  destruct (split_on " " t) as [|w ws]; [destruct H |].
  destruct H as (Hw & Hws & Hfirst).
  constructor; [| exact Hws]. split; [| exact Hw].
  apply Hfirst; [reflexivity | subst t; rewrite Et; discriminate].
Qed.

(** The characters of a token of a skill: [[a-z0-9_+#]]. *)
Definition skill_char (c : ascii) : bool :=
  is_kept c && negb (is_upper c).

Lemma replace_outside_chars g keep by_c s :
  g by_c = true -> all_chars g s = true ->
  all_chars g (replace_outside keep by_c s) = true.
Proof.
  intros Hby. induction s as [|c r IH]; intros H; [reflexivity |].
  cbn in H. apply andb_true_iff in H as [Hc Hr]. cbn.
  rewrite (IH Hr), andb_true_r. by destruct (keep c).
Qed.

Lemma replace_outside_class keep by_c s :
  keep by_c = true -> all_chars keep (replace_outside keep by_c s) = true.
Proof.
  intros Hby. induction s as [|c r IH]; [reflexivity |].
  cbn. rewrite IH, andb_true_r. by destruct (keep c) eqn:E.
Qed.

Lemma all_chars_and f g s :
  all_chars f s = true -> all_chars g s = true ->
  all_chars (fun c => f c && g c) s = true.
Proof.
  induction s as [|c r IH]; intros Hf Hg; [reflexivity |].
  cbn in *. apply andb_true_iff in Hf as [-> Hf].
  apply andb_true_iff in Hg as [-> Hg]. by rewrite IH.
Qed.

Lemma split_camel_chars f s :
  f " "%char = true -> all_chars f s = true ->
  forall b, all_chars f (split_camel_from b s) = true.
Proof.
  intros Hsp. induction s as [|c r IH]; intros H b; [reflexivity |].
  cbn in H. apply andb_true_iff in H as [Hc Hr]. cbn [split_camel_from].
  destruct (negb b && is_upper c); cbn; rewrite ?Hsp, Hc; by apply IH.
Qed.

Lemma normalize_skill_text_words text :
  words_of skill_char (normalize_skill_text text).
Proof.
  unfold normalize_skill_text. destruct (negb (truthy text)); [by left |].
  apply strip_collapse_words; [reflexivity |].
  apply all_chars_and.
  - by apply replace_outside_class.
  - apply replace_outside_chars; [reflexivity |].
    apply split_camel_chars; [reflexivity |].
    apply rewritten_not_upper.
Qed.

(** [tokenize_skill] splits the normalised text at its spaces, and the
    text is made of words separated by single spaces: every token is a
    word of [[a-z0-9_+#]] that is not empty. The list of tokens is never
    empty: a text that normalises to nothing (an empty text, or one of
    punctuation only) has the one token [""]. *)
Theorem tokenize_skill_tokens (text : string) :
  (normalize_skill_text text = EmptyString
   /\ tokenize_skill text = [EmptyString])
  \/ (normalize_skill_text text <> EmptyString
      /\ tokenize_skill text <> []
      /\ Forall (word_of skill_char) (tokenize_skill text)).
Proof.
  unfold tokenize_skill.
  destruct (normalize_skill_text_words text) as [E | H].
  - left. by rewrite E.
  - destruct (normalize_skill_text text) as [|c r] eqn:E.
    + left. by split.
    + right. split; [discriminate | split; [| exact H]].
      intros Hnil. pose proof (split_on_head " " (String c r)) as (w & ws & b & Hw & _).
      rewrite Hnil in Hw. discriminate.
Qed.

(** [[a-z0-9\s]], the characters [normalize_job_title] keeps. *)
Definition title_char (c : ascii) : bool :=
  is_lower c || is_digit c || is_space c.

Lemma sub_char_class cls s : forall prev,
  all_chars cls
    (sub_from (p_char (fun c => negb (cls c))) "" prev 0 s) = true.
Proof.
  induction s as [|c r IH]; intros prev; [reflexivity |].
  cbn [sub_from p_char]. destruct (cls c) eqn:Ec; cbn [negb].
  - cbn. by rewrite Ec, IH.
  - cbn. apply IH.
Qed.

Lemma normalize_job_title_words title :
  words_of title_char (normalize_job_title title).
Proof.
  unfold normalize_job_title. destruct (negb (truthy title)); [by left |].
  apply strip_collapse_words; [reflexivity |].
  unfold sub. apply (sub_char_class title_char).
Qed.

Lemma title_dot_net_gone t :
  contains ".net" (sub (p_literal "dotnet") " dot net "
                     (sub (p_literal ".net") " dot net " t)) = false.
Proof.
  destruct (contains ".net" _) eqn:E; [| reflexivity].
  unfold sub in E at 1.
  apply (sub_literal_contains "dotnet" " " "dot net " "." "net") in E;
    [| reflexivity | reflexivity].
  unfold sub in E.
  by rewrite (sub_literal_gone " " "dot net " "." "net") in E.
Qed.

(** [normalize_job_title] returns words of [[a-z0-9]] separated by single
    spaces, or the empty text. Its replacement of [asp.net] never applies:
    the replacement of [.net] runs before it, and neither it nor the one
    of [dotnet] leaves a [.net] in the title, so that [ASP.NET Developer]
    becomes [asp dot net developer]. *)
Theorem normalize_job_title_words_spec (title : string) :
  words_of title_char (normalize_job_title title)
  /\ (forall t,
        sub (p_literal "asp.net") " asp net "
          (sub (p_literal "dotnet") " dot net "
             (sub (p_literal ".net") " dot net " t))
        = sub (p_literal "dotnet") " dot net "
            (sub (p_literal ".net") " dot net " t))
  /\ normalize_job_title "ASP.NET Developer" = "asp dot net developer"%string.
Proof.
  split; [apply normalize_job_title_words | split; [| reflexivity]].
  intros t. unfold sub at 1. apply sub_literal_absent.
  destruct (contains "asp.net" _) eqn:E; [| reflexivity].
  assert (contains ".net"
            (sub (p_literal "dotnet") " dot net "
               (sub (p_literal ".net") " dot net " t)) = true) as H.
  { apply contains_split in E as (a & b & E).
    rewrite E. apply (contains_substring ".net" "asp.net").
    - by exists a, b.
    - reflexivity. }
  by rewrite title_dot_net_gone in H.
Qed.

End WordFacts.

(* ===================================================================== *)
(** ** The cosine of two embeddings *)
(* ===================================================================== *)

Module CosineFacts.
Import Normalizer.
Open Scope R_scope.

Lemma sum_from l : forall acc, foldl Rplus acc l = acc + Float.sum l.
Proof.
  unfold Float.sum. induction l as [|x l IH]; intros acc; cbn [foldl].
  - lra.
  - rewrite (IH (acc + x)), (IH (0 + x)). lra.
Qed.

Lemma dot_cons x a y b : dot (x :: a) (y :: b) = x * y + dot a b.
Proof.
  unfold dot, Float.sum. cbn [zip_with foldl]. rewrite sum_from.
  unfold Float.sum. lra.
Qed.

Lemma dot_nil_r a : dot a [] = 0.
Proof. by destruct a. Qed.

Lemma dot_comm a : forall b, dot a b = dot b a.
Proof.
  induction a as [|x a IH]; intros b; [by rewrite dot_nil_r |].
  destruct b as [|y b]; [reflexivity |].
  rewrite !dot_cons, IH. lra.
Qed.

Lemma dot_self_nonneg a : 0 <= dot a a.
Proof.
  induction a as [|x a IH]; [cbn; unfold dot, Float.sum; cbn; lra |].
  rewrite dot_cons. nra.
Qed.

(** A vector that is not the null one. *)
Definition not_null (a : embedding) : Prop := Exists (fun x => x <> 0) a.

Lemma dot_self_pos a : not_null a -> 0 < dot a a.
Proof.
  induction 1 as [x a Hx | x a _ IH]; rewrite dot_cons.
  - pose proof (dot_self_nonneg a). nra.
  - nra.
Qed.

Lemma square_bound t m : 0 <= m -> t * t <= m * m -> - m <= t <= m.
Proof. intros Hm H. split; nra. Qed.

(** Cauchy and Schwarz, on the sums [np.dot] makes. *)
Lemma dot_square a : forall b,
  length a = length b -> dot a b * dot a b <= dot a a * dot b b.
Proof.
  induction a as [|x a IH]; intros [|y b] Hlen; try discriminate Hlen.
  - unfold dot, Float.sum. cbn. lra.
  - injection Hlen as Hlen. specialize (IH b Hlen). rewrite !dot_cons.
    pose proof (dot_self_nonneg a) as HA. pose proof (dot_self_nonneg b) as HB.
    set (S := dot a b) in *. set (A := dot a a) in *. set (B := dot b b) in *.
    pose proof (sqrt_pos A) as Hp. pose proof (sqrt_pos B) as Hq.
    pose proof (sqrt_sqrt A HA) as Ep. pose proof (sqrt_sqrt B HB) as Eq.
    set (p := sqrt A) in *. set (q := sqrt B) in *.
    assert (Hpq : 0 <= p * q) by nra.
    assert (HS : - (p * q) <= S <= p * q).
    { apply square_bound; [exact Hpq |]. 
      replace (p * q * (p * q)) with ((p * p) * (q * q)) by ring.
      rewrite Ep, Eq. exact IH. }
    assert (Hcross : 2 * (x * y) * S <= x * x * B + y * y * A).
    { rewrite <- Ep, <- Eq.
      pose proof (Rle_0_sqr (x * q - y * p)) as H1.
      pose proof (Rle_0_sqr (x * q + y * p)) as H2.
      unfold Rsqr in H1, H2.
      destruct (Rle_dec 0 (x * y)) as [Hxy | Hxy].
      - assert (x * y * S <= x * y * (p * q)) by (apply Rmult_le_compat_l; lra).
        nra.
      - assert (Hneg : 0 <= - (x * y)) by lra.
        assert (- (x * y) * - S <= - (x * y) * (p * q))
          by (apply Rmult_le_compat_l; lra).
        nra. }
    nra.
Qed.

(** Under the reading of floats as reals: [cosine_similarity] does not
    depend on the order of its two vectors; on two vectors of one
    dimension, neither of them null, it lies between -1 and 1; and it is
    1 on a vector and itself. *)
Theorem cosine_similarity_spec (a b : embedding) :
  length a = length b -> not_null a -> not_null b ->
  cosine_similarity a b = cosine_similarity b a
  /\ -1 <= cosine_similarity a b <= 1
  /\ cosine_similarity a a = 1.
Proof.
  intros Hlen Ha Hb.
  pose proof (dot_self_pos a Ha) as HA. pose proof (dot_self_pos b Hb) as HB.
  pose proof (sqrt_lt_R0 _ HA) as Hp. pose proof (sqrt_lt_R0 _ HB) as Hq.
  assert (Hpq : 0 < sqrt (dot a a) * sqrt (dot b b)) by nra.
  unfold cosine_similarity. split; [| split].
  - rewrite (dot_comm a b). f_equal. ring.
  - assert (HS : - (sqrt (dot a a) * sqrt (dot b b)) <= dot a b
                 <= sqrt (dot a a) * sqrt (dot b b)).
    { apply square_bound; [lra |].
      replace (sqrt (dot a a) * sqrt (dot b b) * (sqrt (dot a a) * sqrt (dot b b)))
        with ((sqrt (dot a a) * sqrt (dot a a)) * (sqrt (dot b b) * sqrt (dot b b)))
        by ring.
      rewrite !sqrt_sqrt by lra. by apply dot_square. }
    split.
    + apply (Rmult_le_reg_r (sqrt (dot a a) * sqrt (dot b b))); [exact Hpq |].
      unfold Rdiv. rewrite Rmult_assoc, Rinv_l by lra. lra.
    + apply (Rmult_le_reg_r (sqrt (dot a a) * sqrt (dot b b))); [exact Hpq |].
      unfold Rdiv. rewrite Rmult_assoc, Rinv_l by lra. lra.
  - rewrite sqrt_sqrt by lra. unfold Rdiv. apply Rinv_r. lra.
Qed.

(** Two vectors of the plane. *)
Lemma cosine_similarity_spec_witness :
  cosine_similarity [3; 4] [4; 3] = cosine_similarity [4; 3] [3; 4]
  /\ -1 <= cosine_similarity [3; 4] [4; 3] <= 1
  /\ cosine_similarity [3; 4] [3; 4] = 1.
Proof.
  apply (cosine_similarity_spec [3; 4] [4; 3]).
  - reflexivity.
  - apply Exists_cons_hd. lra.
  - apply Exists_cons_hd. lra.
Defined.

End CosineFacts.

(* ===================================================================== *)
(** ** The profile builder *)
(* ===================================================================== *)

Module ProfileFacts.
Import Text Dates Duration Normalizer Dto Postprocessor Store Vectorizer.
Import DurationFacts.

Lemma default_ref_date_parses :
  strptime_ymd default_ref_date = Some (mk_datetime 2026 1 1 0).
Proof. reflexivity. Qed.

Section Profile.

Variable dparse : string -> option datetime.

(** What [build_professional_profile] makes of one raw role. *)
Definition built_from (today : datetime) (raw : raw_role)
    (r : candidate_role) : Prop :=
  title r = job_title raw
  /\ role_start_raw r = start_date_raw raw
  /\ calculate_duration dparse (start_date_raw raw) (end_date_raw raw)
       "2026-01-01" = Some (verified_duration r)
  /\ resolved_end dparse (end_date_raw raw) today = Some (end_dt r).

Lemma build_role_built ref_date today raw r :
  strptime_ymd ref_date = Some today ->
  build_role dparse ref_date raw = Some r -> built_from today raw r.
Proof.
  intros Href H. unfold build_role in H. rewrite Href in H.
  cbn [mbind option_bind] in H. fold default_ref_date.
  destruct (calculate_duration dparse (start_date_raw raw) (end_date_raw raw)
              default_ref_date) as [duration|] eqn:Ed;
    cbn [mbind option_bind] in H; [| discriminate H].
  unfold built_from, resolved_end.
  destruct (if is_present (or_present (end_date_raw raw)) then Some today
            else dparse (or_present (end_date_raw raw))) as [e|];
    cbn [mbind option_bind] in H; [| discriminate H].
  injection H as <-. cbn. auto.
Qed.

Lemma build_role_raises ref_date today raw :
  strptime_ymd ref_date = Some today ->
  resolved_end dparse (end_date_raw raw) today = None ->
  build_role dparse ref_date raw = None.
Proof.
  intros Href H. unfold build_role. rewrite Href. cbn [mbind option_bind].
  destruct (calculate_duration dparse (start_date_raw raw) (end_date_raw raw)
              default_ref_date); cbn [mbind option_bind]; [| reflexivity].
  unfold resolved_end in H. rewrite H. reflexivity.
Qed.

(** [build_professional_profile] calls [calculate_duration] without its
    [ref_date], and resolves the end date a second time, with the
    [ref_date] it was given and outside any [try]. So, in every entry it
    returns, the verified duration is the one counted up to 2026-01-01,
    whatever [ref_date] is, while the end date of an ongoing role is
    [ref_date]; and a role whose end date does not parse, for which
    [calculate_duration] returns 0, makes the whole call raise. *)
Theorem build_professional_profile_spec
    (raw_experience : list raw_role) (ref_date : string) (today : datetime) :
  strptime_ymd ref_date = Some today ->
  (forall roles,
     build_professional_profile dparse raw_experience ref_date = Some roles ->
     Forall2 (built_from today) raw_experience roles)
  /\ (forall raw,
        In raw raw_experience ->
        resolved_end dparse (end_date_raw raw) today = None ->
        calculate_duration dparse (start_date_raw raw) (end_date_raw raw)
          ref_date = Some 0
        /\ build_professional_profile dparse raw_experience ref_date = None).
Proof.
  intros Href. split.
  - induction raw_experience as [|raw rest IH]; intros roles H.
    + cbn in H. rewrite Href in H. injection H as <-. constructor.
    + cbn [build_professional_profile] in H.
      destruct (build_role dparse ref_date raw) as [r|] eqn:Er;
        cbn [mbind option_bind] in H; [| discriminate H].
      destruct (build_professional_profile dparse rest ref_date) as [rs|];
        cbn [mbind option_bind] in H; [| discriminate H].
      injection H as <-. constructor; [| by apply IH].
      by apply (build_role_built ref_date).
  - intros raw Hin Hend. split.
    + rewrite (calculate_duration_unfold dparse _ _ _ _ Href), Hend.
      by destruct (start_date_raw raw ≫= dparse).
    + induction raw_experience as [|x rest IH]; [destruct Hin |].
      cbn [build_professional_profile]. destruct Hin as [-> | Hin].
      * by rewrite (build_role_raises ref_date today raw Href Hend).
      * destruct (build_role dparse ref_date x); cbn [mbind option_bind];
          [| reflexivity].
        by rewrite (IH Hin).
Qed.

End Profile.

(** A role that began in January 2020 and is ongoing, and one that ended
    ["sometime"]. *)
Definition ongoing_role : raw_role :=
  mk_raw_role "Developer" (Some "2020-01-01"%string) (Some "Present"%string)
    "" [].

Definition vague_role : raw_role :=
  mk_raw_role "Developer" (Some "2020-01-01"%string) (Some "sometime"%string)
    "" [].

(** Built on 2025-06-01, the ongoing role has 72 months and ends on
    2025-06-01; the vague one stops the build. *)
Lemma build_professional_profile_spec_witness :
  build_professional_profile strptime_ymd [ongoing_role] "2025-06-01"
  = Some [mk_candidate_role "Developer" 72 (Some "2020-01-01"%string)
            (mk_datetime 2025 6 1 0) []]
  /\ Forall2 (built_from strptime_ymd (mk_datetime 2025 6 1 0))
       [ongoing_role]
       [mk_candidate_role "Developer" 72 (Some "2020-01-01"%string)
          (mk_datetime 2025 6 1 0) []]
  /\ build_professional_profile strptime_ymd [ongoing_role; vague_role]
       "2025-06-01" = None.
Proof.
  assert (Href : strptime_ymd "2025-06-01" = Some (mk_datetime 2025 6 1 0))
    by reflexivity.
  assert (H : build_professional_profile strptime_ymd [ongoing_role]
                "2025-06-01"
              = Some [mk_candidate_role "Developer" 72
                        (Some "2020-01-01"%string) (mk_datetime 2025 6 1 0) []])
    by (vm_compute; reflexivity).
  split; [exact H | split].
  - exact (proj1 (build_professional_profile_spec strptime_ymd [ongoing_role]
                    "2025-06-01" _ Href) _ H).
  - refine (proj2 (proj2 (build_professional_profile_spec strptime_ymd
                            [ongoing_role; vague_role] "2025-06-01" _ Href)
                     vague_role _ _)).
    + right. left. reflexivity.
    + reflexivity.
Defined.

End ProfileFacts.

(* ===================================================================== *)
(** ** The vector search *)
(* ===================================================================== *)

Module VectorFacts.
Import Normalizer Vector.

Lemma vector_search_snoc q index embed x :
  vector_search q (index ++ [x]) embed
  = scan_step (embed q) (vector_search q index embed) x.
Proof. unfold vector_search. rewrite foldl_app. reflexivity. Qed.

(** [vector_search] returns the first entry of the index whose cosine
    with the query is the greatest, with that cosine, when it is
    positive: the entries before it have a smaller cosine and the ones
    after it none that is greater. When no entry has a positive cosine,
    and on an empty index, it returns [None] with 0.0. *)
Theorem vector_search_spec (query_text : string)
    (vector_index : list vector_entry) (embed_fn : string -> embedding) :
  let cosine e :=
    cosine_similarity (embed_fn query_text) (entry_embedding e) in
  match vector_search query_text vector_index embed_fn with
  | (None, score) =>
      score = 0%R /\ forall e, In e vector_index -> (cosine e <= 0)%R
  | (Some entry, score) =>
      score = cosine entry /\ (0 < score)%R
      /\ exists before after,
           vector_index = before ++ entry :: after
           /\ (forall e, In e before -> (cosine e < score)%R)
           /\ (forall e, In e after -> (cosine e <= score)%R)
  end.
Proof.
  intros cosine.
  induction vector_index as [|x l IH] using rev_ind.
  - cbn. split; [reflexivity | intros e []].
  - rewrite vector_search_snoc.
    destruct (vector_search query_text l embed_fn) as [[entry|] score];
      unfold scan_step; cbn [snd]; fold (cosine x).
    + destruct IH as (Hs & Hpos & before & after & -> & Hbefore & Hafter).
      destruct (Rgt_dec (cosine x) score) as [Hgt|Hle].
      * split; [reflexivity | split; [lra |]].
        exists (before ++ entry :: after), []. split; [reflexivity |].
        split; [| intros e []].
        intros e He. apply in_app_or in He as [He | [<- | He]].
        -- specialize (Hbefore e He). lra.
        -- lra.
        -- specialize (Hafter e He). lra.
      * split; [exact Hs | split; [exact Hpos |]].
        exists before, (after ++ [x]). split; [| split; [exact Hbefore |]].
        -- rewrite <- app_assoc. reflexivity.
        -- intros e He. apply in_app_or in He as [He | [<- | []]]; [auto | lra].
    + destruct IH as (-> & Hmax).
      destruct (Rgt_dec (cosine x) 0) as [Hgt|Hle].
      * split; [reflexivity | split; [lra |]].
        exists l, []. split; [reflexivity | split; [| intros e []]].
        intros e He. specialize (Hmax e He). lra.
      * split; [reflexivity |].
        intros e He. apply in_app_or in He as [He | [<- | []]]; [auto | lra].
Qed.

End VectorFacts.

(* ===================================================================== *)
(** ** The validators of the job profile *)
(* ===================================================================== *)

Module ValidatorFacts.
Import Text Schema Validators SubstringFacts.

Lemma normalize_examples_stripped v :
  Forall (fun s => truthy s = true /\ strip s = s) (normalize_examples v).
Proof.
  destruct v as [[|x l]|]; cbn [normalize_examples]; try constructor.
  generalize (x :: l). intros k.
  induction k as [|y k IH]; [constructor |].
  destruct (decide (truthy (strip y))) as [Hy|Hy].
  - rewrite filter_cons_True by exact Hy. cbn [map]. constructor; [| exact IH].
    split; [by apply Is_true_true | apply strip_idem].
  - rewrite filter_cons_False by exact Hy. exact IH.
Qed.

Lemma normalize_examples_fixed l :
  Forall (fun s => truthy s = true /\ strip s = s) l ->
  normalize_examples (Some l) = l.
Proof.
  intros H. destruct l as [|x l]; [reflexivity |].
  cbn [normalize_examples]. generalize dependent (x :: l). clear x l. intros k H.
  induction H as [|y k [Hy Hs] _ IH]; [reflexivity |].
  rewrite filter_cons_True by (rewrite Hs, Hy; exact I).
  cbn [map]. by rewrite Hs, IH.
Qed.

(** [normalize_examples] strips every example and drops the ones that
    are empty or blank, in their order: what it returns holds no empty
    text and no text with whitespace around it, a missing list becomes
    the empty one, and validating its result again changes nothing. *)
Theorem normalize_examples_spec (v : option (list string)) :
  normalize_examples v
  = map strip (filter (fun s => truthy (strip s)) (default [] v))
  /\ Forall (fun s => truthy s = true /\ strip s = s) (normalize_examples v)
  /\ normalize_examples (Some (normalize_examples v)) = normalize_examples v.
Proof.
  split; [by destruct v as [[|x l]|] | split].
  - apply normalize_examples_stripped.
  - apply normalize_examples_fixed, normalize_examples_stripped.
Qed.

End ValidatorFacts.
